(** * Resume-Screening: the text-to-structure extraction engine of [app.py]

    A shallow embedding of the extractors and experience metrics of
    [src/app.py], and the properties of its specification.

    Data model.
    - A Python [str] is a list of Unicode code points ([list N]).  Character
      classification ([\w], [\d], [str.lower], [str.title]) is CPython's on
      the ASCII range; the white-space table ([str.isspace], [\s],
      [str.strip], [str.split]) is CPython's in full; every other code point
      is taken as a caseless symbol that is neither a letter nor a digit,
      which is what the non-ASCII literals of the source itself are (U+2022,
      U+2013, U+2014).  The model is exact for texts made of such code
      points; letters and digits beyond ASCII are outside it.  The texts
      on which it is exact are the [plain] ones, and a statement that
      depends on the classification of letters and digits is made for
      plain text.
    - A Python [dict] is a [gmap] from its string keys; a statement that can
      raise ([d[k]], [l[i]], [int(s)]) returns an [option], [None] standing
      for the exception.
    - [re] is a backtracking matcher over the fragment of the pattern
      language that [app.py] uses, with CPython's priorities (leftmost
      match, alternatives in order, greedy repetition). *)

From Stdlib Require Import ZArith NArith Lia Ascii String.
From stdpp Require Import base option list strings pretty gmap fin_maps.

(** ** Characters and strings *)

Abbreviation pystr := (list N).

Section Characters.
Local Open Scope N_scope.

Definition ch (a : ascii) : N := N_of_ascii a.
Definition py (s : string) : pystr := map N_of_ascii (list_ascii_of_string s).

Definition nl : N := 10.
Definition bullet : N := 8226.   (* U+2022 *)
Definition en_dash : N := 8211.  (* U+2013 *)
Definition em_dash : N := 8212.  (* U+2014 *)

Definition in_range (lo hi c : N) : bool := (lo <=? c) && (c <=? hi).

Definition is_upper (c : N) : bool := in_range 65 90 c.
Definition is_lower (c : N) : bool := in_range 97 122 c.
Definition is_alpha (c : N) : bool := is_upper c || is_lower c.
(** [\d] *)
Definition is_digit (c : N) : bool := in_range 48 57 c.
(** [\w] *)
Definition is_word (c : N) : bool := is_alpha c || is_digit c || (c =? 95).

(** [str.isspace] and [\s]: the code points CPython lists as white space. *)
Definition is_space (c : N) : bool :=
  in_range 9 13 c || in_range 28 32 c || (c =? 133) || (c =? 160) ||
  (c =? 5760) || in_range 8192 8202 c || (c =? 8232) || (c =? 8233) ||
  (c =? 8239) || (c =? 8287) || (c =? 12288).

Definition lower_char (c : N) : N := if is_upper c then c + 32 else c.
Definition upper_char (c : N) : N := if is_lower c then c - 32 else c.

End Characters.

(** [s.lower()] *)
Definition lower (s : pystr) : pystr := map lower_char s.

(** [s.title()]: a cased character is upper-cased when the character before
    it is not cased, and lower-cased otherwise. *)
Fixpoint title_from (prev_cased : bool) (s : pystr) : pystr :=
  match s with
  | [] => []
  | c :: s' =>
      (if prev_cased then lower_char c else upper_char c)
        :: title_from (is_alpha c) s'
  end.
Definition title (s : pystr) : pystr := title_from false s.

(** [s.split(sep)] for a one-character separator. *)
Fixpoint split_on (sep : N) (s : pystr) : list pystr :=
  match s with
  | [] => [[]]
  | c :: s' =>
      if (c =? sep)%N then [] :: split_on sep s'
      else match split_on sep s' with
           | [] => [[c]]
           | l :: ls => (c :: l) :: ls
           end
  end.

Fixpoint lstrip (s : pystr) : pystr :=
  match s with
  | c :: s' => if is_space c then lstrip s' else s
  | [] => []
  end.
Definition rstrip (s : pystr) : pystr := rev (lstrip (rev s)).
(** [s.strip()] *)
Definition strip (s : pystr) : pystr := rstrip (lstrip s).

(** [s.split()]: the maximal runs of characters that are not white space. *)
Fixpoint split_ws_from (cur : pystr) (s : pystr) : list pystr :=
  match s with
  | [] => match cur with [] => [] | _ => [rev cur] end
  | c :: s' =>
      if is_space c then
        match cur with
        | [] => split_ws_from [] s'
        | _ => rev cur :: split_ws_from [] s'
        end
      else split_ws_from (c :: cur) s'
  end.
Definition split_ws (s : pystr) : list pystr := split_ws_from [] s.

Definition str_eqb (a b : pystr) : bool := bool_decide (a = b).

(** [s.startswith(p)] *)
Fixpoint startswith (p s : pystr) : bool :=
  match p, s with
  | [], _ => true
  | x :: p', y :: s' => (x =? y)%N && startswith p' s'
  | _ :: _, [] => false
  end.

(** [needle in hay] *)
Fixpoint contains (needle hay : pystr) : bool :=
  startswith needle hay ||
  match hay with
  | [] => false
  | _ :: hay' => contains needle hay'
  end.

(** [any(k in s for k in ks)] *)
Definition any_in (ks : list pystr) (s : pystr) : bool :=
  existsb (fun k => contains k s) ks.

Definition len (s : pystr) : nat := length s.

(** ** Regular expressions *)

Inductive regex : Type :=
| Eps
| Cls (p : N -> bool)           (* one character of a class *)
| Seq (r1 r2 : regex)
| Alt (r1 r2 : regex)
| Star (p : N -> bool)          (* greedy repetition of a class *)
| Grp (n : nat) (r : regex)     (* capturing group number [n] *)
| Bol                           (* ^ *)
| Eol                           (* $ *)
| WordB.                        (* \b *)

(** The position of the matcher: the character before it and what is left. *)
Record cursor := Cursor { before : option N; ahead : pystr }.

Abbreviation caps := (list (nat * pystr)).

Definition word_opt (o : option N) : bool :=
  match o with Some c => is_word c | None => false end.

Definition at_boundary (c : cursor) : bool :=
  xorb (word_opt (before c)) (word_opt (head (ahead c))).

Definition at_eol (c : cursor) : bool :=
  match ahead c with
  | [] => true
  | [x] => (x =? nl)%N
  | _ => false
  end.

Fixpoint m_star {A} (p : N -> bool) (k : cursor -> option A)
    (b : option N) (s : pystr) : option A :=
  match s with
  | x :: s' =>
      if p x then
        match m_star p k (Some x) s' with
        | Some a => Some a
        | None => k (Cursor b s)
        end
      else k (Cursor b s)
  | [] => k (Cursor b [])
  end.

Definition consumed (c c' : cursor) : pystr :=
  take (length (ahead c) - length (ahead c')) (ahead c).

Fixpoint m {A} (r : regex) (k : cursor -> caps -> option A)
    (c : cursor) (g : caps) : option A :=
  match r with
  | Eps => k c g
  | Cls p =>
      match ahead c with
      | x :: s' => if p x then k (Cursor (Some x) s') g else None
      | [] => None
      end
  | Seq r1 r2 => m r1 (m r2 k) c g
  | Alt r1 r2 =>
      match m r1 k c g with
      | Some a => Some a
      | None => m r2 k c g
      end
  | Star p => m_star p (fun c' => k c' g) (before c) (ahead c)
  | Grp n r => m r (fun c' g' => k c' ((n, consumed c c') :: g')) c g
  | Bol => match before c with None => k c g | Some _ => None end
  | Eol => if at_eol c then k c g else None
  | WordB => if at_boundary c then k c g else None
  end.

Record rmatch := RMatch {
  m_pos : nat;          (* where the match starts *)
  m_text : pystr;       (* group() *)
  m_caps : caps;        (* the groups that took part *)
  m_tail : cursor       (* where it ends *)
}.

Definition match_here (r : regex) (i : nat) (c : cursor) : option rmatch :=
  m r (fun c' g => Some (RMatch i (consumed c c') g c')) c [].

(** [re.search]: the first position with a match. *)
Fixpoint search_at (r : regex) (b : option N) (s : pystr) (i : nat)
    : option rmatch :=
  match match_here r i (Cursor b s) with
  | Some mt => Some mt
  | None =>
      match s with
      | [] => None
      | x :: s' => search_at r (Some x) s' (S i)
      end
  end.

Definition re_search (r : regex) (s : pystr) : option rmatch :=
  search_at r None s 0.

(** [re.match]: a match at position 0. *)
Definition re_match (r : regex) (s : pystr) : option rmatch :=
  match_here r 0 (Cursor None s).

(** [m.group(n)], [None] when the group took no part. *)
Fixpoint cap_lookup (n : nat) (g : caps) : option pystr :=
  match g with
  | [] => None
  | (k, v) :: g' => if Nat.eqb k n then Some v else cap_lookup n g'
  end.
Definition group (n : nat) (mt : rmatch) : option pystr :=
  cap_lookup n (m_caps mt).

(** The non-overlapping matches from left to right (as [finditer]), each
    with the text skipped before it, and the text after the last one.
    [skip] counts the characters still inside the previous match.  The
    patterns given to [split], [findall] and [sub] in [app.py] all need at
    least one character; after an empty match the scan moves on by one. *)
Fixpoint scan (r : regex) (b : option N) (s : pystr) (skip : nat)
    (gap : pystr) : list (pystr * rmatch) * pystr :=
  match skip with
  | S k =>
      match s with
      | [] => ([], [])
      | x :: s' => scan r (Some x) s' k gap
      end
  | O =>
      match match_here r 0 (Cursor b s) with
      | Some mt =>
          match s with
          | [] => ([(rev gap, mt)], [])
          | x :: s' =>
              let '(ms, tl) :=
                match length (m_text mt) with
                | O => scan r (Some x) s' 0 [x]
                | S k => scan r (Some x) s' k []
                end in
              ((rev gap, mt) :: ms, tl)
          end
      | None =>
          match s with
          | [] => ([], rev gap)
          | x :: s' => scan r (Some x) s' 0 (x :: gap)
          end
      end
  end.

Definition finditer (r : regex) (s : pystr) : list (pystr * rmatch) * pystr :=
  scan r None s 0 [].

(** [re.split] for a pattern without groups. *)
Definition re_split (r : regex) (s : pystr) : list pystr :=
  let '(ms, tl) := finditer r s in map fst ms ++ [tl].

(** [re.findall] for a pattern with exactly one group: the text of group 1
    of every match, the empty string where the group took no part. *)
Definition re_findall1 (r : regex) (s : pystr) : list pystr :=
  map (fun gm => default [] (group 1 (snd gm))) (finditer r s).1.

(** [re.sub] with a constant replacement. *)
Definition re_sub (r : regex) (repl : pystr) (s : pystr) : pystr :=
  let '(ms, tl) := finditer r s in
  concat (map (fun gm => fst gm ++ repl) ms) ++ tl.

(** *** The patterns of [app.py] *)

Definition one_of (s : pystr) (c : N) : bool := existsb (N.eqb c) s.

Definition lit (c : N) : regex := Cls (N.eqb c).
(** A literal under [re.IGNORECASE]. *)
Definition lit_i (c : N) : regex :=
  Cls (fun x => (lower_char x =? lower_char c)%N).
Definition lits (s : pystr) : regex := foldr (fun c r => Seq (lit c) r) Eps s.
Definition lits_i (s : pystr) : regex :=
  foldr (fun c r => Seq (lit_i c) r) Eps s.
(** [p+], [r?], [p{n}] *)
Definition Plus (p : N -> bool) : regex := Seq (Cls p) (Star p).
Definition Opt (r : regex) : regex := Alt r Eps.
Fixpoint Rep (n : nat) (p : N -> bool) : regex :=
  match n with
  | O => Eps
  | S k => Seq (Cls p) (Rep k p)
  end.
Definition seqs (rs : list regex) : regex := foldr Seq Eps rs.

(** [^[A-Za-z\s\.\-]+$] *)
Definition name_cls (c : N) : bool :=
  is_alpha c || is_space c || one_of (py ".-") c.
Definition name_re : regex := seqs [Bol; Plus name_cls; Eol].

(** [\b[A-Za-z0-9._%+-]+@[A-Za-z0-9.-]+\.[A-Z|a-z]{2,}\b] *)
Definition email_re : regex :=
  seqs [WordB;
        Plus (fun c => is_alpha c || is_digit c || one_of (py "._%+-") c);
        lit (ch "@");
        Plus (fun c => is_alpha c || is_digit c || one_of (py ".-") c);
        lit (ch ".");
        Rep 2 (fun c => is_alpha c || one_of (py "|") c);
        Star (fun c => is_alpha c || one_of (py "|") c);
        WordB].

(** [\d{1,3}], [[-.\s]?] *)
Definition digits_1_3 : regex :=
  Seq (Cls is_digit) (Opt (Seq (Cls is_digit) (Opt (Cls is_digit)))).
Definition phone_sep : regex :=
  Opt (Cls (fun c => one_of (py "-.") c || is_space c)).

(** [(\+?\d{1,3}[-.\s]?)?\(?\d{3}\)?[-.\s]?\d{3}[-.\s]?\d{4}] and
    [\b\d{3}[-.\s]?\d{3}[-.\s]?\d{4}\b] *)
Definition phone_patterns : list regex :=
  [ seqs [Opt (Grp 1 (seqs [Opt (lit (ch "+")); digits_1_3; phone_sep]));
          Opt (lit (ch "(")); Rep 3 is_digit; Opt (lit (ch ")")); phone_sep;
          Rep 3 is_digit; phone_sep; Rep 4 is_digit];
    seqs [WordB; Rep 3 is_digit; phone_sep; Rep 3 is_digit; phone_sep;
          Rep 4 is_digit; WordB] ].

(** [linkedin\.com/in/[^\s]+] and [github\.com/[^\s]+] *)
Definition linkedin_re : regex :=
  Seq (lits (py "linkedin.com/in/")) (Plus (fun c => negb (is_space c))).
Definition github_re : regex :=
  Seq (lits (py "github.com/")) (Plus (fun c => negb (is_space c))).

(** The URL pattern of line 118: [(https?://|www\.)] followed by one or more
    of [\w - . ~ : / ? # @ ! $ & ' ( ) * + , ; = %] and the double quote
    (code 34), the whole being group 1. *)
Definition url_cls (c : N) : bool :=
  is_word c || one_of (py "-.~:/?#@!$&'()*+,;=%") c || (c =? 34)%N.
Definition portfolio_re : regex :=
  Grp 1 (Seq (Grp 2 (Alt (seqs [lits (py "http"); Opt (lit (ch "s"));
                                 lits (py "://")])
                         (lits (py "www."))))
             (Plus url_cls)).

(** [\bat\b] under [re.IGNORECASE] *)
Definition at_re : regex := seqs [WordB; lits_i (py "at"); WordB].

(** [[|\-•,–—]] *)
Definition sep_cls (c : N) : bool :=
  one_of (py "|-" ++ [bullet] ++ py "," ++ [en_dash; em_dash]) c.
Definition sep_re : regex := Cls sep_cls.

(** [(\w+\s*\d{4}\s*[-–]\s*\w+\s*\d{4}|\d{4}\s*[-–]\s*\d{4}|\d{4}\s*[-–]\s*Present|Present|Current)] *)
Definition dash_cls (c : N) : bool := one_of (py "-" ++ [en_dash]) c.
Definition date_re : regex :=
  Grp 1
    (Alt (seqs [Plus is_word; Star is_space; Rep 4 is_digit; Star is_space;
                Cls dash_cls; Star is_space; Plus is_word; Star is_space;
                Rep 4 is_digit])
    (Alt (seqs [Rep 4 is_digit; Star is_space; Cls dash_cls; Star is_space;
                Rep 4 is_digit])
    (Alt (seqs [Rep 4 is_digit; Star is_space; Cls dash_cls; Star is_space;
                lits (py "Present")])
    (Alt (lits (py "Present")) (lits (py "Current")))))).

(** [(19|20)\d{2}] and [(19|20)\d{2}|Present|Current] *)
Definition year_re : regex :=
  Seq (Grp 1 (Alt (lits (py "19")) (lits (py "20")))) (Rep 2 is_digit).
Definition years_re : regex :=
  Alt year_re (Alt (lits (py "Present")) (lits (py "Current"))).

(** [^[•\-]\s*] *)
Definition bullet_cls (c : N) : bool := one_of ([bullet] ++ py "-") c.
Definition bullet_re : regex := seqs [Bol; Cls bullet_cls; Star is_space].

(** [GPA\s*:?\s*(\d\.\d{1,2})] under [re.IGNORECASE] *)
Definition gpa_re : regex :=
  seqs [lits_i (py "GPA"); Star is_space; Opt (lit (ch ":")); Star is_space;
        Grp 1 (seqs [Cls is_digit; lit (ch "."); Cls is_digit;
                     Opt (Cls is_digit)])].

(** [r'\b' + re.escape(keyword) + r'\b']: the keyword taken literally
    between two word boundaries. *)
Definition skill_re (keyword : pystr) : regex :=
  seqs [WordB; lits keyword; WordB].

Definition found (o : option rmatch) : bool :=
  match o with Some _ => true | None => false end.

(** ** Values and dictionaries *)

(** The values stored in the entries of [app.py]: strings and lists of
    strings. *)
Inductive pyval :=
| VStr (s : pystr)
| VList (l : list pystr).

#[global] Instance pyval_eq_dec : EqDecision pyval.
Proof. solve_decision. Defined.

(** Truth value of a Python object: an empty string, list or dict is false. *)
Definition truthy (v : pyval) : bool :=
  match v with
  | VStr [] | VList [] => false
  | _ => true
  end.
Definition nonempty {A} (l : list A) : bool :=
  match l with [] => false | _ => true end.
Definition dict_truthy {V} (d : gmap string V) : bool :=
  negb (bool_decide (d = ∅)).

Definition as_str (v : pyval) : option pystr :=
  match v with VStr s => Some s | VList _ => None end.
Definition as_list (v : pyval) : option (list pystr) :=
  match v with VList l => Some l | VStr _ => None end.

(** ** [extract_personal_info] *)

Definition personal_info_init : gmap string pystr :=
  list_to_map
    [("full_name", []); ("location", []); ("first_name", []);
     ("last_name", []); ("email", []); ("phone", []); ("address", []);
     ("linkedin", []); ("github", []); ("portfolio", [])].

Definition name_stop_words : list pystr :=
  [py "resume"; py "cv"; py "curriculum"; py "vitae"; py "phone";
   py "email"; py "linkedin"].

(** The test of lines 81-83 on a stripped line. *)
Definition name_line (line_clean : pystr) : bool :=
  Nat.ltb 2 (len line_clean) && Nat.ltb (len line_clean) 50 &&
  negb (any_in name_stop_words (lower line_clean)) &&
  found (re_match name_re line_clean).

(** The loop of lines 79-89 over [lines[:10]], stopped by its [break]. *)
Fixpoint name_loop (lines : list pystr) (info : gmap string pystr)
    : option (gmap string pystr) :=
  match lines with
  | [] => Some info
  | line :: lines' =>
      let line_clean := strip line in
      if name_line line_clean then
        let info := <["full_name" := line_clean]> info in
        let name_parts := split_ws line_clean in
        if nonempty name_parts then
          first ← name_parts !! 0;
          let info := <["first_name" := first]> info in
          last_ ← (if Nat.ltb 1 (length name_parts) then last name_parts
                   else Some []);
          Some (<["last_name" := last_]> info)
        else Some info
      else name_loop lines' info
  end.

(** Lines 101-105: the first pattern with a match. *)
Fixpoint phone_loop (patterns : list regex) (text : pystr)
    (info : gmap string pystr) : gmap string pystr :=
  match patterns with
  | [] => info
  | pattern :: patterns' =>
      match re_search pattern text with
      | Some phone_match => <["phone" := m_text phone_match]> info
      | None => phone_loop patterns' text info
      end
  end.

Definition set_group0 (key : string) (r : regex) (text : pystr)
    (info : gmap string pystr) : gmap string pystr :=
  match re_search r text with
  | Some mt => <[key := m_text mt]> info
  | None => info
  end.

(** Lines 118-122. *)
Definition portfolio_step (text : pystr) (info : gmap string pystr)
    : option (gmap string pystr) :=
  match re_search portfolio_re text with
  | Some portfolio_match =>
      g ← group 1 portfolio_match;
      let candidate := strip g in
      if negb (contains (py "@") candidate) &&
         negb (contains (py "linkedin") candidate) &&
         negb (contains (py "github") candidate)
      then Some (<["portfolio" := candidate]> info)
      else Some info
  | None => Some info
  end.

Definition address_tokens : list pystr :=
  [py "address"; py "location"; py "city"; py "province"; py "district";
   py "street"; py "road"].

Definition set_location (line : pystr) (info : gmap string pystr)
    : gmap string pystr :=
  <["address" := strip line]> (<["location" := strip line]> info).

(** Lines 126-131 over [lines[:12]]. *)
Fixpoint address_loop (lines : list pystr) (info : gmap string pystr)
    : gmap string pystr :=
  match lines with
  | [] => info
  | line :: lines' =>
      let low := lower (strip line) in
      if any_in address_tokens low && Nat.ltb 5 (len (strip line))
      then set_location line info
      else address_loop lines' info
  end.

(** Lines 134-138 over [lines[:8]]. *)
Fixpoint comma_loop (lines : list pystr) (info : gmap string pystr)
    : gmap string pystr :=
  match lines with
  | [] => info
  | line :: lines' =>
      if contains (py ",") line && Nat.ltb 8 (len (strip line)) &&
         negb (found (re_search (lit (ch "@")) line))
      then set_location line info
      else comma_loop lines' info
  end.

Definition extract_personal_info (text : pystr)
    : option (gmap string pystr) :=
  let lines := split_on nl text in
  info ← name_loop (take 10 lines) personal_info_init;
  let info := set_group0 "email" email_re text info in
  let info := phone_loop phone_patterns text info in
  let info := set_group0 "linkedin" linkedin_re text info in
  let info := set_group0 "github" github_re text info in
  info ← portfolio_step text info;
  let info := address_loop (take 12 lines) info in
  location ← info !! "location";
  if negb (nonempty location) then Some (comma_loop (take 8 lines) info)
  else Some info.

(** ** [extract_summary] *)

Definition summary_headers : list pystr :=
  [py "summary"; py "objective"; py "profile"; py "about"].
Definition summary_stops : list pystr :=
  [py "experience"; py "education"; py "skills"; py "projects"].

(** The loop of lines 148-160: [in_summary] and [summary] are its two
    variables, [continue] goes on with the next line and [break] returns. *)
Fixpoint summary_loop (lines : list pystr) (in_summary : bool)
    (summary : pystr) : pystr :=
  match lines with
  | [] => summary
  | line :: lines' =>
      let line_clean := strip line in
      if any_in summary_headers (lower line_clean) then
        summary_loop lines' true summary
      else if in_summary then
        if nonempty line_clean && Nat.ltb 10 (len line_clean) then
          if any_in summary_stops (lower line_clean) then summary
          else summary_loop lines' in_summary (summary ++ line_clean ++ py " ")
        else
          if nonempty summary then summary
          else summary_loop lines' in_summary summary
      else summary_loop lines' in_summary summary
  end.

Definition extract_summary (text : pystr) : pystr :=
  strip (summary_loop (split_on nl text) false []).

(** ** [extract_work_experience] *)

Definition new_job (company_name job_title : pystr) : gmap string pyval :=
  list_to_map
    [("company_name", VStr company_name); ("job_title", VStr job_title);
     ("start_date", VStr []); ("end_date", VStr []); ("duration", VStr []);
     ("responsibilities", VList [])].

Definition experience_headers : list pystr :=
  [py "experience"; py "work experience"; py "employment"; py "work history"].
Definition experience_stops : list pystr :=
  [py "education"; py "skills"; py "projects"; py "certifications"].

Definition is_present (d : pystr) : bool :=
  bool_decide (d ∈ [py "Present"; py "Current"]).

(** Lines 186-212: the company and the title of an opening line. *)
Definition split_title (line_clean : pystr) (current_job : gmap string pyval)
    : option (gmap string pyval) :=
  if found (re_search at_re line_clean) then
    let parts_at := re_split at_re line_clean in
    if Nat.leb 2 (length parts_at) then
      p0 ← parts_at !! 0;
      p1 ← parts_at !! 1;
      let title_part := strip p0 in
      let company_part := strip p1 in
      Some (new_job company_part title_part)
    else Some current_job
  else
    let parts := re_split sep_re line_clean in
    if Nat.leb 2 (length parts) then
      p0 ← parts !! 0;
      p1 ← parts !! 1;
      let company_guess := strip p0 in
      let title_guess := strip p1 in
      Some (new_job company_guess title_guess)
    else Some current_job.

(** Lines 215-223: the dates of an opening line. *)
Definition set_dates (line_clean : pystr) (current_job : gmap string pyval)
    : option (gmap string pyval) :=
  match re_search date_re line_clean with
  | Some date_match =>
      if dict_truthy current_job then
        let date_str := m_text date_match in
        let dates := re_findall1 years_re date_str in
        current_job ←
          (if Nat.leb 1 (length dates) then
             d0 ← dates !! 0;
             Some (<["start_date" :=
                       VStr (if negb (is_present d0) then d0 ++ py "-01"
                             else [])]> current_job)
           else Some current_job);
        current_job ←
          (if Nat.leb 2 (length dates) then
             d1 ← dates !! 1;
             Some (<["end_date" :=
                       VStr (if negb (is_present d1) then d1 ++ py "-01"
                             else py "Present")]> current_job)
           else Some current_job);
        Some (<["duration" := VStr date_str]> current_job)
      else Some current_job
  | None => Some current_job
  end.

(** Lines 184-223, for a line that opens an entry. *)
Definition open_job (line_clean : pystr) (current_job : gmap string pyval)
    : option (gmap string pyval) :=
  current_job ← split_title line_clean current_job;
  set_dates line_clean current_job.

(** Lines 227-231: a responsibility of the open entry. *)
Definition add_responsibility (line_clean : pystr)
    (current_job : gmap string pyval) : option (gmap string pyval) :=
  if startswith [bullet] line_clean || startswith (py "-") line_clean ||
     (Nat.ltb 20 (len line_clean) &&
      negb (found (re_search year_re line_clean)))
  then
    let responsibility := re_sub bullet_re [] line_clean in
    if Nat.ltb 10 (len responsibility) then
      v ← current_job !! "responsibilities";
      l ← as_list v;
      Some (<["responsibilities" := VList (l ++ [responsibility])]>
              current_job)
    else Some current_job
  else Some current_job.

(** The loop of lines 171-237.  Its variables are [experience],
    [current_job] and [in_experience_section]; [lines[i + 1]] is the head of
    the lines still to come; the result is [experience] and [current_job]
    when the loop ends or breaks. *)
Fixpoint work_loop (lines : list pystr) (experience : list (gmap string pyval))
    (current_job : gmap string pyval) (in_experience_section : bool)
    : option (list (gmap string pyval) * gmap string pyval) :=
  match lines with
  | [] => Some (experience, current_job)
  | line :: rest =>
      let line_clean := strip line in
      if negb (nonempty line_clean) then
        work_loop rest experience current_job in_experience_section
      else if any_in experience_headers (lower line_clean) then
        work_loop rest experience current_job true
      else if in_experience_section then
        if any_in experience_stops (lower line_clean) then
          Some (experience, current_job)
        else if negb (dict_truthy current_job) && Nat.ltb 5 (len line_clean)
        then
          current_job ← open_job line_clean current_job;
          work_loop rest experience current_job in_experience_section
        else if dict_truthy current_job then
          current_job ← add_responsibility line_clean current_job;
          match rest with
          | next :: _ =>
              if any_in [py "education"; py "skills"] (lower next) then
                work_loop rest (experience ++ [current_job]) ∅
                  in_experience_section
              else work_loop rest experience current_job in_experience_section
          | [] => work_loop rest experience current_job in_experience_section
          end
        else work_loop rest experience current_job in_experience_section
      else work_loop rest experience current_job in_experience_section
  end.

Definition extract_work_experience (text : pystr)
    : option (list (gmap string pyval)) :=
  '(experience, current_job) ← work_loop (split_on nl text) [] ∅ false;
  if dict_truthy current_job then Some (experience ++ [current_job])
  else Some experience.

(** ** [extract_education] *)

Definition new_edu : gmap string pystr :=
  list_to_map
    [("degree", []); ("major", []); ("school_name", []); ("start_date", []);
     ("end_date", []); ("gpa", [])].

Definition education_headers : list pystr :=
  [py "education"; py "academic"; py "qualifications"].
Definition education_stops : list pystr :=
  [py "experience"; py "skills"; py "projects"; py "certifications"].
Definition degree_words : list pystr :=
  [py "bachelor"; py "master"; py "phd"; py "associate"; py "diploma";
   py "degree"].
Definition school_words : list pystr := [py "university"; py "college"].

(** Lines 266-290, for a line that opens an entry. *)
Definition open_edu (line_clean : pystr) (current_edu : gmap string pystr)
    : option (gmap string pystr) :=
  if any_in degree_words (lower line_clean) then
    let current_edu := new_edu in
    let current_edu :=
      if any_in school_words (lower line_clean)
      then <["school_name" := line_clean]> current_edu
      else <["degree" := line_clean]> current_edu in
    let current_edu :=
      match re_search year_re line_clean with
      | Some year_match =>
          <["end_date" := m_text year_match ++ py "-01"]> current_edu
      | None => current_edu
      end in
    match re_search gpa_re line_clean with
    | Some gpa_match =>
        g ← group 1 gpa_match;
        Some (<["gpa" := g]> current_edu)
    | None => Some current_edu
    end
  else Some current_edu.

Fixpoint edu_loop (lines : list pystr) (education : list (gmap string pystr))
    (current_edu : gmap string pystr) (in_education_section : bool)
    : option (list (gmap string pystr) * gmap string pystr) :=
  match lines with
  | [] => Some (education, current_edu)
  | line :: rest =>
      let line_clean := strip line in
      if negb (nonempty line_clean) then
        edu_loop rest education current_edu in_education_section
      else if any_in education_headers (lower line_clean) then
        edu_loop rest education current_edu true
      else if in_education_section then
        if any_in education_stops (lower line_clean) then
          Some (education, current_edu)
        else if negb (dict_truthy current_edu) && Nat.ltb 5 (len line_clean)
        then
          current_edu ← open_edu line_clean current_edu;
          edu_loop rest education current_edu in_education_section
        else if dict_truthy current_edu then
          school_name ← current_edu !! "school_name";
          let current_edu :=
            if negb (nonempty school_name) &&
               any_in school_words (lower line_clean)
            then <["school_name" := line_clean]> current_edu
            else current_edu in
          match rest with
          | next :: _ =>
              if any_in [py "experience"; py "skills"; py "projects"]
                   (lower next)
              then edu_loop rest (education ++ [current_edu]) ∅
                     in_education_section
              else edu_loop rest education current_edu in_education_section
          | [] => edu_loop rest education current_edu in_education_section
          end
        else edu_loop rest education current_edu in_education_section
      else edu_loop rest education current_edu in_education_section
  end.

Definition extract_education (text : pystr)
    : option (list (gmap string pystr)) :=
  '(education, current_edu) ← edu_loop (split_on nl text) [] ∅ false;
  if dict_truthy current_edu then Some (education ++ [current_edu])
  else Some education.

(** ** [extract_projects] *)

Definition new_project (title_ : pystr) : gmap string pyval :=
  list_to_map
    [("title", VStr title_); ("description", VStr []);
     ("technologies", VList []); ("role", VStr []); ("duration", VStr [])].

Definition project_headers : list pystr :=
  [py "projects"; py "personal projects"; py "portfolio"].
Definition project_stops : list pystr :=
  [py "experience"; py "education"; py "skills"; py "certifications"].
Definition tech_keywords : list pystr :=
  [py "python"; py "java"; py "react"; py "node"; py "sql"; py "mongodb";
   py "aws"].

(** Lines 391-398: the description and the technologies of the open entry. *)
Definition describe_project (line_clean : pystr)
    (current_project : gmap string pyval) : option (gmap string pyval) :=
  if Nat.ltb 20 (len line_clean) then
    description ← current_project !! "description";
    if negb (truthy description) then
      Some (<["description" := VStr line_clean]> current_project)
    else
      let found_tech :=
        filter (fun tech => contains tech (lower line_clean) = true)
          tech_keywords in
      v ← current_project !! "technologies";
      l ← as_list v;
      Some (<["technologies" := VList (l ++ found_tech)]> current_project)
  else Some current_project.

Fixpoint project_loop (lines : list pystr)
    (projects : list (gmap string pyval))
    (current_project : gmap string pyval) (in_project_section : bool)
    : option (list (gmap string pyval) * gmap string pyval) :=
  match lines with
  | [] => Some (projects, current_project)
  | line :: rest =>
      let line_clean := strip line in
      if negb (nonempty line_clean) then
        project_loop rest projects current_project in_project_section
      else if any_in project_headers (lower line_clean) then
        project_loop rest projects current_project true
      else if in_project_section then
        if any_in project_stops (lower line_clean) then
          Some (projects, current_project)
        else if negb (dict_truthy current_project) &&
                Nat.ltb 5 (len line_clean) && Nat.ltb (len line_clean) 100
        then
          project_loop rest projects (new_project line_clean)
            in_project_section
        else if dict_truthy current_project then
          current_project ← describe_project line_clean current_project;
          match rest with
          | next :: _ =>
              if Nat.eqb (len (strip next)) 0 ||
                 any_in [py "experience"; py "education"] (lower next)
              then project_loop rest (projects ++ [current_project]) ∅
                     in_project_section
              else project_loop rest projects current_project
                     in_project_section
          | [] =>
              project_loop rest projects current_project in_project_section
          end
        else project_loop rest projects current_project in_project_section
      else project_loop rest projects current_project in_project_section
  end.

Definition extract_projects (text : pystr)
    : option (list (gmap string pyval)) :=
  '(projects, current_project) ← project_loop (split_on nl text) [] ∅ false;
  if dict_truthy current_project then Some (projects ++ [current_project])
  else Some projects.

(** ** [extract_additional_info] *)

Definition additional_info_init : gmap string (list pystr) :=
  list_to_map [("certifications", []); ("languages", []); ("awards", [])].

Definition append_to (key : string) (x : pystr)
    (info : gmap string (list pystr)) : option (gmap string (list pystr)) :=
  l ← info !! key;
  Some (<[key := l ++ [x]]> info).

(** The loop of lines 423-447; [current_section] is the empty string until
    a header is met. *)
Fixpoint additional_loop (lines : list pystr) (current_section : string)
    (info : gmap string (list pystr)) : option (gmap string (list pystr)) :=
  match lines with
  | [] => Some info
  | line :: rest =>
      let line_clean := strip line in
      if negb (nonempty line_clean) then
        additional_loop rest current_section info
      else
        let low := lower line_clean in
        if startswith (py "certificat") low ||
           startswith (py "certification") low
        then additional_loop rest "certifications" info
        else if startswith (py "language") low ||
                str_eqb low (py "languages") ||
                startswith (py "languages:") low
        then additional_loop rest "languages" info
        else if startswith (py "award") low || startswith (py "awards") low ||
                contains (py "honor") low
        then additional_loop rest "awards" info
        else if negb (String.eqb current_section "") &&
                Nat.ltb 2 (len line_clean)
        then
          info ←
            (if String.eqb current_section "certifications"
             then append_to "certifications" line_clean info
             else if String.eqb current_section "languages"
             then append_to "languages" line_clean info
             else if String.eqb current_section "awards"
             then append_to "awards" line_clean info
             else Some info);
          additional_loop rest current_section info
        else additional_loop rest current_section info
  end.

Definition extract_additional_info (text : pystr)
    : option (gmap string (list pystr)) :=
  additional_loop (split_on nl text) "" additional_info_init.

(** ** [extract_skills] *)

Definition skills_init : gmap string (list pystr) :=
  list_to_map
    [("programming", []); ("web", []); ("data", []); ("devops", []);
     ("tools", []); ("soft_skills", [])].

Definition skill_categories : list (string * list pystr) :=
  [("programming",
    [py "python"; py "java"; py "javascript"; py "typescript"; py "c++";
     py "c#"; py "php"; py "ruby"]);
   ("web",
    [py "html"; py "css"; py "react"; py "angular"; py "vue"; py "node.js";
     py "express"; py "django"; py "flask"; py "spring"; py "laravel"]);
   ("data",
    [py "sql"; py "mysql"; py "postgresql"; py "mongodb"; py "redis";
     py "pandas"; py "numpy"; py "data analysis"; py "machine learning"]);
   ("devops",
    [py "aws"; py "azure"; py "gcp"; py "docker"; py "kubernetes";
     py "jenkins"; py "gitlab"; py "terraform"; py "linux"]);
   ("tools",
    [py "git"; py "github"; py "gitlab"; py "jira"; py "docker";
     py "postman"]);
   ("soft_skills",
    [py "leadership"; py "communication"; py "teamwork"; py "problem solving";
     py "critical thinking"; py "project management"; py "agile";
     py "scrum"])].

(** Lines 346-349 for one category. *)
Fixpoint keyword_loop (category : string) (keywords : list pystr)
    (text_lower : pystr) (skills : gmap string (list pystr))
    : option (gmap string (list pystr)) :=
  match keywords with
  | [] => Some skills
  | keyword :: keywords' =>
      if found (re_search (skill_re keyword) text_lower) then
        let normalized_name := title keyword in
        l ← skills !! category;
        keyword_loop category keywords' text_lower
          (<[category := l ++ [normalized_name]]> skills)
      else keyword_loop category keywords' text_lower skills
  end.

(** Lines 345-349 over [skill_categories.items()]. *)
Fixpoint category_loop (categories : list (string * list pystr))
    (text_lower : pystr) (skills : gmap string (list pystr))
    : option (gmap string (list pystr)) :=
  match categories with
  | [] => Some skills
  | (category, keywords) :: categories' =>
      skills ← keyword_loop category keywords text_lower skills;
      category_loop categories' text_lower skills
  end.

Section Skills.
(** [list(set(l))]: the elements of [l] without repetition, in the order in
    which the interpreter's hash table yields them.  The order is a function
    of the process (its hash seed), and nothing else is known of it. *)
Variable list_of_set : list pystr -> list pystr.

Definition extract_skills (text : pystr)
    : option (gmap string (list pystr)) :=
  let text_lower := lower text in
  match category_loop skill_categories text_lower skills_init with
  | Some skills => Some (list_of_set <$> skills)
  | None => None
  end.
End Skills.

(** ** Integers and dates as text *)

Section Numbers.
Local Open Scope Z_scope.

(** [str(n)], for a number of at most 4300 digits: beyond that the
    interpreter refuses the conversion, and a statement about a number
    that is not bounded otherwise carries the bound as a hypothesis. *)
Definition str_of_int (n : Z) : pystr := py (pretty n).

(** [int(s)].  White space around the number is dropped (for [int] the
    separators U+001C to U+001F are not white space); then come an optional
    sign and decimal digits, in which single underscores may separate
    digits.  A number of more than 4300 digits is refused (the
    interpreter's default [int_max_str_digits]). *)
Definition is_int_space (c : N) : bool :=
  is_space c && negb (in_range 28 31 c).

Fixpoint drop_int_space (s : pystr) : pystr :=
  match s with
  | c :: s' => if is_int_space c then drop_int_space s' else s
  | [] => []
  end.

Fixpoint digits_value (s : pystr) (prev_digit : bool) (acc : Z)
    : option Z :=
  match s with
  | [] => if prev_digit then Some acc else None
  | c :: s' =>
      if is_digit c then
        digits_value s' true (10 * acc + Z.of_N (c - 48))
      else if (c =? 95)%N && prev_digit then digits_value s' false acc
      else None
  end.

Definition unsigned_value (s : pystr) : option Z :=
  if Nat.ltb 4300 (length (filter (fun c => is_digit c = true) s)) then None
  else digits_value s false 0.

Definition py_int (s : pystr) : option Z :=
  let s := rev (drop_int_space (rev (drop_int_space s))) in
  match s with
  | c :: s' =>
      if (c =? 43)%N then unsigned_value s'
      else if (c =? 45)%N then Z.opp <$> unsigned_value s'
      else unsigned_value s
  | [] => None
  end.

(** What [datetime.now()] gives the two metrics and the assembly. *)
Record datetime := { year : Z; month : Z; day : Z }.

Definition two_digits (n : Z) : pystr :=
  if n <? 10 then py "0" ++ str_of_int n else str_of_int n.

(** [now.strftime("%Y-%m")] and [now.strftime("%Y-%m-%d")] *)
Definition strftime_Ym (now : datetime) : pystr :=
  str_of_int (year now) ++ py "-" ++ two_digits (month now).
Definition strftime_Ymd (now : datetime) : pystr :=
  strftime_Ym now ++ py "-" ++ two_digits (day now).

(** ** [calculate_experience_level] *)

(** [job.get(key)] taken as a condition. *)
Definition get_truthy (job : gmap string pyval) (key : string) : bool :=
  match job !! key with
  | Some v => truthy v
  | None => false
  end.

(** The body of the [try] of lines 458-460: the years to add, [None] when
    an exception is raised. *)
Definition job_years (now : datetime) (job : gmap string pyval) : option Z :=
  sd ← job !! "start_date";
  start_year ← (if truthy sd then s ← as_str sd; py_int (take 4 s)
                else Some 0);
  ed ← job !! "end_date";
  end_year ← (if negb (bool_decide (ed = VStr (py "Present")))
              then s ← as_str ed; py_int (take 4 s)
              else Some (year now));
  Some (end_year - start_year).

Fixpoint level_loop (now : datetime) (work_experience : list (gmap string pyval))
    (total_years : Z) : Z :=
  match work_experience with
  | [] => total_years
  | job :: jobs =>
      if get_truthy job "start_date" && get_truthy job "end_date" then
        match job_years now job with
        | Some d => level_loop now jobs (total_years + d)
        | None => level_loop now jobs total_years
        end
      else level_loop now jobs total_years
  end.

Definition calculate_experience_level (now : datetime)
    (work_experience : list (gmap string pyval)) (text : pystr) : pystr :=
  let total_years := level_loop now work_experience 0 in
  let total_years :=
    if total_years =? 0 then
      if Nat.ltb 3000 (len text) then 3
      else if Nat.ltb 1500 (len text) then 1
      else 0
    else total_years in
  if 5 <=? total_years then py "Experienced"
  else if 2 <=? total_years then py "Intermediate"
  else py "Fresher".

(** ** [calculate_total_experience] *)

(** [a, b = map(int, s.split('-'))] *)
Definition year_month (s : pystr) : option (Z * Z) :=
  match split_on (ch "-") s with
  | [a; b] => y ← py_int a; m ← py_int b; Some (y, m)
  | _ => None
  end.

(** The body of the [try] of lines 486-495: the months to add, [None] when
    an exception is raised. *)
Definition job_months (now : datetime) (job : gmap string pyval)
    : option Z :=
  sd ← job !! "start_date";
  ed ← job !! "end_date";
  let ed := if bool_decide (ed = VStr (py "Present"))
            then VStr (strftime_Ym now) else ed in
  start_date ← as_str sd;
  '(start_year, start_month) ← year_month start_date;
  end_date ← as_str ed;
  '(end_year, end_month) ← year_month end_date;
  Some ((end_year - start_year) * 12 + (end_month - start_month)).

Fixpoint months_loop (now : datetime)
    (work_experience : list (gmap string pyval)) (total_months : Z) : Z :=
  match work_experience with
  | [] => total_months
  | job :: jobs =>
      if get_truthy job "start_date" && get_truthy job "end_date" then
        match job_months now job with
        | Some d => months_loop now jobs (total_months + d)
        | None => months_loop now jobs total_months
        end
      else months_loop now jobs total_months
  end.

Definition format_experience (total_months : Z) : pystr :=
  let years := total_months / 12 in
  let months := total_months mod 12 in
  if years =? 0 then str_of_int months ++ py " months"
  else if months =? 0 then str_of_int years ++ py " years"
  else str_of_int years ++ py " years " ++ str_of_int months ++ py " months".

Definition calculate_total_experience (now : datetime)
    (work_experience : list (gmap string pyval)) : pystr :=
  format_experience (months_loop now work_experience 0).

End Numbers.

(** ** The assembly of [analyze_resume] (lines 542-568) *)

Record profile := {
  p_personal_info : gmap string pystr;
  p_summary : pystr;
  p_work_experience : list (gmap string pyval);
  p_education : list (gmap string pystr);
  p_skills : gmap string (list pystr);
  p_projects : list (gmap string pyval);
  p_certifications : list pystr;
  p_languages : list pystr;
  p_awards : list pystr;
  p_total_experience : pystr;
  p_experience_level : pystr;
  p_additional_info : pystr
}.

Section Assembly.
Variable list_of_set : list pystr -> list pystr.

Definition structured_data (now : datetime) (resume_text : pystr)
    : option profile :=
  personal_info ← extract_personal_info resume_text;
  let summary := extract_summary resume_text in
  work_experience ← extract_work_experience resume_text;
  education ← extract_education resume_text;
  skills ← extract_skills list_of_set resume_text;
  projects ← extract_projects resume_text;
  additional_info ← extract_additional_info resume_text;
  let experience_level :=
    calculate_experience_level now work_experience resume_text in
  let total_experience := calculate_total_experience now work_experience in
  certifications ← additional_info !! "certifications";
  languages ← additional_info !! "languages";
  awards ← additional_info !! "awards";
  Some {|
    p_personal_info := personal_info;
    p_summary := summary;
    p_work_experience := work_experience;
    p_education := education;
    p_skills := skills;
    p_projects := projects;
    p_certifications := certifications;
    p_languages := languages;
    p_awards := awards;
    p_total_experience := total_experience;
    p_experience_level := experience_level;
    p_additional_info :=
      py "Analyzed on " ++ strftime_Ymd now ++ py ". Text length: " ++
      str_of_int (Z.of_nat (len resume_text)) ++ py " characters."
  |}.
End Assembly.

(** ** The wording of the specification

    The definitions below follow the sentences of the specification, not the
    code; the theorems compare them with the functions above. *)

(** [x] occurs in [s]. *)
Definition substring (x s : pystr) : Prop := exists a b, s = a ++ x ++ b.

(** A name line: its length within [lo] and [hi] inclusive, none of the
    excluded words in it, and only letters, white space, periods and hyphens. *)
Definition qualifies (lo hi : nat) (l : pystr) : bool :=
  Nat.leb lo (len l) && Nat.leb (len l) hi &&
  negb (any_in name_stop_words (lower l)) &&
  forallb name_cls l.

(** The first qualifying line among the first ten, trimmed. *)
Definition first_name_line (lo hi : nat) (text : pystr) : option pystr :=
  find (qualifies lo hi) (map strip (take 10 (split_on nl text))).

(** Full name, first name and last name read off the accepted line. *)
Definition name_fields (o : option pystr) : pystr * pystr * pystr :=
  match o with
  | None => ([], [], [])
  | Some l =>
      let tokens := split_ws l in
      (l, default [] (head tokens),
       if Nat.ltb 1 (length tokens) then default [] (last tokens) else [])
  end.


(** The whole word "at", in either case, starts [s]; [b] is the character
    before it. *)
Definition at_word_here (b : option N) (s : pystr) : bool :=
  match s with
  | a :: t :: rest =>
      (lower_char a =? ch "a")%N && (lower_char t =? ch "t")%N &&
      negb (word_opt b) && negb (word_opt (head rest))
  | _ => false
  end.

(** The first whole word "at" of [s]: the text before it, the word, and the
    text after it. *)
Fixpoint cut_at_word (b : option N) (s : pystr)
    : option (pystr * pystr * pystr) :=
  if at_word_here b s then Some ([], take 2 s, drop 2 s)
  else match s with
       | [] => None
       | x :: s' =>
           match cut_at_word (Some x) s' with
           | Some (pre, w, post) => Some (x :: pre, w, post)
           | None => None
           end
       end.



Section SpecNumbers.
Local Open Scope Z_scope.

Definition sum_Z (l : list Z) : Z := foldr Z.add 0 l.

(** The months of one entry: both dates present, not empty, and of the form
    year-month, "Present" being the current month. *)
Definition entry_months (now : datetime) (job : gmap string pyval)
    : option Z :=
  match job !! "start_date", job !! "end_date" with
  | Some (VStr s), Some (VStr e) =>
      if nonempty s && nonempty e then
        match year_month s,
              (if bool_decide (e = py "Present")
               then Some (year now, month now) else year_month e) with
        | Some (sy, sm), Some (ey, em) => Some ((ey - sy) * 12 + (em - sm))
        | _, _ => None
        end
      else None
  | _, _ => None
  end.

Definition total_months (now : datetime) (jobs : list (gmap string pyval))
    : Z :=
  sum_Z (omap (entry_months now) jobs).

(** The format as the specification words it: each component left out when
    it is zero. *)
Definition stated_format (total : Z) : pystr :=
  let y := total / 12 in
  let mo := total mod 12 in
  (if y =? 0 then [] else str_of_int y ++ py " years") ++
  (if (y =? 0) || (mo =? 0) then [] else py " ") ++
  (if mo =? 0 then [] else str_of_int mo ++ py " months").

(** The whole years of one entry. *)
Definition entry_years (now : datetime) (job : gmap string pyval)
    : option Z :=
  match job !! "start_date", job !! "end_date" with
  | Some (VStr s), Some (VStr e) =>
      if nonempty s && nonempty e then
        match py_int (take 4 s),
              (if bool_decide (e = py "Present")
               then Some (year now) else py_int (take 4 e)) with
        | Some sy, Some ey => Some (ey - sy)
        | _, _ => None
        end
      else None
  | _, _ => None
  end.

Definition total_years (now : datetime) (jobs : list (gmap string pyval))
    : Z :=
  sum_Z (omap (entry_years now) jobs).



(** A date that [datetime.now()] can return, its year of four digits. *)
Definition valid_now (now : datetime) : Prop :=
  1000 <= year now <= 9999 /\ 1 <= month now <= 12 /\ 1 <= day now <= 31.

End SpecNumbers.

Definition text_of_lines (lines : list pystr) : pystr :=
  match lines with
  | [] => []
  | l :: ls => l ++ concat (map (fun x => nl :: x) ls)
  end.

Definition the_keys {V} (d : gmap string V) (keys : list string) : Prop :=
  dom d = list_to_set keys.

Definition personal_info_keys : list string :=
  ["full_name"; "location"; "first_name"; "last_name"; "email"; "phone";
   "address"; "linkedin"; "github"; "portfolio"]%string.
Definition job_keys : list string :=
  ["company_name"; "job_title"; "start_date"; "end_date"; "duration";
   "responsibilities"]%string.
Definition edu_keys : list string :=
  ["degree"; "major"; "school_name"; "start_date"; "end_date"; "gpa"]%string.
Definition project_keys : list string :=
  ["title"; "description"; "technologies"; "role"; "duration"]%string.
Definition additional_info_keys : list string :=
  ["certifications"; "languages"; "awards"]%string.
Definition skill_keys : list string :=
  ["programming"; "web"; "data"; "devops"; "tools"; "soft_skills"]%string.

Definition clock0 : datetime := {| year := 2026; month := 11; day := 3 |}.

(** A pattern without groups. *)
Fixpoint no_group (r : regex) : bool :=
  match r with
  | Seq r1 r2 | Alt r1 r2 => no_group r1 && no_group r2
  | Grp _ _ => false
  | _ => true
  end.

(** The dates that lines 218-222 can store. *)
Definition short_dates : list pystr := [[]; py "19-01"; py "20-01"; py "-01"].

(** A well-formed work entry: the six keys, a list of responsibilities, and
    dates among [short_dates]. *)
Definition job_ok (d : gmap string pyval) : Prop :=
  the_keys d job_keys /\
  (exists l, d !! "responsibilities" = Some (VList l)) /\
  (exists sd, d !! "start_date" = Some (VStr sd) /\ sd ∈ short_dates) /\
  (exists ed, d !! "end_date" = Some (VStr ed) /\ ed ∈ short_dates).

(** A well-formed project entry: the five keys, a list of technologies. *)
Definition project_ok (d : gmap string pyval) : Prop :=
  the_keys d project_keys /\
  exists l, d !! "technologies" = Some (VList l).

(** The character before the position reached after [pre], [b] being the
    character before [pre]. *)
Definition prev_of (b : option N) (pre : pystr) : option N :=
  match last pre with
  | Some x => Some x
  | None => b
  end.


(** The names appended for the keywords of one category. *)
Definition matched_titles (text_lower : pystr) (keywords : list pystr)
    : list pystr :=
  map title
    (filter (fun kw => found (re_search (skill_re kw) text_lower) = true)
       keywords).

(** The name fields of [extract_personal_info] are those of the first
    qualifying line, for lengths within [lo] and [hi]. *)
Definition name_claim (lo hi : nat) (text : pystr) : Prop :=
  exists info,
    extract_personal_info text = Some info /\
    (info !! "full_name", info !! "first_name", info !! "last_name") =
    (let '(full, first, last_) := name_fields (first_name_line lo hi text) in
     (Some full, Some first, Some last_)).

(** What [extract_summary] has gathered so far holds no header word, and is
    empty or ends with the separating space. *)
Definition summary_inv (summary : pystr) : Prop :=
  any_in summary_headers (lower summary) = false /\
  (summary = [] \/ exists a, summary = a ++ py " ").

(** A step of [extract_personal_info] that leaves the three name fields
    alone. *)
Definition keeps_names (f : gmap string pystr -> gmap string pystr) : Prop :=
  forall info k, k ∈ ["full_name"; "first_name"; "last_name"]%string ->
                 f info !! k = info !! k.

(** The text of a year, and of a month, reads back as the number and holds
    no hyphen. *)
Definition year_reads_back (n : nat) : bool :=
  let y := Z.of_nat n in
  bool_decide (py_int (str_of_int y) = Some y) &&
  negb (existsb (N.eqb (ch "-")) (str_of_int y)).
Definition month_reads_back (n : nat) : bool :=
  let mo := Z.of_nat n in
  bool_decide (py_int (two_digits mo) = Some mo) &&
  negb (existsb (N.eqb (ch "-")) (two_digits mo)).

(** What lines 456-462 and 484-497 add for one entry: nothing when a date
    is missing or empty, or when the [try] raises. *)
Definition years_added (now : datetime) (job : gmap string pyval)
    : option Z :=
  if get_truthy job "start_date" && get_truthy job "end_date"
  then job_years now job else None.
Definition months_added (now : datetime) (job : gmap string pyval)
    : option Z :=
  if get_truthy job "start_date" && get_truthy job "end_date"
  then job_months now job else None.

(** A work entry with the given dates. *)
Definition dated_job (start_date end_date : pystr) : gmap string pyval :=
  <["end_date" := VStr end_date]>
    (<["start_date" := VStr start_date]> (new_job [] [])).

(** The reference line of the specification, in its section. *)
Definition acme_text : pystr :=
  text_of_lines
    [py "Experience"; py "Software Engineer at Acme Corp 2019 - 2021"].


(** ** The texts on which the classification is exact

    A code point is plain when it is an ASCII character, one of the
    white-space characters of [is_space], or one of U+2022, U+2013 and
    U+2014.  CPython gives every plain code point beyond ASCII no case, and
    takes it for neither a letter nor a digit, so on plain text [is_word],
    [is_digit], [lower] and [py_int] are [\w], [\d], [str.lower] and [int].
    The statements that depend on them are made for plain text. *)
Definition plain_char (c : N) : bool :=
  (c <? 128)%N || is_space c || one_of [bullet; en_dash; em_dash] c.
Definition plain (s : pystr) : Prop := forallb plain_char s = true.






(** ** Further wording: where the fields come from *)

(** A field is empty or occurs in the text. *)
Definition empty_or_in (text field : pystr) : Prop :=
  field = [] \/ substring field text.

(** The longest start of [s] made of characters of the class [p], and what
    follows it. *)
Fixpoint take_while (p : N -> bool) (s : pystr) : pystr :=
  match s with
  | c :: s' => if p c then c :: take_while p s' else []
  | [] => []
  end.
Fixpoint drop_while (p : N -> bool) (s : pystr) : pystr :=
  match s with
  | c :: s' => if p c then drop_while p s' else s
  | [] => []
  end.

(** The link that starts [s]: the first of the given beginnings that stands
    there before at least one character of a link, with all the characters
    of a link that follow it. *)
Fixpoint link_with (beginnings : list pystr) (s : pystr) : option pystr :=
  match beginnings with
  | [] => None
  | pre :: rest =>
      let body := take_while url_cls (drop (length pre) s) in
      if startswith pre s && nonempty body then Some (pre ++ body)
      else link_with rest s
  end.
Definition link_here (s : pystr) : option pystr :=
  link_with [py "https://"; py "http://"; py "www."] s.

(** The first link of a text, from left to right. *)
Fixpoint first_link (s : pystr) : option pystr :=
  match link_here s with
  | Some u => Some u
  | None =>
      match s with
      | [] => None
      | _ :: s' => first_link s'
      end
  end.

(** The portfolio as line 117-122 mean it: the first link of the text
    without the white space around it, unless it holds "@", "linkedin" or
    "github". *)
Definition stated_portfolio (text : pystr) : pystr :=
  match first_link text with
  | Some u =>
      let candidate := strip u in
      if contains (py "@") candidate || contains (py "linkedin") candidate ||
         contains (py "github") candidate
      then [] else candidate
  | None => []
  end.

(** [sep.join(ls)] *)
Fixpoint join_with (sep : pystr) (ls : list pystr) : pystr :=
  match ls with
  | [] => []
  | l :: ls' =>
      match ls' with
      | [] => l
      | _ => l ++ sep ++ join_with sep ls'
      end
  end.

(** A string that neither starts nor ends with white space, and is not
    empty. *)
Definition trimmed (s : pystr) : Prop :=
  exists c d, head s = Some c /\ last s = Some d /\
              is_space c = false /\ is_space d = false.

(** A line that [extract_summary] may gather. *)
Definition summary_line (text l : pystr) : Prop :=
  10 < len l /\ trimmed l /\
  (exists line, line ∈ split_on nl text /\ l = strip line) /\
  any_in summary_headers (lower l) = false /\
  any_in summary_stops (lower l) = false.

(** The first separator of [s] (one of the characters of [sep_cls]): the
    text before it, the separator, and the text after it. *)
Fixpoint cut_at_sep (s : pystr) : option (pystr * N * pystr) :=
  match s with
  | [] => None
  | x :: s' =>
      if sep_cls x then Some ([], x, s')
      else match cut_at_sep s' with
           | Some (pre, c, post) => Some (x :: pre, c, post)
           | None => None
           end
  end.

(** The text up to the next separator, all of it when there is none. *)
Definition up_to_next_sep (s : pystr) : pystr :=
  match cut_at_sep s with
  | Some (mid, _, _) => mid
  | None => s
  end.

(** What a work entry holds of the text: responsibilities of more than ten
    characters that stand in the text, and a duration that is empty or
    stands in the text. *)
Definition job_from (text : pystr) (d : gmap string pyval) : Prop :=
  (exists l, d !! "responsibilities" = Some (VList l) /\
             Forall (fun r => 10 < len r /\ substring r text) l) /\
  (exists dur, d !! "duration" = Some (VStr dur) /\ empty_or_in text dur).

(** No line is both a header of the section and a line that closes an
    entry: [headers] are the words of the header test, [closers] the words
    looked for in the line that follows. *)
Definition no_header_closes (headers closers : list pystr) (lines : list pystr)
    : Prop :=
  forall line, line ∈ lines ->
    any_in headers (lower (strip line)) = true ->
    any_in closers (lower line) = false.

(** [l] is a line of the text with the white space around it removed. *)
Definition trimmed_line_of (text l : pystr) : Prop :=
  exists line, line ∈ split_on nl text /\ l = strip line.

(** A year of four digits that starts with "19" or "20". *)
Definition full_year (y : pystr) : Prop :=
  exists w d1 d2,
    y = w ++ [d1; d2] /\ w ∈ [py "19"; py "20"] /\
    is_digit d1 = true /\ is_digit d2 = true.

(** A digit, a point, and one or two digits. *)
Definition gpa_shape (g : pystr) : Prop :=
  exists d f,
    g = d :: ch "." :: f /\ is_digit d = true /\
    forallb is_digit f = true /\ 1 <= length f <= 2.

(** What an education entry holds: no major and no start date; a degree
    that is empty or a line with a degree word and no school word; a school
    that is empty or a line with a school word; an end date that is empty
    or a full year and "-01"; a GPA that is empty or of the shape above. *)
Definition edu_from (text : pystr) (d : gmap string pystr) : Prop :=
  d !! "major" = Some [] /\ d !! "start_date" = Some [] /\
  (exists deg, d !! "degree" = Some deg /\
     (deg = [] \/
      (trimmed_line_of text deg /\
       any_in degree_words (lower deg) = true /\
       any_in school_words (lower deg) = false))) /\
  (exists school, d !! "school_name" = Some school /\
     (school = [] \/
      (trimmed_line_of text school /\
       any_in school_words (lower school) = true))) /\
  (exists ed, d !! "end_date" = Some ed /\
     (ed = [] \/ exists y, ed = y ++ py "-01" /\ full_year y)) /\
  (exists g, d !! "gpa" = Some g /\ (g = [] \/ gpa_shape g)).

(** What a project entry holds: a title that is a line of six to
    ninety-nine characters; no role and no duration; a description that is
    empty or a line of more than twenty characters; technologies among
    [tech_keywords], and none while the description is empty. *)
Definition project_from (text : pystr) (d : gmap string pyval) : Prop :=
  (exists t, d !! "title" = Some (VStr t) /\
             trimmed_line_of text t /\ 5 < len t < 100) /\
  d !! "role" = Some (VStr []) /\ d !! "duration" = Some (VStr []) /\
  (exists descr l,
     d !! "description" = Some (VStr descr) /\
     d !! "technologies" = Some (VList l) /\
     (descr = [] \/ (trimmed_line_of text descr /\ 20 < len descr)) /\
     Forall (fun t => t ∈ tech_keywords) l /\
     (descr = [] -> l = [])).

(** The header test of lines 430-438 on a lowered line. *)
Definition additional_header (low : pystr) : bool :=
  startswith (py "certificat") low || startswith (py "language") low ||
  startswith (py "award") low || contains (py "honor") low.

(** An item of the additional lists: a line of more than two characters
    that is no header. *)
Definition additional_item (text x : pystr) : Prop :=
  trimmed_line_of text x /\ 2 < len x /\
  additional_header (lower x) = false.

(** ** The endpoint [analyze_resume] (lines 509-592)

    [filename] is the name of the upload and [resume_text] what
    [extract_text_from_pdf] returned for the saved copy (the empty string
    when the extraction failed: the function catches every exception).
    Reading and saving the upload, the call of
    [parse_resume_with_pyresparser], whose result is not used, and the
    printing are outside the model. *)

(** [s.endswith(suffix)] *)
Definition endswith (suffix s : pystr) : bool :=
  startswith (rev suffix) (rev s).

Inductive response :=
  | Success (message : pystr) (data : profile)
  | HTTPException (status_code : Z) (detail : pystr).

Section Endpoint.
Variable list_of_set : list pystr -> list pystr.

(** The last case is the handler of line 576; its detail ends with the text
    of the exception, which the model does not keep. *)
Definition analyze_resume (now : datetime) (filename resume_text : pystr)
    : response :=
  if negb (endswith (py ".pdf") (lower filename)) then
    HTTPException 400 (py "Only PDF files are allowed")
  else if negb (nonempty resume_text) ||
          Nat.ltb (len (strip resume_text)) 50 then
    HTTPException 400 (py "Could not extract meaningful text from PDF")
  else
    match structured_data list_of_set now resume_text with
    | Some data =>
        Success
          (py "Resume analyzed successfully with structured data extraction")
          data
    | None => HTTPException 500 (py "Analysis failed: ")
    end.
End Endpoint.

(** ** The texts of a pattern *)

(** The texts that a pattern can match, the conditions on what stands
    around them left aside. *)
Fixpoint lang (r : regex) (t : pystr) : Prop :=
  match r with
  | Eps | Bol | Eol | WordB => t = []
  | Cls p => exists x, t = [x] /\ p x = true
  | Seq r1 r2 => exists t1 t2, t = t1 ++ t2 /\ lang r1 t1 /\ lang r2 t2
  | Alt r1 r2 => lang r1 t \/ lang r2 t
  | Star p => forallb p t = true
  | Grp _ r' => lang r' t
  end.

(** The length of the longest text of a pattern without repetition. *)
Fixpoint max_len (r : regex) : option nat :=
  match r with
  | Eps | Bol | Eol | WordB => Some 0
  | Cls _ => Some 1
  | Seq r1 r2 =>
      match max_len r1, max_len r2 with
      | Some a, Some b => Some (a + b)
      | _, _ => None
      end
  | Alt r1 r2 =>
      match max_len r1, max_len r2 with
      | Some a, Some b => Some (Nat.max a b)
      | _, _ => None
      end
  | Star _ => None
  | Grp _ r' => max_len r'
  end.

(** The number of digits of a string. *)
Definition digits_in (s : pystr) : nat :=
  length (filter (fun c => is_digit c = true) s).

(** Every text of [r] has at least [n] digits. *)
Definition digits_ge (n : nat) (r : regex) : Prop :=
  forall t, lang r t -> n <= digits_in t.

(** * Properties *)

(** ** The matcher *)

(** Whatever a pattern matches, the result is the continuation's. *)
Lemma m_star_inv {A} p (k : cursor -> option A) b s a :
  m_star p k b s = Some a -> exists c', k c' = Some a.
Proof.
  revert b. induction s as [|x s IH]; intros b; simpl.
  - eauto.
  - destruct (p x); [|eauto].
    destruct (m_star p k (Some x) s) eqn:E.
    + intros [= ->]. eauto.
    + eauto.
Qed.

Lemma m_inv {A} r : forall (k : cursor -> caps -> option A) c g a,
  m r k c g = Some a -> exists c' g', k c' g' = Some a.
Proof.
  induction r; intros k c g a; simpl.
  - eauto.
  - destruct (ahead c) as [|x s]; [done|]. destruct (p x); [eauto|done].
  - intros H. apply IHr1 in H as (c1 & g1 & H). eauto.
  - destruct (m r1 k c g) eqn:E.
    + intros [= ->]. eauto.
    + eauto.
  - intros H. apply m_star_inv in H as (c' & H). eauto.
  - intros H. apply IHr in H as (c' & g' & H). eauto.
  - destruct (before c); [done|eauto].
  - destruct (at_eol c); [eauto|done].
  - destruct (at_boundary c); [eauto|done].
Qed.

(** A pattern without groups leaves the captures as they are. *)
Lemma m_no_group {A} r : forall (k : cursor -> caps -> option A) c g a,
  no_group r = true ->
  m r k c g = Some a -> exists c', k c' g = Some a.
Proof.
  induction r; intros k c g a Hn; simpl in *; try done.
  - eauto.
  - destruct (ahead c) as [|x s]; [done|]. destruct (p x); [eauto|done].
  - apply andb_true_iff in Hn as [H1 H2].
    intros H. apply IHr1 in H as (c1 & H); [|done]. eauto.
  - apply andb_true_iff in Hn as [H1 H2].
    destruct (m r1 k c g) eqn:E.
    + intros [= ->]. eauto.
    + eauto.
  - intros H. apply m_star_inv in H as (c' & H). eauto.
  - destruct (before c); [done|eauto].
  - destruct (at_eol c); [eauto|done].
  - destruct (at_boundary c); [eauto|done].
Qed.

(** A literal text is matched exactly when the input starts with it. *)
Lemma m_lits {A} w : forall (k : cursor -> caps -> option A) b s g,
  m (lits w) k (Cursor b s) g =
  if startswith w s
  then k (Cursor (last (from_option (fun x => [x]) [] b ++ w))
                 (drop (length w) s)) g
  else None.
Proof.
  induction w as [|x w IH]; intros k b s g; simpl.
  - destruct s, b; done.
  - destruct s as [|y s]; [done|]. simpl.
    rewrite (N.eqb_sym x y). destruct (N.eqb_spec y x) as [->|]; [|done].
    simpl. unfold lits in IH. rewrite IH.
    destruct (startswith w s); [|done].
    f_equal. f_equal. destruct b; simpl; by rewrite ?last_cons_cons.
Qed.

Lemma startswith_spec w s :
  startswith w s = true <-> exists rest, s = w ++ rest.
Proof.
  revert s. induction w as [|x w IH]; intros s; simpl.
  - split; eauto.
  - destruct s as [|y s].
    + split; [done|]. by intros [? ?].
    + rewrite andb_true_iff, IH, N.eqb_eq. split.
      * intros [-> [rest ->]]. eauto.
      * intros [rest [= -> ->]]. eauto.
Qed.

Lemma search_at_inv r : forall s b i mt,
  search_at r b s i = Some mt ->
  exists b' s' i', match_here r i' (Cursor b' s') = Some mt.
Proof.
  induction s as [|x s IH]; intros b i mt; simpl.
  - destruct (match_here r i (Cursor b [])) eqn:E; [|done].
    intros [= ->]. eauto.
  - destruct (match_here r i (Cursor b (x :: s))) eqn:E.
    + intros [= ->]. eauto.
    + apply IH.
Qed.

Lemma scan_inv r : forall s b skip gap ms tl gm,
  scan r b s skip gap = (ms, tl) -> gm ∈ ms ->
  exists b' s', match_here r 0 (Cursor b' s') = Some gm.2.
Proof.
  induction s as [|x s IH]; intros b skip gap ms tl gm; simpl.
  - destruct skip.
    + destruct (match_here r 0 (Cursor b [])) eqn:E.
      * intros [= <- <-]. intros ->%list_elem_of_singleton. eauto.
      * intros [= <- <-]. by intros ?%elem_of_nil.
    + intros [= <- <-]. by intros ?%elem_of_nil.
  - destruct skip.
    + destruct (match_here r 0 (Cursor b (x :: s))) eqn:E.
      * destruct (length (m_text r0)).
        -- destruct (scan r (Some x) s 0 [x]) eqn:E2.
           intros [= <- <-]. intros [->|Hin]%elem_of_cons; eauto.
        -- destruct (scan r (Some x) s n []) eqn:E2.
           intros [= <- <-]. intros [->|Hin]%elem_of_cons; eauto.
      * apply IH.
    + apply IH.
Qed.

Lemma consumed_app b b' w rest :
  consumed (Cursor b (w ++ rest)) (Cursor b' rest) = w.
Proof.
  unfold consumed. simpl. rewrite length_app.
  replace (length w + length rest - length rest) with (length w) by lia.
  by rewrite take_app_length.
Qed.

Lemma m_alt_inv {A} r1 r2 (k : cursor -> caps -> option A) c g a :
  m (Alt r1 r2) k c g = Some a ->
  m r1 k c g = Some a \/ m r2 k c g = Some a.
Proof. simpl. destruct (m r1 k c g); [intros [= ->]|]; eauto. Qed.

Lemma m_lits_inv {A} w (k : cursor -> caps -> option A) b s g a :
  m (lits w) k (Cursor b s) g = Some a ->
  exists rest b', s = w ++ rest /\ k (Cursor b' rest) g = Some a.
Proof.
  rewrite m_lits. destruct (startswith w s) eqn:E; [|done].
  apply startswith_spec in E as [rest ->].
  rewrite drop_app_length. eauto.
Qed.

Lemma no_group_lits w : no_group (lits w) = true.
Proof. induction w; [done|]. simpl. done. Qed.

Lemma no_group_Rep n p : no_group (Rep n p) = true.
Proof. induction n; [done|]. simpl. done. Qed.

(** Group 1 of [(19|20)\d{2}|Present|Current] is "19" or "20", or took no
    part. *)
Lemma years_re_group i c mt :
  match_here years_re i c = Some mt ->
  default [] (group 1 mt) ∈ [py "19"; py "20"; []].
Proof.
  destruct c as [b s]. unfold match_here, years_re.
  set (k0 := fun c' g => Some (RMatch i (consumed (Cursor b s) c') g c')).
  assert (Hplain : forall r, no_group r = true ->
            m r k0 (Cursor b s) [] = Some mt -> group 1 mt = None).
  { intros r Hr H. apply m_no_group in H as (c' & H); [|done].
    unfold k0 in H. by injection H as <-. }
  assert (Hyear : forall w,
            m (lits w)
              (fun c' g' => m (Rep 2 is_digit) k0 c'
                              ((1, consumed (Cursor b s) c') :: g'))
              (Cursor b s) [] = Some mt ->
            default [] (group 1 mt) = w).
  { intros w H. apply m_lits_inv in H as (rest & b' & -> & H).
    apply m_no_group in H as (c' & H); [|apply no_group_Rep].
    unfold k0 in H. injection H as <-. unfold group. simpl.
    by rewrite consumed_app. }
  intros [H|H]%m_alt_inv.
  - unfold year_re in H. cbn [m] in H.
    change (m (Alt (lits (py "19")) (lits (py "20")))
              (fun c' g' => m (Rep 2 is_digit) k0 c'
                              ((1, consumed (Cursor b s) c') :: g'))
              (Cursor b s) [] = Some mt) in H.
    apply m_alt_inv in H as [H|H]; apply Hyear in H; rewrite H; set_solver.
  - apply m_alt_inv in H as [H|H]; apply Hplain in H;
      try apply no_group_lits; rewrite H; set_solver.
Qed.

Lemma findall_years s d :
  d ∈ re_findall1 years_re s -> d ∈ [py "19"; py "20"; []].
Proof.
  unfold re_findall1, finditer.
  destruct (scan years_re None s 0 []) as [ms tl] eqn:E. simpl.
  intros (gm & -> & Hin)%list_elem_of_fmap.
  destruct (scan_inv _ _ _ _ _ _ _ _ E Hin) as (b' & s' & H).
  by apply years_re_group in H.
Qed.

Lemma m_seq {A} r1 r2 (k : cursor -> caps -> option A) c g :
  m (Seq r1 r2) k c g = m r1 (m r2 k) c g.
Proof. done. Qed.

Lemma m_grp {A} n r (k : cursor -> caps -> option A) c g :
  m (Grp n r) k c g =
  m r (fun c' g' => k c' ((n, consumed c c') :: g')) c g.
Proof. done. Qed.

(** Every match of the URL pattern and of the GPA pattern has its group 1. *)
Lemma portfolio_re_group s mt :
  re_search portfolio_re s = Some mt -> is_Some (group 1 mt).
Proof.
  intros (b & s' & i & H)%search_at_inv.
  unfold match_here, portfolio_re in H. rewrite m_grp in H.
  apply m_inv in H as (c1 & g1 & H).
  injection H as <-. unfold group. simpl. eauto.
Qed.

Lemma gpa_re_group s mt :
  re_search gpa_re s = Some mt -> is_Some (group 1 mt).
Proof.
  intros (b & s' & i & H)%search_at_inv.
  unfold match_here, gpa_re, seqs in H. cbn [foldr] in H.
  do 4 (rewrite m_seq in H; apply m_inv in H as (? & ? & H)).
  rewrite m_seq, m_grp in H. apply m_inv in H as (? & ? & H).
  injection H as <-. unfold group. simpl. eauto.
Qed.

(** ** Dictionaries keep their keys *)

Lemma the_keys_insert {V} (d : gmap string V) keys k v :
  the_keys d keys -> k ∈ keys -> the_keys (<[k:=v]> d) keys.
Proof.
  unfold the_keys. intros Hd Hk. rewrite dom_insert_L, Hd.
  apply (elem_of_list_to_set (C:=gset string)) in Hk.
  apply set_eq. intros x. rewrite elem_of_union, elem_of_singleton.
  split; [intros [->|]|]; auto.
Qed.

Lemma the_keys_lookup {V} (d : gmap string V) keys k :
  the_keys d keys -> k ∈ keys -> is_Some (d !! k).
Proof.
  unfold the_keys. intros Hd Hk. apply elem_of_dom. rewrite Hd.
  by apply elem_of_list_to_set.
Qed.

Lemma the_keys_init {V} (l : list (string * V)) :
  the_keys (list_to_map l : gmap string V) l.*1.
Proof. unfold the_keys. by rewrite dom_list_to_map_L. Qed.

Ltac in_keys := apply list_elem_of_In; simpl; tauto.
Ltac keys :=
  repeat first
    [ assumption
    | apply the_keys_insert; [|in_keys] ].

Lemma name_loop_keys lines : forall info,
  the_keys info personal_info_keys ->
  exists info', name_loop lines info = Some info' /\
                the_keys info' personal_info_keys.
Proof.
  induction lines as [|line lines IH]; intros info Hk; simpl; [eauto|].
  destruct (name_line (strip line)); [|by apply IH].
  destruct (split_ws (strip line)) as [|t ts] eqn:E; simpl.
  - eexists; split; [done|keys].
  - destruct (Nat.ltb 1 (S (length ts))) eqn:El.
    + destruct (last (t :: ts)) as [x|] eqn:E2.
      * simpl. eexists; split; [done|keys].
      * apply last_None in E2. done.
    + simpl. eexists; split; [done|keys].
Qed.

Lemma set_group0_keys key r text info :
  key ∈ personal_info_keys ->
  the_keys info personal_info_keys ->
  the_keys (set_group0 key r text info) personal_info_keys.
Proof.
  intros Hk H. unfold set_group0. destruct (re_search r text); [|done].
  by apply the_keys_insert.
Qed.

Lemma phone_loop_keys ps text info :
  the_keys info personal_info_keys ->
  the_keys (phone_loop ps text info) personal_info_keys.
Proof.
  intros H. induction ps as [|p ps IH]; simpl; [done|].
  destruct (re_search p text); [keys|done].
Qed.

Lemma portfolio_step_keys text info :
  the_keys info personal_info_keys ->
  exists info', portfolio_step text info = Some info' /\
                the_keys info' personal_info_keys.
Proof.
  intros H. unfold portfolio_step.
  destruct (re_search portfolio_re text) as [mt|] eqn:E; [|eauto].
  destruct (portfolio_re_group _ _ E) as [g ->]. simpl.
  match goal with |- context [if ?b then _ else _] => destruct b end;
    eexists; (split; [done|keys]).
Qed.

Lemma address_loop_keys lines info :
  the_keys info personal_info_keys ->
  the_keys (address_loop lines info) personal_info_keys.
Proof.
  intros H. induction lines as [|l ls IH]; simpl; [done|].
  match goal with |- context [if ?b then _ else _] => destruct b end;
    [unfold set_location; keys|done].
Qed.

Lemma comma_loop_keys lines info :
  the_keys info personal_info_keys ->
  the_keys (comma_loop lines info) personal_info_keys.
Proof.
  intros H. induction lines as [|l ls IH]; simpl; [done|].
  match goal with |- context [if ?b then _ else _] => destruct b end;
    [unfold set_location; keys|done].
Qed.

Lemma extract_personal_info_keys text :
  exists info, extract_personal_info text = Some info /\
               the_keys info personal_info_keys.
Proof.
  unfold extract_personal_info.
  destruct (name_loop_keys (take 10 (split_on nl text)) personal_info_init
              (the_keys_init _)) as (info1 & -> & H1).
  cbn [mbind option_bind].
  set (info2 := set_group0 "github" _ _ _).
  assert (H2 : the_keys info2 personal_info_keys).
  { unfold info2. repeat first
      [ apply set_group0_keys; [in_keys|]
      | apply phone_loop_keys | assumption ]. }
  destruct (portfolio_step_keys text info2 H2) as (info3 & -> & H3).
  cbn [mbind option_bind].
  set (info4 := address_loop _ info3).
  assert (H4 : the_keys info4 personal_info_keys)
    by by apply address_loop_keys.
  destruct (the_keys_lookup info4 _ "location" H4 ltac:(in_keys))
    as [loc ->].
  cbn [mbind option_bind].
  destruct (negb (nonempty loc)); eexists; (split; [done|]);
    [by apply comma_loop_keys|done].
Qed.

Lemma dict_truthy_false {V} (d : gmap string V) :
  dict_truthy d = false -> d = ∅.
Proof.
  unfold dict_truthy. intros H%negb_false_iff. by apply bool_decide_eq_true in H.
Qed.

Lemma dict_truthy_true {V} (d : gmap string V) :
  dict_truthy d = true -> d <> ∅.
Proof.
  unfold dict_truthy. intros H%negb_true_iff. by apply bool_decide_eq_false in H.
Qed.

Lemma new_job_ok company title_ : job_ok (new_job company title_).
Proof.
  unfold job_ok, new_job. split; [apply (the_keys_init (V:=pyval))|].
  repeat split; eexists; (try split); try reflexivity; set_solver.
Qed.

Lemma lookup_ge_is_Some {A} (l : list A) i :
  i < length l -> is_Some (l !! i).
Proof. apply lookup_lt_is_Some_2. Qed.

Lemma split_title_ok line cur :
  cur = ∅ \/ job_ok cur ->
  exists cur', split_title line cur = Some cur' /\ (cur' = ∅ \/ job_ok cur').
Proof.
  intros Hc. unfold split_title.
  destruct (found (re_search at_re line)).
  - destruct (Nat.leb 2 (length (re_split at_re line))) eqn:E; [|eauto].
    apply Nat.leb_le in E.
    destruct (lookup_ge_is_Some (re_split at_re line) 0) as [p0 ->]; [lia|].
    destruct (lookup_ge_is_Some (re_split at_re line) 1) as [p1 ->]; [lia|].
    cbn [mbind option_bind]. eexists; split; [done|right; apply new_job_ok].
  - destruct (Nat.leb 2 (length (re_split sep_re line))) eqn:E; [|eauto].
    apply Nat.leb_le in E.
    destruct (lookup_ge_is_Some (re_split sep_re line) 0) as [p0 ->]; [lia|].
    destruct (lookup_ge_is_Some (re_split sep_re line) 1) as [p1 ->]; [lia|].
    cbn [mbind option_bind]. eexists; split; [done|right; apply new_job_ok].
Qed.

Lemma short_date_of d :
  d ∈ [py "19"; py "20"; []] ->
  is_present d = false /\ d ++ py "-01" ∈ short_dates.
Proof.
  intros H. repeat (apply elem_of_cons in H as [->|H]);
    [| | |by apply elem_of_nil in H];
    (split; [by vm_compute|]); unfold short_dates; set_solver.
Qed.

Lemma job_ok_set_start d sd :
  job_ok d -> sd ∈ short_dates -> job_ok (<["start_date" := VStr sd]> d).
Proof.
  intros (Hk & [l Hl] & _ & [ed He]) Hsd. repeat split.
  - keys.
  - exists l. by rewrite lookup_insert_ne.
  - exists sd. by rewrite lookup_insert_eq.
  - exists ed. by rewrite lookup_insert_ne.
Qed.

Lemma job_ok_set_end d ed :
  job_ok d -> ed ∈ short_dates -> job_ok (<["end_date" := VStr ed]> d).
Proof.
  intros (Hk & [l Hl] & [sd Hs] & _) Hed. repeat split.
  - keys.
  - exists l. by rewrite lookup_insert_ne.
  - exists sd. by rewrite lookup_insert_ne.
  - exists ed. by rewrite lookup_insert_eq.
Qed.

Lemma job_ok_set_duration d s :
  job_ok d -> job_ok (<["duration" := VStr s]> d).
Proof.
  intros (Hk & [l Hl] & [sd Hs] & [ed He]). repeat split.
  - keys.
  - exists l. by rewrite lookup_insert_ne.
  - exists sd. by rewrite lookup_insert_ne.
  - exists ed. by rewrite lookup_insert_ne.
Qed.

Lemma job_ok_set_responsibilities d l :
  job_ok d -> job_ok (<["responsibilities" := VList l]> d).
Proof.
  intros (Hk & _ & [sd Hs] & [ed He]). repeat split.
  - keys.
  - exists l. by rewrite lookup_insert_eq.
  - exists sd. by rewrite lookup_insert_ne.
  - exists ed. by rewrite lookup_insert_ne.
Qed.

Lemma set_dates_ok line cur :
  cur = ∅ \/ job_ok cur ->
  exists cur', set_dates line cur = Some cur' /\ (cur' = ∅ \/ job_ok cur').
Proof.
  intros Hc. unfold set_dates.
  destruct (re_search date_re line) as [mt|]; [|eauto].
  destruct (dict_truthy cur) eqn:Ht; [|eauto].
  apply dict_truthy_true in Ht. destruct Hc as [->|Hc]; [done|].
  set (dates := re_findall1 years_re (m_text mt)).
  assert (Hd : forall i d, dates !! i = Some d -> d ∈ [py "19"; py "20"; []]).
  { intros i d Hi. apply (findall_years (m_text mt)).
    by eapply list_elem_of_lookup_2. }
  assert (H1 : exists cur1,
    (if Nat.leb 1 (length dates)
     then d0 ← dates !! 0;
          Some (<["start_date" :=
                   VStr (if negb (is_present d0) then d0 ++ py "-01"
                         else [])]> cur)
     else Some cur) = Some cur1 /\ job_ok cur1).
  { destruct (Nat.leb 1 (length dates)) eqn:E; [|eauto].
    apply Nat.leb_le in E.
    destruct (lookup_ge_is_Some dates 0) as [d0 H0]; [lia|].
    rewrite H0. cbn [mbind option_bind]. eexists; split; [done|].
    destruct (short_date_of d0 (Hd _ _ H0)) as [-> ?].
    by apply job_ok_set_start. }
  destruct H1 as (cur1 & -> & Hc1). cbn [mbind option_bind].
  assert (H2 : exists cur2,
    (if Nat.leb 2 (length dates)
     then d1 ← dates !! 1;
          Some (<["end_date" :=
                   VStr (if negb (is_present d1) then d1 ++ py "-01"
                         else py "Present")]> cur1)
     else Some cur1) = Some cur2 /\ job_ok cur2).
  { destruct (Nat.leb 2 (length dates)) eqn:E; [|eauto].
    apply Nat.leb_le in E.
    destruct (lookup_ge_is_Some dates 1) as [d1 H1]; [lia|].
    rewrite H1. cbn [mbind option_bind]. eexists; split; [done|].
    destruct (short_date_of d1 (Hd _ _ H1)) as [-> ?].
    by apply job_ok_set_end. }
  destruct H2 as (cur2 & -> & Hc2). cbn [mbind option_bind].
  eexists; split; [done|]. right. by apply job_ok_set_duration.
Qed.

Lemma open_job_ok line cur :
  cur = ∅ \/ job_ok cur ->
  exists cur', open_job line cur = Some cur' /\ (cur' = ∅ \/ job_ok cur').
Proof.
  intros Hc. unfold open_job.
  destruct (split_title_ok line cur Hc) as (cur1 & -> & H1).
  cbn [mbind option_bind]. by apply set_dates_ok.
Qed.

Lemma add_responsibility_ok line cur :
  job_ok cur ->
  exists cur', add_responsibility line cur = Some cur' /\ job_ok cur'.
Proof.
  intros Hc. unfold add_responsibility.
  match goal with |- context [if ?b then _ else _] => destruct b end;
    [|eauto].
  match goal with |- context [if ?b then _ else _] => destruct b end;
    [|eauto].
  destruct Hc as (Hk & [l Hl] & Hrest). rewrite Hl.
  cbn [mbind option_bind as_list]. eexists; split; [done|].
  apply job_ok_set_responsibilities. by split; eauto.
Qed.

Lemma work_loop_ok lines : forall experience cur in_section,
  Forall job_ok experience -> cur = ∅ \/ job_ok cur ->
  exists experience' cur',
    work_loop lines experience cur in_section = Some (experience', cur') /\
    Forall job_ok experience' /\ (cur' = ∅ \/ job_ok cur').
Proof.
  induction lines as [|line rest IH]; intros experience cur ins He Hc;
    cbn [work_loop]; [eauto|].
  destruct (negb (nonempty (strip line))); [by apply IH|].
  destruct (any_in experience_headers (lower (strip line))); [by apply IH|].
  destruct ins; [|by apply IH].
  destruct (any_in experience_stops (lower (strip line))); [eauto|].
  destruct (negb (dict_truthy cur) && Nat.ltb 5 (len (strip line))).
  { destruct (open_job_ok (strip line) cur Hc) as (cur' & -> & Hc').
    cbn [mbind option_bind]. by apply IH. }
  destruct (dict_truthy cur) eqn:Ht; [|by apply IH].
  apply dict_truthy_true in Ht. destruct Hc as [->|Hc]; [done|].
  destruct (add_responsibility_ok (strip line) cur Hc) as (cur' & -> & Hc').
  cbn [mbind option_bind].
  destruct rest as [|next rest']; [apply IH; auto|].
  destruct (any_in [py "education"; py "skills"] (lower next)).
  - apply IH; [|by left]. apply Forall_app. split; [done|]. by constructor.
  - apply IH; auto.
Qed.

Lemma extract_work_experience_ok text :
  exists jobs, extract_work_experience text = Some jobs /\ Forall job_ok jobs.
Proof.
  unfold extract_work_experience.
  destruct (work_loop_ok (split_on nl text) [] ∅ false)
    as (ex & cur & -> & He & Hc); [constructor|by left|].
  cbn [mbind option_bind].
  destruct (dict_truthy cur) eqn:Ht; [|eauto].
  apply dict_truthy_true in Ht. destruct Hc as [->|Hc]; [done|].
  eexists; split; [done|]. apply Forall_app. split; [done|]. by constructor.
Qed.

Lemma open_edu_ok line cur :
  cur = ∅ \/ the_keys cur edu_keys ->
  exists cur', open_edu line cur = Some cur' /\
               (cur' = ∅ \/ the_keys cur' edu_keys).
Proof.
  intros Hc. unfold open_edu.
  destruct (any_in degree_words (lower line)); [|eauto].
  pose proof (the_keys_init (V:=pystr)
    [("degree", []); ("major", []); ("school_name", []); ("start_date", []);
     ("end_date", []); ("gpa", [])]%string) as H0.
  change (the_keys new_edu edu_keys) in H0.
  set (e1 := if any_in school_words (lower line)
             then <["school_name" := line]> new_edu
             else <["degree" := line]> new_edu).
  assert (H1 : the_keys e1 edu_keys).
  { unfold e1. destruct (any_in school_words (lower line)); keys. }
  set (e2 := match re_search year_re line with
             | Some year_match =>
                 <["end_date" := m_text year_match ++ py "-01"]> e1
             | None => e1
             end).
  assert (H2 : the_keys e2 edu_keys).
  { unfold e2. destruct (re_search year_re line); keys. }
  destruct (re_search gpa_re line) as [mt|] eqn:E; [|eauto].
  destruct (gpa_re_group _ _ E) as [g ->]. cbn [mbind option_bind].
  eexists; split; [done|]. right. keys.
Qed.

Lemma edu_loop_ok lines : forall education cur in_section,
  Forall (fun d => the_keys d edu_keys) education ->
  cur = ∅ \/ the_keys cur edu_keys ->
  exists education' cur',
    edu_loop lines education cur in_section = Some (education', cur') /\
    Forall (fun d => the_keys d edu_keys) education' /\
    (cur' = ∅ \/ the_keys cur' edu_keys).
Proof.
  induction lines as [|line rest IH]; intros education cur ins He Hc;
    cbn [edu_loop]; [eauto|].
  destruct (negb (nonempty (strip line))); [by apply IH|].
  destruct (any_in education_headers (lower (strip line))); [by apply IH|].
  destruct ins; [|by apply IH].
  destruct (any_in education_stops (lower (strip line))); [eauto|].
  destruct (negb (dict_truthy cur) && Nat.ltb 5 (len (strip line))).
  { destruct (open_edu_ok (strip line) cur Hc) as (cur' & -> & Hc').
    cbn [mbind option_bind]. by apply IH. }
  destruct (dict_truthy cur) eqn:Ht; [|by apply IH].
  apply dict_truthy_true in Ht. destruct Hc as [->|Hc]; [done|].
  destruct (the_keys_lookup cur _ "school_name" Hc ltac:(in_keys))
    as [school ->].
  cbn [mbind option_bind].
  set (cur' := if negb (nonempty school) &&
                  any_in school_words (lower (strip line))
               then <["school_name" := strip line]> cur else cur).
  assert (Hc' : the_keys cur' edu_keys).
  { unfold cur'. match goal with |- context [if ?b then _ else _] =>
      destruct b end; keys. }
  destruct rest as [|next rest']; [apply IH; auto|].
  match goal with |- context [if ?b then _ else _] => destruct b end.
  - apply IH; [|by left]. apply Forall_app. split; [done|]. by constructor.
  - apply IH; auto.
Qed.

Lemma extract_education_ok text :
  exists edus, extract_education text = Some edus /\
               Forall (fun d => the_keys d edu_keys) edus.
Proof.
  unfold extract_education.
  destruct (edu_loop_ok (split_on nl text) [] ∅ false)
    as (ex & cur & -> & He & Hc); [constructor|by left|].
  cbn [mbind option_bind].
  destruct (dict_truthy cur) eqn:Ht; [|eauto].
  apply dict_truthy_true in Ht. destruct Hc as [->|Hc]; [done|].
  eexists; split; [done|]. apply Forall_app. split; [done|]. by constructor.
Qed.

Lemma new_project_ok t : project_ok (new_project t).
Proof.
  split; [apply (the_keys_init (V:=pyval))|]. by eexists.
Qed.

Lemma describe_project_ok line cur :
  project_ok cur ->
  exists cur', describe_project line cur = Some cur' /\ project_ok cur'.
Proof.
  intros [Hk [l Hl]]. unfold describe_project.
  destruct (Nat.ltb 20 (len line));
    [|eexists; split; [done|split; eauto]].
  destruct (the_keys_lookup cur _ "description" Hk ltac:(in_keys))
    as [descr ->].
  cbn [mbind option_bind].
  destruct (negb (truthy descr)).
  - eexists; split; [done|]. split; [keys|].
    exists l. by rewrite lookup_insert_ne.
  - rewrite Hl. cbn [mbind option_bind as_list].
    eexists; split; [done|]. split; [keys|].
    eexists. by rewrite lookup_insert_eq.
Qed.

Lemma project_loop_ok lines : forall projects cur in_section,
  Forall project_ok projects -> cur = ∅ \/ project_ok cur ->
  exists projects' cur',
    project_loop lines projects cur in_section = Some (projects', cur') /\
    Forall project_ok projects' /\ (cur' = ∅ \/ project_ok cur').
Proof.
  induction lines as [|line rest IH]; intros projects cur ins He Hc;
    cbn [project_loop]; [eauto|].
  destruct (negb (nonempty (strip line))); [by apply IH|].
  destruct (any_in project_headers (lower (strip line))); [by apply IH|].
  destruct ins; [|by apply IH].
  destruct (any_in project_stops (lower (strip line))); [eauto|].
  match goal with |- context [if ?b then _ else _] => destruct b end.
  { apply IH; [done|]. right. apply new_project_ok. }
  destruct (dict_truthy cur) eqn:Ht; [|by apply IH].
  apply dict_truthy_true in Ht. destruct Hc as [->|Hc]; [done|].
  destruct (describe_project_ok (strip line) cur Hc) as (cur' & -> & Hc').
  cbn [mbind option_bind].
  destruct rest as [|next rest']; [apply IH; auto|].
  match goal with |- context [if ?b then _ else _] => destruct b end.
  - apply IH; [|by left]. apply Forall_app. split; [done|]. by constructor.
  - apply IH; auto.
Qed.

Lemma extract_projects_ok text :
  exists ps, extract_projects text = Some ps /\ Forall project_ok ps.
Proof.
  unfold extract_projects.
  destruct (project_loop_ok (split_on nl text) [] ∅ false)
    as (ex & cur & -> & He & Hc); [constructor|by left|].
  cbn [mbind option_bind].
  destruct (dict_truthy cur) eqn:Ht; [|eauto].
  apply dict_truthy_true in Ht. destruct Hc as [->|Hc]; [done|].
  eexists; split; [done|]. apply Forall_app. split; [done|]. by constructor.
Qed.

Lemma append_to_ok key x info keys :
  the_keys info keys -> key ∈ keys ->
  exists info', append_to key x info = Some info' /\ the_keys info' keys.
Proof.
  intros Hk Hin. unfold append_to.
  destruct (the_keys_lookup info _ key Hk Hin) as [l ->].
  cbn [mbind option_bind]. eexists; split; [done|].
  by apply the_keys_insert.
Qed.

Lemma additional_loop_ok lines : forall section_ info,
  the_keys info additional_info_keys ->
  exists info', additional_loop lines section_ info = Some info' /\
                the_keys info' additional_info_keys.
Proof.
  induction lines as [|line rest IH]; intros sec info Hk;
    cbn [additional_loop]; [eauto|].
  destruct (negb (nonempty (strip line))); [by apply IH|].
  cbv zeta.
  repeat (match goal with |- context [if ?b then _ else _] =>
            destruct b end; [by apply IH|]).
  match goal with |- context [if ?b then _ else _] => destruct b end;
    [|by apply IH].
  assert (H : exists info1,
    (if String.eqb sec "certifications"
     then append_to "certifications" (strip line) info
     else if String.eqb sec "languages"
     then append_to "languages" (strip line) info
     else if String.eqb sec "awards"
     then append_to "awards" (strip line) info
     else Some info) = Some info1 /\ the_keys info1 additional_info_keys).
  { repeat (match goal with |- context [if ?b then _ else _] =>
              destruct b end; [apply append_to_ok; [done|in_keys]|]).
    eauto. }
  destruct H as (info1 & -> & H1). cbn [mbind option_bind]. by apply IH.
Qed.

Lemma extract_additional_info_ok text :
  exists info, extract_additional_info text = Some info /\
               the_keys info additional_info_keys.
Proof.
  apply additional_loop_ok. apply (the_keys_init (V:=list pystr)).
Qed.

(** ** Searching a word *)

Lemma prev_of_cons b x pre : prev_of b (x :: pre) = prev_of (Some x) pre.
Proof.
  unfold prev_of. rewrite last_cons. by destruct (last pre).
Qed.







(** ** [extract_skills] in closed form *)

Lemma keyword_loop_eq category text keywords : forall skills l,
  skills !! category = Some l ->
  keyword_loop category keywords text skills =
  Some (<[category := l ++ matched_titles text keywords]> skills).
Proof.
  unfold matched_titles.
  induction keywords as [|kw kws IH]; intros skills l Hl; cbn [keyword_loop].
  - simpl. rewrite app_nil_r. by rewrite insert_id.
  - rewrite filter_cons.
    destruct (found (re_search (skill_re kw) text)) eqn:E.
    + rewrite Hl. cbn [mbind option_bind].
      rewrite (IH _ (l ++ [title kw])) by apply lookup_insert_eq.
      rewrite insert_insert_eq. rewrite decide_True by done.
      simpl. by rewrite <- app_assoc.
    + rewrite decide_False by congruence. by apply IH.
Qed.

Lemma category_loop_eq text categories : forall skills,
  NoDup categories.*1 ->
  (forall c, c ∈ categories.*1 -> skills !! c = Some []) ->
  category_loop categories text skills =
  Some (list_to_map
          (map (fun ck => (ck.1, matched_titles text ck.2)) categories)
        ∪ skills).
Proof.
  induction categories as [|[c kws] cats IH]; intros skills Hnd Hin;
    cbn [category_loop].
  - simpl. by rewrite (left_id_L ∅ (∪)).
  - simpl in Hnd. apply NoDup_cons in Hnd as [Hc Hnd].
    rewrite (keyword_loop_eq c text kws skills [])
      by (apply Hin; apply elem_of_cons; by left).
    cbn [mbind option_bind]. rewrite IH; [|done|].
    + f_equal. simpl. rewrite <- insert_union_l.
      rewrite insert_union_r; [done|].
      apply not_elem_of_list_to_map. rewrite <- list_fmap_compose.
      by rewrite (list_fmap_ext _ fst cats) by by intros ? [] ?.
    + intros c' Hc'.
      rewrite lookup_insert_ne; [apply Hin; apply elem_of_cons; by right|].
      intros ->. done.
Qed.

Lemma extract_skills_lookup los text category keywords :
  (category, keywords) ∈ skill_categories ->
  exists skills,
    extract_skills los text = Some skills /\
    the_keys skills skill_keys /\
    skills !! category = Some (los (matched_titles (lower text) keywords)).
Proof.
  intros Hin. unfold extract_skills.
  rewrite category_loop_eq.
  - eexists; split; [done|]. split.
    + unfold the_keys. rewrite dom_fmap_L, dom_union_L.
      rewrite dom_list_to_map_L. unfold skills_init.
      rewrite dom_list_to_map_L. by vm_compute.
    + rewrite lookup_fmap, lookup_union_l'.
      * erewrite (elem_of_list_to_map_1 _ category); [done| |].
        -- rewrite <- list_fmap_compose. by apply (bool_decide_unpack _).
        -- apply (list_elem_of_fmap_2
                    (fun ck => (ck.1, matched_titles (lower text) ck.2)) _ _ Hin).
      * apply elem_of_dom. rewrite dom_list_to_map_L.
        apply elem_of_list_to_set. rewrite <- list_fmap_compose.
        apply (list_elem_of_fmap_2 (fun ck => ck.1) _ _ Hin).
  - by apply (bool_decide_unpack _).
  - intros c Hc. repeat (apply elem_of_cons in Hc as [->|Hc]); try done.
    by apply elem_of_nil in Hc.
Qed.




Lemma is_word_lower c : is_word (lower_char c) = is_word c.
Proof.
  unfold lower_char. destruct (is_upper c) eqn:Hu; [|done].
  unfold is_word, is_alpha. rewrite Hu. simpl.
  unfold is_upper, in_range in Hu.
  apply andb_true_iff in Hu as [H1%N.leb_le H2%N.leb_le].
  assert (is_lower (c + 32) = true) as ->; [|by rewrite orb_true_r].
  unfold is_lower, in_range. apply andb_true_iff.
  split; apply N.leb_le; lia.
Qed.

(** ** The extractors are total and their records complete *)

Lemma job_ok_keys d : job_ok d -> the_keys d job_keys.
Proof. by intros [? _]. Qed.

Lemma project_ok_keys d : project_ok d -> the_keys d project_keys.
Proof. by intros [? _]. Qed.

Lemma extract_skills_keys los text :
  exists skills, extract_skills los text = Some skills /\
                 the_keys skills skill_keys.
Proof.
  destruct (extract_skills_lookup los text "programming"
              [py "python"; py "java"; py "javascript"; py "typescript";
               py "c++"; py "c#"; py "php"; py "ruby"])
    as (skills & H & Hk & _); [apply list_elem_of_In; simpl; tauto|]. eauto.
Qed.

Lemma structured_data_total los now text :
  exists p, structured_data los now text = Some p.
Proof.
  unfold structured_data.
  destruct (extract_personal_info_keys text) as (pi & -> & _).
  destruct (extract_work_experience_ok text) as (we & -> & _).
  destruct (extract_education_ok text) as (ed & -> & _).
  destruct (extract_skills_keys los text) as (sk & -> & _).
  destruct (extract_projects_ok text) as (pr & -> & _).
  destruct (extract_additional_info_ok text) as (ai & -> & Hk).
  cbn [mbind option_bind].
  destruct (the_keys_lookup ai _ "certifications" Hk ltac:(in_keys))
    as [c ->].
  destruct (the_keys_lookup ai _ "languages" Hk ltac:(in_keys)) as [l ->].
  destruct (the_keys_lookup ai _ "awards" Hk ltac:(in_keys)) as [a ->].
  cbn [mbind option_bind]. eauto.
Qed.

(** C2.  For every text, the empty one included, every extractor returns
    (no exception is raised) and its result is complete: the personal
    information has its ten keys, the skills their six categories, every
    work entry its six keys, every education entry its six, every project
    its five, the additional information its three; the summary and the two
    metrics are strings, and the assembly returns a profile.  On the empty
    text the results are the defaults. *)
Theorem extractors_total_and_complete
    (list_of_set : list pystr -> list pystr) (now : datetime) (text : pystr) :
  (exists info, extract_personal_info text = Some info /\
                the_keys info personal_info_keys) /\
  (exists skills, extract_skills list_of_set text = Some skills /\
                  the_keys skills skill_keys) /\
  (exists jobs, extract_work_experience text = Some jobs /\
                Forall (fun d => the_keys d job_keys) jobs) /\
  (exists edus, extract_education text = Some edus /\
                Forall (fun d => the_keys d edu_keys) edus) /\
  (exists projects, extract_projects text = Some projects /\
                    Forall (fun d => the_keys d project_keys) projects) /\
  (exists info, extract_additional_info text = Some info /\
                the_keys info additional_info_keys) /\
  (exists p, structured_data list_of_set now text = Some p) /\
  extract_personal_info [] = Some personal_info_init /\
  extract_summary [] = [] /\
  extract_work_experience [] = Some [] /\
  extract_education [] = Some [] /\
  extract_skills list_of_set [] = Some (list_of_set <$> skills_init) /\
  extract_projects [] = Some [] /\
  extract_additional_info [] = Some additional_info_init.
Proof.
  split; [apply extract_personal_info_keys|].
  split; [apply extract_skills_keys|].
  split.
  { destruct (extract_work_experience_ok text) as (jobs & -> & H).
    eexists; split; [done|]. eapply Forall_impl; [done|apply job_ok_keys]. }
  split; [apply extract_education_ok|].
  split.
  { destruct (extract_projects_ok text) as (ps & -> & H).
    eexists; split; [done|].
    eapply Forall_impl; [done|apply project_ok_keys]. }
  split; [apply extract_additional_info_ok|].
  split; [apply structured_data_total|].
  repeat split; by vm_compute.
Qed.

(** ** The skills *)






Lemma lower_app a b : lower (a ++ b) = lower a ++ lower b.
Proof. apply map_app. Qed.







(** ** The summary *)

Lemma contains_spec n h : contains n h = true <-> substring n h.
Proof.
  unfold substring. induction h as [|x h IH]; simpl.
  - rewrite orb_false_r, startswith_spec. split.
    + intros [rest H]. exists [], rest. done.
    + intros (a & b & H). destruct a; [|done]. eauto.
  - rewrite orb_true_iff, startswith_spec, IH. split.
    + intros [[rest ->]|(a & b & ->)]; [by exists [], rest|].
      by exists (x :: a), b.
    + intros (a & b & H). destruct a as [|y a].
      * left. eauto.
      * right. injection H as -> ->. eauto.
Qed.

Lemma substring_trans a b c : substring a b -> substring b c -> substring a c.
Proof.
  intros (p & q & ->) (p' & q' & ->). exists (p' ++ p), (q ++ q').
  by rewrite <- !app_assoc.
Qed.

Lemma substring_lower a b : substring a b -> substring (lower a) (lower b).
Proof.
  intros (p & q & ->). exists (lower p), (lower q).
  unfold lower. by rewrite !map_app.
Qed.

Lemma lstrip_suffix s : exists p, s = p ++ lstrip s.
Proof.
  induction s as [|x s [p IH]]; simpl; [by exists []|].
  destruct (is_space x); [|by exists []].
  exists (x :: p). simpl. by f_equal.
Qed.

Lemma strip_substring s : substring (strip s) s.
Proof.
  unfold strip, rstrip. destruct (lstrip_suffix s) as [p Hp].
  destruct (lstrip_suffix (rev (lstrip s))) as [q Hq].
  exists p, (rev q). rewrite <- rev_app_distr, <- Hq, rev_involutive.
  done.
Qed.

(** A word without the separator lies on one side of it. *)
Lemma startswith_sep kw a b sep :
  sep ∉ kw -> kw <> [] ->
  startswith kw (a ++ sep :: b) = startswith kw a.
Proof.
  revert a. induction kw as [|x kw IH]; intros a Hs Hne; [done|].
  apply not_elem_of_cons in Hs as [Hx Hs].
  destruct a as [|y a]; simpl.
  - destruct (N.eqb_spec x sep); [congruence|done].
  - destruct (x =? y)%N; [|done]. simpl.
    destruct kw as [|x' kw]; [done|]. by apply IH.
Qed.

Lemma contains_sep kw a b sep :
  sep ∉ kw -> kw <> [] ->
  contains kw (a ++ sep :: b) = contains kw a || contains kw b.
Proof.
  intros Hs Hne. induction a as [|y a IH].
  - simpl. destruct kw as [|x kw]; [done|].
    apply not_elem_of_cons in Hs as [Hx Hs]. simpl.
    by destruct (N.eqb_spec x sep); [congruence|].
  - change ((y :: a) ++ sep :: b) with (y :: (a ++ sep :: b)).
    cbn [contains]. rewrite IH.
    change (y :: (a ++ sep :: b)) with ((y :: a) ++ sep :: b).
    rewrite startswith_sep by done. by rewrite orb_assoc.
Qed.

Lemma any_in_false ks s :
  any_in ks s = false <-> forall k, k ∈ ks -> contains k s = false.
Proof.
  unfold any_in. induction ks as [|k ks IH]; simpl.
  - split; [|done]. by intros _ k ?%elem_of_nil.
  - rewrite orb_false_iff, IH. split.
    + intros [H1 H2] k' [->|Hin]%elem_of_cons; auto.
    + intros H. split; [apply H; left|]. intros k' Hin. apply H. by right.
Qed.

Lemma header_word_plain kw :
  kw ∈ summary_headers -> (ch " " ∉ kw) /\ kw <> [].
Proof.
  intros H. repeat (apply elem_of_cons in H as [->|H]);
    [| | | |by apply elem_of_nil in H];
    (split; [|done]); apply (bool_decide_unpack _); by vm_compute.
Qed.

Lemma contains_before_space kw a b :
  (ch " " ∉ kw) -> kw <> [] ->
  contains kw (lower (a ++ py " " ++ b)) =
  contains kw (lower a) || contains kw (lower b).
Proof.
  intros Hs Hne. rewrite lower_app.
  change (lower (py " " ++ b)) with (ch " " :: lower b).
  by apply contains_sep.
Qed.

Lemma summary_inv_step summary line :
  summary_inv summary ->
  any_in summary_headers (lower line) = false ->
  summary_inv (summary ++ line ++ py " ").
Proof.
  intros [Hc He] Hl. split.
  - rewrite any_in_false in *. intros kw Hk.
    destruct (header_word_plain kw Hk) as [Hsp Hne].
    assert (Hnil : contains kw (lower []) = false) by by destruct kw.
    assert (Hline : contains kw (lower (line ++ py " ")) = false).
    { change (line ++ py " ") with (line ++ py " " ++ []).
      rewrite contains_before_space by done. by rewrite (Hl kw Hk), Hnil. }
    destruct He as [->|[a ->]]; [done|].
    specialize (Hc kw Hk).
    change (a ++ py " ") with (a ++ py " " ++ []) in Hc.
    rewrite contains_before_space in Hc by done.
    apply orb_false_iff in Hc as [Ha _].
    rewrite <- app_assoc. rewrite contains_before_space by done.
    by rewrite Ha, Hline.
  - right. exists (summary ++ line). by rewrite <- app_assoc.
Qed.

Lemma summary_loop_inv lines : forall in_summary summary,
  summary_inv summary ->
  summary_inv (summary_loop lines in_summary summary).
Proof.
  induction lines as [|line rest IH]; intros b s Hs; cbn [summary_loop];
    [done|].
  destruct (any_in summary_headers (lower (strip line))) eqn:Eh;
    [by apply IH|].
  destruct b; [|by apply IH].
  destruct (nonempty (strip line) && Nat.ltb 10 (len (strip line))).
  - destruct (any_in summary_stops (lower (strip line))); [done|].
    apply IH. by apply summary_inv_step.
  - destruct (nonempty s); [done|by apply IH].
Qed.

Lemma extract_summary_clean text kw :
  kw ∈ summary_headers -> contains kw (lower (extract_summary text)) = false.
Proof.
  intros Hk. unfold extract_summary.
  destruct (summary_loop_inv (split_on nl text) false []) as [Hc _].
  { split; [by vm_compute|by left]. }
  rewrite any_in_false in Hc. specialize (Hc kw Hk).
  destruct (contains kw (lower (strip _))) eqn:E; [|done].
  apply contains_spec in E. rewrite <- Hc. symmetry. apply contains_spec.
  eapply substring_trans; [done|]. apply substring_lower, strip_substring.
Qed.

(** C9.  A line in which "summary", "objective", "profile" or "about" occurs
    (in either case) is a header: the loop goes on to the next line with
    [in_summary] set and [summary] as it was, also when lines have already
    been gathered; the summary returned holds none of the four words, so it
    never holds such a line. *)
Theorem summary_skips_header_lines (text line : pystr)
    (in_text : line ∈ split_on nl text)
    (is_header : any_in summary_headers (lower (strip line)) = true) :
  ~ substring (strip line) (extract_summary text) /\
  (forall kw, kw ∈ summary_headers ->
              contains kw (lower (extract_summary text)) = false) /\
  (forall rest in_summary summary,
     summary_loop (line :: rest) in_summary summary =
     summary_loop rest true summary).
Proof.
  split; [|split].
  - intros Hsub. unfold any_in in is_header.
    apply existsb_exists in is_header as (kw & Hin & Hc).
    apply list_elem_of_In in Hin.
    pose proof (extract_summary_clean text kw Hin) as Hclean.
    apply contains_spec in Hc.
    assert (contains kw (lower (extract_summary text)) = true).
    { apply contains_spec. eapply substring_trans; [done|].
      by apply substring_lower. }
    congruence.
  - apply extract_summary_clean.
  - intros rest b s. cbn [summary_loop]. by rewrite is_header.
Qed.

Lemma summary_skips_header_lines_witness :
  let text := text_of_lines
    [py "Summary"; py "Builds reliable data pipelines";
     py "Profile of a careful engineer"; py "Mentors junior developers";
     py ""; py "Experience"] in
  py "Profile of a careful engineer" ∈ split_on nl text /\
  any_in summary_headers (lower (strip (py "Profile of a careful engineer")))
    = true /\
  extract_summary text
    = py "Builds reliable data pipelines Mentors junior developers" /\
  ~ substring (py "Profile of a careful engineer") (extract_summary text).
Proof.
  intros text.
  assert (H1 : py "Profile of a careful engineer" ∈ split_on nl text).
  { apply list_elem_of_In. vm_compute. tauto. }
  assert (H2 : any_in summary_headers
                 (lower (strip (py "Profile of a careful engineer"))) = true)
    by by vm_compute.
  split; [done|]. split; [done|]. split; [by vm_compute|].
  exact (proj1 (summary_skips_header_lines text _ H1 H2)).
Defined.

(** ** The name *)

(** A repetition of a class followed by [$]: the class holds the line feed,
    so the match succeeds exactly when the class holds everything left. *)
Lemma m_star_eol {A} p (f : cursor -> A) : forall s b,
  p nl = true ->
  is_Some (m_star p (fun c' => if at_eol c' then Some (f c') else None) b s)
  <-> forallb p s = true.
Proof.
  intros s b Hnl. revert b.
  induction s as [|x s IH]; intros b; cbn [m_star forallb].
  - simpl. split; eauto.
  - destruct (p x) eqn:Ex; simpl.
    + rewrite <- (IH (Some x)).
      destruct (m_star p _ (Some x) s) eqn:E; [split; eauto|].
      unfold at_eol. simpl. destruct s as [|y s].
      * simpl in E. done.
      * split; intros [? ?]; done.
    + unfold at_eol. simpl. destruct s as [|y s].
      * destruct (N.eqb_spec x nl) as [->|]; [congruence|].
        split; [intros [? ?]|]; done.
      * split; [intros [? ?]|]; done.
Qed.

Lemma name_re_match s :
  found (re_match name_re s) = nonempty s && forallb name_cls s.
Proof.
  unfold re_match, match_here, name_re, seqs, Plus. cbn [foldr].
  rewrite m_seq. cbn [m before ahead].
  destruct s as [|x s]; [done|]. cbn [nonempty forallb andb].
  destruct (name_cls x); [|done]. cbn [andb].
  set (k := fun c' : cursor => _).
  pose proof (m_star_eol name_cls
    (fun c' => RMatch 0 (consumed (Cursor None (x :: s)) c') [] c')
    s (Some x) eq_refl) as H.
  change (m_star name_cls k (Some x) s)
    with (m_star name_cls
            (fun c' => if at_eol c'
                       then Some (RMatch 0 (consumed (Cursor None (x :: s)) c')
                                    [] c')
                       else None) (Some x) s).
  destruct (m_star name_cls _ (Some x) s) eqn:E;
    destruct (forallb name_cls s); try done.
  - destruct H as [H _]. by specialize (H (mk_is_Some _ _ eq_refl)).
  - destruct H as [_ [? H]]; done.
Qed.

Lemma name_line_qualifies l : name_line l = qualifies 3 49 l.
Proof.
  unfold name_line, qualifies. rewrite name_re_match.
  assert (E1 : Nat.ltb 2 (len l) = Nat.leb 3 (len l))
    by (destruct (Nat.ltb_spec 2 (len l)), (Nat.leb_spec 3 (len l));
        (done || lia)).
  assert (E2 : Nat.ltb (len l) 50 = Nat.leb (len l) 49)
    by (destruct (Nat.ltb_spec (len l) 50), (Nat.leb_spec (len l) 49);
        (done || lia)).
  rewrite E1, E2. by destruct l.
Qed.

(** The dictionary after the loop of lines 79-89. *)
Lemma name_loop_eq lines : forall info,
  name_loop lines info =
  Some (match find (qualifies 3 49) (map strip lines) with
        | None => info
        | Some l =>
            let tokens := split_ws l in
            if nonempty tokens then
              <["last_name" := if Nat.ltb 1 (length tokens)
                               then default [] (last tokens) else []]>
                (<["first_name" := default [] (head tokens)]>
                   (<["full_name" := l]> info))
            else <["full_name" := l]> info
        end).
Proof.
  induction lines as [|line lines IH]; intros info; [done|].
  cbn [name_loop map find]. rewrite name_line_qualifies.
  destruct (qualifies 3 49 (strip line)); [|apply IH].
  cbv zeta. destruct (split_ws (strip line)) as [|t ts] eqn:E; [done|].
  cbn [nonempty lookup list_lookup mbind option_bind head default].
  destruct (Nat.ltb 1 (length (t :: ts))); [|done].
  destruct (last (t :: ts)) eqn:El; [done|].
  by apply last_None in El.
Qed.

(** The steps after the name leave the three name fields alone. *)
Ltac name_key :=
  match goal with
  | H : _ ∈ _ |- _ => apply (bool_decide_pack _) in H; by vm_compute in H
  end.

Lemma set_group0_keeps key r text :
  key ∉ ["full_name"; "first_name"; "last_name"]%string ->
  keeps_names (set_group0 key r text).
Proof.
  intros Hk info k Hin. unfold set_group0.
  destruct (re_search r text); [|done].
  apply lookup_insert_ne. by intros ->.
Qed.

Lemma phone_loop_keeps ps text : keeps_names (phone_loop ps text).
Proof.
  intros info k Hin. induction ps as [|p ps IH]; [done|]. simpl.
  destruct (re_search p text); [|done].
  apply lookup_insert_ne. intros <-. name_key.
Qed.

Lemma set_location_keeps line : keeps_names (set_location line).
Proof.
  intros info k Hin. unfold set_location.
  rewrite !lookup_insert_ne; [done| |]; intros <-; name_key.
Qed.

Lemma address_loop_keeps lines : keeps_names (address_loop lines).
Proof.
  intros info k Hin. induction lines as [|l ls IH]; [done|]. simpl.
  match goal with |- context [if ?b then _ else _] => destruct b end;
    [by apply set_location_keeps|done].
Qed.

Lemma comma_loop_keeps lines : keeps_names (comma_loop lines).
Proof.
  intros info k Hin. induction lines as [|l ls IH]; [done|]. simpl.
  match goal with |- context [if ?b then _ else _] => destruct b end;
    [by apply set_location_keeps|done].
Qed.

Lemma portfolio_step_keeps text info info' k :
  portfolio_step text info = Some info' ->
  k ∈ ["full_name"; "first_name"; "last_name"]%string ->
  info' !! k = info !! k.
Proof.
  unfold portfolio_step. intros H Hin.
  destruct (re_search portfolio_re text); [|by injection H as <-].
  destruct (group 1 r); [|done]. cbn [mbind option_bind] in H.
  match type of H with (if ?b then _ else _) = _ => destruct b end;
    injection H as <-; [|done].
  apply lookup_insert_ne. intros <-. name_key.
Qed.

Lemma extract_personal_info_names text info k :
  extract_personal_info text = Some info ->
  k ∈ ["full_name"; "first_name"; "last_name"]%string ->
  exists info1,
    name_loop (take 10 (split_on nl text)) personal_info_init = Some info1 /\
    info !! k = info1 !! k.
Proof.
  unfold extract_personal_info. intros H Hin.
  destruct (name_loop _ personal_info_init) as [info1|]; [|done].
  exists info1. split; [done|]. cbn [mbind option_bind] in H.
  set (info2 := set_group0 "github" _ _ _) in H.
  assert (H2 : info2 !! k = info1 !! k).
  { unfold info2.
    rewrite set_group0_keeps, set_group0_keeps, phone_loop_keeps,
      set_group0_keeps; try done;
      apply (bool_decide_unpack _); by vm_compute. }
  destruct (portfolio_step text info2) as [info3|] eqn:E3; [|done].
  cbn [mbind option_bind] in H.
  pose proof (portfolio_step_keeps _ _ _ k E3 Hin) as H3.
  destruct (address_loop _ info3 !! "location"); [|done].
  cbn [mbind option_bind] in H.
  destruct (negb (nonempty l)); injection H as <-.
  - rewrite comma_loop_keeps, address_loop_keeps by done. congruence.
  - rewrite address_loop_keeps by done. congruence.
Qed.

Lemma name_claim_3_49 (text : pystr) : name_claim 3 49 text.
Proof.
  destruct (extract_personal_info_keys text) as (info & Hinfo & _).
  exists info. split; [done|].
  assert (Hk : forall k, k ∈ ["full_name"; "first_name"; "last_name"]%string ->
    exists info1,
      name_loop (take 10 (split_on nl text)) personal_info_init
        = Some info1 /\ info !! k = info1 !! k)
    by (intros k; by apply extract_personal_info_names).
  destruct (Hk "full_name") as (i1 & E1 & ->);
    [apply list_elem_of_In; simpl; tauto|].
  destruct (Hk "first_name") as (i2 & E2 & ->);
    [apply list_elem_of_In; simpl; tauto|].
  destruct (Hk "last_name") as (i3 & E3 & ->);
    [apply list_elem_of_In; simpl; tauto|].
  rewrite E1 in E2, E3. injection E2 as <-. injection E3 as <-.
  rewrite name_loop_eq in E1. injection E1 as <-.
  unfold first_name_line, name_fields.
  destruct (find (qualifies 3 49) (map strip (take 10 (split_on nl text))))
    as [l|]; [|done].
  cbv zeta. destruct (split_ws l) as [|t ts]; [done|].
  cbn [nonempty].
  rewrite (lookup_insert_ne _ "last_name" "full_name") by done.
  rewrite (lookup_insert_ne _ "first_name" "full_name") by done.
  rewrite (lookup_insert_ne _ "last_name" "first_name") by done.
  by rewrite !lookup_insert_eq.
Qed.

(** C8, as amended.  The full name is the first of the first ten lines
    whose trimmed length is between 3 and 49, that holds none of the excluded
    words in either case, and that is made of letters, white space, periods
    and hyphens only; its first token is the first name and, when it has
    more than one token, its last token the last name, which is empty
    otherwise; when no line qualifies the three fields are empty. *)
Theorem name_is_first_qualifying_line (text : pystr) :
  name_claim 3 49 text /\
  (forall line_clean, name_line line_clean = qualifies 3 49 line_clean) /\
  (first_name_line 3 49 text = None ->
   exists info,
     extract_personal_info text = Some info /\
     info !! "full_name" = Some [] /\ info !! "first_name" = Some [] /\
     info !! "last_name" = Some []).
Proof.
  split; [apply name_claim_3_49|]. split; [apply name_line_qualifies|].
  intros Hnone. destruct (name_claim_3_49 text) as (info & Hinfo & Heq).
  rewrite Hnone in Heq. injection Heq as H1 H2 H3. by exists info.
Qed.

(** C8 as stated fails: a line of two letters is within "2 to 50 characters"
    but is passed over, and the next line gives the name. *)
Lemma name_claim_2_50_fails :
  ~ name_claim 2 50 (text_of_lines [py "Al"; py "Bob Smith"]).
Proof.
  intros (info & H & Heq).
  destruct (name_claim_3_49 (text_of_lines [py "Al"; py "Bob Smith"]))
    as (info' & H' & Heq').
  rewrite H in H'. injection H' as <-. rewrite Heq in Heq'.
  vm_compute in Heq'. discriminate Heq'.
Qed.

Lemma name_of_two_letters :
  first_name_line 2 50 (text_of_lines [py "Al"; py "Bob Smith"])
    = Some (py "Al") /\
  first_name_line 3 49 (text_of_lines [py "Al"; py "Bob Smith"])
    = Some (py "Bob Smith") /\
  (extract_personal_info (text_of_lines [py "Al"; py "Bob Smith"])
     ≫= fun info => info !! "full_name") = Some (py "Bob Smith").
Proof. repeat split; by vm_compute. Qed.

(** ** Splitting a line at the word "at" *)

Lemma lower_char_word x c :
  lower_char x = c -> is_word c = true -> is_word x = true.
Proof. intros <-. by rewrite is_word_lower. Qed.

(** The pattern of the word "at" matches at a position exactly when the
    word stands there, and the match is its two letters. *)
Lemma match_here_at i b s :
  match_here at_re i (Cursor b s) =
  if at_word_here b s
  then Some (RMatch i (take 2 s) [] (Cursor (s !! 1) (drop 2 s)))
  else None.
Proof.
  unfold match_here, at_re, seqs, lits_i, lit_i, at_word_here.
  cbn [foldr py map list_ascii_of_string].
  destruct s as [|a [|t rest]];
    cbn [m before ahead]; unfold at_boundary; cbn [before ahead head].
  - by destruct (xorb _ _).
  - destruct (xorb _ _); [|done]. by destruct (_ =? _)%N.
  - cbn [word_opt take drop lookup list_lookup].
    change (lower_char (N_of_ascii "a")) with (ch "a").
    change (lower_char (N_of_ascii "t")) with (ch "t").
    destruct (N.eqb_spec (lower_char a) (ch "a")) as [Ha|Ha].
    + apply lower_char_word in Ha; [|done]. rewrite Ha.
      destruct (word_opt b); cbn [xorb negb andb];
        [by destruct (_ =? _)%N|].
      destruct (N.eqb_spec (lower_char t) (ch "t")) as [Ht|Ht]; [|done].
      apply lower_char_word in Ht; [|done]. rewrite Ht. cbn [andb xorb].
      destruct (word_opt (head rest)); [done|]. cbn [negb].
      f_equal. f_equal. unfold consumed. cbn [ahead length].
      replace (S (S (length rest)) - length rest) with 2 by lia. done.
    + cbn [andb]. by destruct (xorb (word_opt b) (is_word a)).
Qed.

Lemma search_at_cut s : forall b i,
  found (search_at at_re b s i) = true <-> is_Some (cut_at_word b s).
Proof.
  induction s as [|x s IH]; intros b i; cbn [search_at cut_at_word];
    rewrite match_here_at.
  - destruct (at_word_here b []); [split; eauto|].
    split; [done|]. by intros [? ?].
  - destruct (at_word_here b (x :: s)); [split; eauto|].
    rewrite IH. destruct (cut_at_word (Some x) s) as [[[pre w] post]|].
    + split; eauto.
    + split; by intros [? ?].
Qed.




Lemma set_dates_keeps line cur cur' k :
  set_dates line cur = Some cur' ->
  k ∈ ["job_title"; "company_name"]%string ->
  cur' !! k = cur !! k.
Proof.
  unfold set_dates. intros H Hk.
  assert (Hne : k <> "start_date" /\ k <> "end_date" /\ k <> "duration").
  { repeat split; intros ->; apply (bool_decide_pack _) in Hk;
      by vm_compute in Hk. }
  destruct Hne as (N1 & N2 & N3).
  destruct (re_search date_re line) as [mt|]; [|by injection H as <-].
  destruct (dict_truthy cur); [|by injection H as <-].
  set (dates := re_findall1 years_re (m_text mt)) in H.
  destruct (Nat.leb 1 (length dates)).
  - destruct (dates !! 0) as [d0|]; [|done]. cbn [mbind option_bind] in H.
    destruct (Nat.leb 2 (length dates)).
    + destruct (dates !! 1) as [d1|]; [|done]. cbn [mbind option_bind] in H.
      injection H as <-. by rewrite !lookup_insert_ne.
    + cbn [mbind option_bind] in H. injection H as <-.
      by rewrite !lookup_insert_ne.
  - cbn [mbind option_bind] in H. destruct (Nat.leb 2 (length dates)).
    + destruct (dates !! 1) as [d1|]; [|done]. cbn [mbind option_bind] in H.
      injection H as <-. by rewrite !lookup_insert_ne.
    + cbn [mbind option_bind] in H. injection H as <-.
      by rewrite !lookup_insert_ne.
Qed.





Lemma second_at_cuts_the_company :
  (extract_work_experience
     (text_of_lines [py "Experience";
                     py "Manager at Acme at Boston 2019 - 2021"])
   ≫= fun jobs => jobs !! 0%nat
   ≫= fun job => job !! "company_name") = Some (VStr (py "Acme")).
Proof. by vm_compute. Qed.

(** ** The experience metrics *)

Lemma split_on_absent sep s :
  existsb (N.eqb sep) s = false -> split_on sep s = [s].
Proof.
  induction s as [|x s IH]; [done|]. simpl.
  intros [H1 H2]%orb_false_iff. rewrite N.eqb_sym, H1. by rewrite IH.
Qed.

Lemma split_on_first sep a b :
  existsb (N.eqb sep) a = false ->
  split_on sep (a ++ sep :: b) = a :: split_on sep b.
Proof.
  induction a as [|x a IH]; simpl.
  - by rewrite N.eqb_refl.
  - intros [H1 H2]%orb_false_iff. rewrite N.eqb_sym, H1. by rewrite IH.
Qed.

Lemma years_read_back : forallb year_reads_back (seq 1 (Z.to_nat 9999)) = true.
Proof. by vm_compute. Qed.

Lemma months_read_back : forallb month_reads_back (seq 1 12) = true.
Proof. by vm_compute. Qed.

(** The current month, written by [strftime] and read by line 493, is the
    current month. *)
Lemma year_month_strftime now :
  valid_now now -> year_month (strftime_Ym now) = Some (year now, month now).
Proof.
  intros ([Hy1 Hy2] & [Hm1 Hm2] & _).
  pose proof years_read_back as Hy. pose proof months_read_back as Hm.
  rewrite forallb_forall in Hy, Hm.
  specialize (Hy (Z.to_nat (year now)) ltac:(apply in_seq; lia)).
  specialize (Hm (Z.to_nat (month now)) ltac:(apply in_seq; lia)).
  unfold year_reads_back in Hy. unfold month_reads_back in Hm.
  rewrite Z2Nat.id in Hy, Hm by lia.
  apply andb_true_iff in Hy as [Hy Hyd]. apply andb_true_iff in Hm as [Hm Hmd].
  apply bool_decide_eq_true in Hy, Hm. apply negb_true_iff in Hyd, Hmd.
  unfold year_month, strftime_Ym.
  change (py "-" ++ two_digits (month now))
    with (ch "-" :: two_digits (month now)).
  rewrite split_on_first, split_on_absent by done.
  rewrite Hy, Hm. done.
Qed.

Lemma bool_decide_VStr a b :
  bool_decide (VStr a = VStr b) = bool_decide (a = b).
Proof. apply bool_decide_ext. split; [by intros [= ->]|by intros ->]. Qed.


Lemma months_added_eq now job :
  valid_now now -> months_added now job = entry_months now job.
Proof.
  intros Hnow. unfold months_added, entry_months, job_months, get_truthy.
  destruct (job !! "start_date") as [[s|l]|], (job !! "end_date") as [[e|l']|];
    cbn [truthy mbind option_bind as_str andb]; try done.
  - rewrite bool_decide_VStr.
    destruct s as [|c s], e as [|c' e]; try done; cbn [nonempty andb negb].
    destruct (year_month (c :: s)) as [[sy sm]|]; cbn [mbind option_bind];
      [|by destruct (bool_decide (c' :: e = py "Present"))].
    destruct (bool_decide (c' :: e = py "Present"));
      cbn [as_str mbind option_bind].
    + by rewrite year_month_strftime.
    + by destruct (year_month (c' :: e)) as [[ey em]|].
  - destruct s as [|c s], l' as [|x l']; try done.
    cbn [andb]. rewrite bool_decide_eq_false_2 by done.
    cbn [as_str mbind option_bind]. by destruct (year_month _) as [[? ?]|].
  - destruct s; done.
  - destruct l as [|x l], e as [|c e]; try done.
  - destruct l as [|x l], l' as [|x' l']; try done.
  - destruct l as [|x l]; done.
Qed.

Section Sums.
Local Open Scope Z_scope.

Lemma level_loop_cons now job jobs acc :
  level_loop now (job :: jobs) acc =
  level_loop now jobs
    (match years_added now job with Some d => acc + d | None => acc end).
Proof.
  cbn [level_loop]. unfold years_added.
  destruct (get_truthy job "start_date" && get_truthy job "end_date");
    [|done].
  by destruct (job_years now job).
Qed.

Lemma months_loop_cons now job jobs acc :
  months_loop now (job :: jobs) acc =
  months_loop now jobs
    (match months_added now job with Some d => acc + d | None => acc end).
Proof.
  cbn [months_loop]. unfold months_added.
  destruct (get_truthy job "start_date" && get_truthy job "end_date");
    [|done].
  by destruct (job_months now job).
Qed.

Lemma sum_Z_omap_cons {A} (f : A -> option Z) x l :
  sum_Z (omap f (x :: l)) =
  match f x with
  | Some y => y + sum_Z (omap f l)
  | None => sum_Z (omap f l)
  end.
Proof. unfold sum_Z. simpl. by destruct (f x). Qed.

Lemma level_loop_sum now jobs : forall acc,
  level_loop now jobs acc = acc + sum_Z (omap (years_added now) jobs).
Proof.
  induction jobs as [|job jobs IH]; intros acc.
  - simpl. lia.
  - rewrite level_loop_cons, IH, sum_Z_omap_cons.
    destruct (years_added now job); lia.
Qed.

Lemma months_loop_sum now jobs : forall acc,
  months_loop now jobs acc = acc + sum_Z (omap (months_added now) jobs).
Proof.
  induction jobs as [|job jobs IH]; intros acc.
  - simpl. lia.
  - rewrite months_loop_cons, IH, sum_Z_omap_cons.
    destruct (months_added now job); lia.
Qed.

Lemma omap_pointwise {A B} (f g : A -> option B) (l : list A) :
  (forall x, f x = g x) -> omap f l = omap g l.
Proof.
  intros H. induction l as [|x l IH]; [done|].
  change (omap f (x :: l))
    with (match f x with Some y => y :: omap f l | None => omap f l end).
  change (omap g (x :: l))
    with (match g x with Some y => y :: omap g l | None => omap g l end).
  by rewrite H, IH.
Qed.


Lemma months_loop_total now jobs :
  valid_now now -> months_loop now jobs 0 = total_months now jobs.
Proof.
  intros Hnow. rewrite months_loop_sum, Z.add_0_l. unfold total_months.
  f_equal. apply omap_pointwise. intros. by apply months_added_eq.
Qed.

Lemma format_experience_stated total :
  format_experience total =
  if total =? 0 then py "0 months" else stated_format total.
Proof.
  unfold format_experience, stated_format. cbv zeta.
  pose proof (Z.div_mod total 12 ltac:(lia)) as Hdm.
  destruct (Z.eqb_spec total 0) as [->|Hne]; [done|].
  destruct (Z.eqb_spec (total / 12) 0) as [Hy|Hy].
  - destruct (Z.eqb_spec (total mod 12) 0) as [Hm|Hm]; [|done].
    rewrite Hy, Hm in Hdm. lia.
  - destruct (Z.eqb_spec (total mod 12) 0) as [Hm|Hm]; simpl.
    + by rewrite !app_nil_r.
    + by rewrite <- !app_assoc.
Qed.

End Sums.

Section Metrics.
Local Open Scope Z_scope.


Lemma calculate_total_experience_eq now jobs :
  valid_now now ->
  calculate_total_experience now jobs =
  if total_months now jobs =? 0 then py "0 months"
  else stated_format (total_months now jobs).
Proof.
  intros Hnow. unfold calculate_total_experience.
  rewrite months_loop_total by done. apply format_experience_stated.
Qed.

(** *** Dates of the form YYYY-MM *)

















End Metrics.

(** ** The dates of the work entries, and the clock *)










(** ** The dates of the reference line *)

(** X1.  Every work entry that [extract_work_experience] returns has dates among
    the empty string, "19-01", "20-01" and "-01": the first year found is
    never stored in the form YYYY-01, and the end date is never "Present". *)
Lemma work_dates_are_short text :
  exists jobs, extract_work_experience text = Some jobs /\
    Forall (fun job =>
      exists sd ed, job !! "start_date" = Some (VStr sd) /\
                    job !! "end_date" = Some (VStr ed) /\
                    sd ∈ short_dates /\ ed ∈ short_dates) jobs.
Proof.
  destruct (extract_work_experience_ok text) as (jobs & -> & H).
  eexists; split; [done|]. eapply Forall_impl; [done|].
  intros job (_ & _ & (sd & Hs & Hsd) & (ed & He & Hed)). by exists sd, ed.
Qed.

(** C1 at the reference line: the duration is "2019 - 2021", but the two
    dates are "20-01" and "20-01", not "2019-01" and "2021-01": [findall]
    returns the text of the group [(19|20)], and the text of no group for
    "Present" and "Current", so an end "Present" is stored as "-01". *)
Theorem acme_dates_hold_the_century :
  re_findall1 years_re (py "2019 - 2021") = [py "20"; py "20"] /\
  re_findall1 years_re (py "2019 - Present") = [py "20"; []] /\
  extract_work_experience acme_text =
    Some [ <["duration" := VStr (py "2019 - 2021")]>
             (<["end_date" := VStr (py "20-01")]>
                (<["start_date" := VStr (py "20-01")]>
                   (new_job (py "Acme Corp 2019 - 2021")
                      (py "Software Engineer")))) ] /\
  (extract_work_experience
     (text_of_lines [py "Experience"; py "Developer at Initech 2019 - Present"])
   ≫= fun jobs => jobs !! 0%nat
   ≫= fun job => job !! "end_date") = Some (VStr (py "-01")).
Proof. repeat split; by vm_compute. Qed.

(** ** What a match is made of *)

Lemma m_star_taken {A} p (k : cursor -> option A) : forall s b a,
  m_star p k b s = Some a ->
  exists t rest b',
    s = t ++ rest /\ forallb p t = true /\ k (Cursor b' rest) = Some a.
Proof.
  induction s as [|x s IH]; intros b a; cbn [m_star].
  - intros H. by exists [], [], b.
  - destruct (p x) eqn:Ex; [|intros H; by exists [], (x :: s), b].
    destruct (m_star p k (Some x) s) eqn:E.
    + intros [= ->]. destruct (IH _ _ E) as (t & rest & b' & -> & Ht & Hk).
      exists (x :: t), rest, b'. simpl. by rewrite Ex, Ht.
    + intros H. by exists [], (x :: s), b.
Qed.

(** The matcher only moves forward: where it ends is a suffix of where it
    started. *)
Lemma m_suffix {A} r : forall (k : cursor -> caps -> option A) c g a,
  m r k c g = Some a ->
  exists c' g', k c' g' = Some a /\ suffix (ahead c') (ahead c).
Proof.
  induction r; intros k c g a; cbn [m].
  - intros H. by exists c, g.
  - destruct (ahead c) as [|x s] eqn:E; [done|].
    destruct (p x); [|done]. intros H.
    exists (Cursor (Some x) s), g. split; [done|]. by exists [x].
  - intros H. apply IHr1 in H as (c1 & g1 & H & S1).
    apply IHr2 in H as (c2 & g2 & H & S2). exists c2, g2. split; [done|].
    by etrans.
  - destruct (m r1 k c g) eqn:E.
    + intros [= ->]. by apply (IHr1 k c g).
    + intros H. by apply (IHr2 k c g).
  - intros H. apply m_star_taken in H as (t & rest & b' & E & _ & H).
    exists (Cursor b' rest), g. split; [done|]. by exists t.
  - intros H. apply IHr in H as (c' & g' & H & S).
    by exists c', ((n, consumed c c') :: g').
  - destruct (before c); [done|]. intros H. by exists c, g.
  - destruct (at_eol c); [|done]. intros H. by exists c, g.
  - destruct (at_boundary c); [|done]. intros H. by exists c, g.
Qed.

Lemma consumed_suffix c c' :
  suffix (ahead c') (ahead c) -> ahead c = consumed c c' ++ ahead c'.
Proof.
  intros [t E]. unfold consumed. rewrite E, length_app.
  replace (length t + length (ahead c') - length (ahead c'))
    with (length t) by lia.
  by rewrite take_app_length.
Qed.

(** Where a match starts, the input is the matched text and then the rest. *)
Lemma match_here_text r i c mt :
  match_here r i c = Some mt -> ahead c = m_text mt ++ ahead (m_tail mt).
Proof.
  unfold match_here. intros H. apply m_suffix in H as (c' & g' & H & S).
  injection H as <-. simpl. by apply consumed_suffix.
Qed.

(** [group()] of [re.search] occurs in the text. *)
Lemma search_at_text r : forall s b i mt,
  search_at r b s i = Some mt ->
  exists pre, s = pre ++ m_text mt ++ ahead (m_tail mt).
Proof.
  induction s as [|x s IH]; intros b i mt; cbn [search_at].
  - destruct (match_here r i (Cursor b [])) eqn:E; [|done].
    intros [= ->]. exists []. by apply match_here_text in E.
  - destruct (match_here r i (Cursor b (x :: s))) eqn:E.
    + intros [= ->]. exists []. by apply match_here_text in E.
    + intros H. apply IH in H as [pre ->]. by exists (x :: pre).
Qed.

Lemma re_search_substring r s mt :
  re_search r s = Some mt -> substring (m_text mt) s.
Proof. intros [pre H]%search_at_text. by exists pre, (ahead (m_tail mt)). Qed.

(** The first line of a text starts it, and every line occurs in it. *)
Lemma split_on_head sep s :
  exists l0 ls rest, split_on sep s = l0 :: ls /\ s = l0 ++ rest.
Proof.
  induction s as [|x s (l0 & ls & rest & E & Hs)]; cbn [split_on].
  - by exists [], [], [].
  - destruct (x =? sep)%N; [by exists [], (split_on sep s), (x :: s)|].
    rewrite E. exists (x :: l0), ls, rest. by rewrite Hs at 1.
Qed.

Lemma split_on_substring sep s l : l ∈ split_on sep s -> substring l s.
Proof.
  revert l. induction s as [|x s IH]; intros l; cbn [split_on].
  - intros ->%list_elem_of_singleton. by exists [], [].
  - destruct (x =? sep)%N.
    + intros [->|H]%elem_of_cons; [by exists [], (x :: s)|].
      destruct (IH _ H) as (a & b & ->). by exists (x :: a), b.
    + destruct (split_on_head sep s) as (l0 & ls & rest & E & Hs).
      rewrite E in *. intros [->|H]%elem_of_cons.
      * exists [], rest. by rewrite Hs at 1.
      * destruct (IH l) as (a & b & ->); [by right|]. by exists (x :: a), b.
Qed.

Lemma m_Cls_inv {A} p (k : cursor -> caps -> option A) c g a :
  m (Cls p) k c g = Some a ->
  exists x s', ahead c = x :: s' /\ p x = true /\
               k (Cursor (Some x) s') g = Some a.
Proof.
  cbn [m]. destruct (ahead c) as [|x s']; [done|].
  destruct (p x) eqn:E; [|done]. intros H. by exists x, s'.
Qed.

(** ** The contact fields of [extract_personal_info] *)

Lemma set_group0_other key r text info k :
  k <> key -> set_group0 key r text info !! k = info !! k.
Proof.
  intros Hk. unfold set_group0. destruct (re_search r text); [|done].
  by apply lookup_insert_ne.
Qed.

Lemma set_group0_same key r text info :
  set_group0 key r text info !! key =
  match re_search r text with
  | Some mt => Some (m_text mt)
  | None => info !! key
  end.
Proof.
  unfold set_group0. destruct (re_search r text); [|done].
  apply lookup_insert_eq.
Qed.

Lemma phone_loop_other ps text info k :
  k <> "phone"%string -> phone_loop ps text info !! k = info !! k.
Proof.
  intros Hk. induction ps as [|p ps IH]; [done|]. simpl.
  destruct (re_search p text); [|done]. by apply lookup_insert_ne.
Qed.

Lemma phone_loop_same ps text info :
  phone_loop ps text info !! "phone" = info !! "phone" \/
  exists r mt, r ∈ ps /\ re_search r text = Some mt /\
               phone_loop ps text info !! "phone" = Some (m_text mt).
Proof.
  induction ps as [|p ps IH]; [by left|]. simpl.
  destruct (re_search p text) as [mt|] eqn:E.
  - right. exists p, mt. split; [by left|]. split; [done|].
    apply lookup_insert_eq.
  - destruct IH as [IH|(r & mt & Hr & Hs & IH)]; [by left|].
    right. exists r, mt. split; [by right|]. done.
Qed.

Lemma portfolio_step_other text info info' k :
  portfolio_step text info = Some info' ->
  k <> "portfolio"%string -> info' !! k = info !! k.
Proof.
  unfold portfolio_step. intros H Hk.
  destruct (re_search portfolio_re text); [|by injection H as <-].
  destruct (group 1 r); [|done]. cbn [mbind option_bind] in H.
  match type of H with (if ?b then _ else _) = _ => destruct b end;
    injection H as <-; [|done].
  by apply lookup_insert_ne.
Qed.

Lemma set_location_other line info k :
  k <> "location"%string -> k <> "address"%string ->
  set_location line info !! k = info !! k.
Proof.
  intros H1 H2. unfold set_location. by rewrite !lookup_insert_ne.
Qed.

Lemma address_loop_other lines info k :
  k <> "location"%string -> k <> "address"%string ->
  address_loop lines info !! k = info !! k.
Proof.
  intros H1 H2. induction lines as [|l ls IH]; [done|]. simpl.
  match goal with |- context [if ?b then _ else _] => destruct b end;
    [by apply set_location_other|done].
Qed.

Lemma comma_loop_other lines info k :
  k <> "location"%string -> k <> "address"%string ->
  comma_loop lines info !! k = info !! k.
Proof.
  intros H1 H2. induction lines as [|l ls IH]; [done|]. simpl.
  match goal with |- context [if ?b then _ else _] => destruct b end;
    [by apply set_location_other|done].
Qed.

Lemma name_loop_other lines info info' k :
  name_loop lines info = Some info' ->
  k ∉ ["full_name"; "first_name"; "last_name"]%string ->
  info' !! k = info !! k.
Proof.
  rewrite name_loop_eq. intros [= <-] Hk.
  assert (k <> "full_name" /\ k <> "first_name" /\ k <> "last_name")
    as (N1 & N2 & N3).
  { repeat split; intros ->; apply Hk; apply list_elem_of_In; simpl; tauto. }
  destruct (find _ _) as [l|]; [|done]. cbv zeta.
  destruct (nonempty (split_ws l)); by rewrite !lookup_insert_ne.
Qed.

(** The steps of [extract_personal_info], one after the other. *)
Lemma extract_personal_info_steps text info :
  extract_personal_info text = Some info ->
  exists info1 info3 loc,
    name_loop (take 10 (split_on nl text)) personal_info_init = Some info1 /\
    portfolio_step text
      (set_group0 "github" github_re text
         (set_group0 "linkedin" linkedin_re text
            (phone_loop phone_patterns text
               (set_group0 "email" email_re text info1)))) = Some info3 /\
    address_loop (take 12 (split_on nl text)) info3 !! "location"
      = Some loc /\
    info = if negb (nonempty loc)
           then comma_loop (take 8 (split_on nl text))
                  (address_loop (take 12 (split_on nl text)) info3)
           else address_loop (take 12 (split_on nl text)) info3.
Proof.
  unfold extract_personal_info. intros H.
  destruct (name_loop _ personal_info_init) as [info1|]; [|done].
  cbn [mbind option_bind] in H.
  destruct (portfolio_step text _) as [info3|] eqn:E3; [|done].
  cbn [mbind option_bind] in H.
  destruct (address_loop _ info3 !! "location") as [loc|] eqn:El; [|done].
  cbn [mbind option_bind] in H.
  exists info1, info3, loc. repeat split; try done.
  by destruct (negb (nonempty loc)); injection H as <-.
Qed.

(** A field that only the contact steps write. *)
Lemma contact_field text info k :
  extract_personal_info text = Some info ->
  k ∈ ["email"; "phone"; "linkedin"; "github"]%string ->
  exists info1,
    (forall k', k' ∈ ["email"; "phone"; "linkedin"; "github"]%string ->
                info1 !! k' = Some []) /\
    info !! k =
    set_group0 "github" github_re text
      (set_group0 "linkedin" linkedin_re text
         (phone_loop phone_patterns text
            (set_group0 "email" email_re text info1))) !! k.
Proof.
  intros (info1 & info3 & loc & H1 & H3 & Hl & ->)%extract_personal_info_steps
    Hk.
  exists info1. split.
  { intros k' Hk'.
    repeat (apply elem_of_cons in Hk' as [->|Hk']);
      [| | | |by apply elem_of_nil in Hk'];
      (rewrite (name_loop_other _ _ _ _ H1);
       [done|apply (bool_decide_unpack _); by vm_compute]). }
  assert (k <> "location" /\ k <> "address" /\ k <> "portfolio")
    as (N1 & N2 & N3).
  { repeat split; intros ->; apply (bool_decide_pack _) in Hk;
      by vm_compute in Hk. }
  rewrite <- (portfolio_step_other _ _ _ k H3 N3).
  destruct (negb (nonempty loc)).
  - by rewrite comma_loop_other, address_loop_other.
  - by rewrite address_loop_other.
Qed.

Lemma email_has_at text mt :
  re_search email_re text = Some mt -> ch "@" ∈ m_text mt.
Proof.
  intros (b & s & i & H)%search_at_inv.
  unfold match_here, email_re, seqs in H. cbn [foldr] in H.
  set (c := Cursor b s) in *.
  rewrite m_seq in H. apply m_suffix in H as (c1 & g1 & H & [t1 S1]).
  rewrite m_seq in H. apply m_suffix in H as (c2 & g2 & H & [t2 S2]).
  rewrite m_seq in H. apply m_Cls_inv in H as (x & s3 & E3 & Hx & H).
  apply N.eqb_eq in Hx. subst x.
  apply m_suffix in H as (c' & g' & H & [t3 S3]). injection H as <-.
  cbn [m_text]. simpl in S3. unfold consumed.
  rewrite S1, S2, E3, S3, !length_app. cbn [length]. rewrite length_app.
  replace (length t1 + (length t2 + S (length t3 + length (ahead c')))
           - length (ahead c'))
    with (length (t1 ++ t2 ++ ch "@" :: t3))
    by (rewrite !length_app; simpl; lia).
  replace (t1 ++ t2 ++ ch "@" :: t3 ++ ahead c')
    with ((t1 ++ t2 ++ ch "@" :: t3) ++ ahead c')
    by (by rewrite <- !app_assoc).
  rewrite take_app_length.
  apply elem_of_app; right. apply elem_of_app; right. by left.
Qed.

(** A match of a literal followed by characters that are not white space. *)
Lemma prefixed_token_match w text mt :
  re_search (Seq (lits w) (Plus (fun c => negb (is_space c)))) text
    = Some mt ->
  exists t, m_text mt = w ++ t /\
            forallb (fun c => negb (is_space c)) t = true.
Proof.
  intros (b & s & i & H)%search_at_inv.
  unfold match_here, Plus in H. rewrite m_seq in H.
  apply m_lits_inv in H as (rest & b' & -> & H).
  rewrite m_seq in H. apply m_Cls_inv in H as (x & s' & E & Hx & H).
  simpl in E. subst rest. cbn [m before ahead] in H.
  apply m_star_taken in H as (t & rest' & b'' & -> & Ht & H).
  injection H as <-. cbn [m_text]. exists (x :: t). split.
  - replace (w ++ x :: t ++ rest') with ((w ++ x :: t) ++ rest')
      by (by rewrite <- app_assoc).
    apply consumed_app.
  - simpl. by rewrite Hx, Ht.
Qed.

Lemma forallb_app_true {A} (p : A -> bool) a b :
  forallb p a = true -> forallb p b = true -> forallb p (a ++ b) = true.
Proof. intros Ha Hb. by rewrite forallb_app, Ha, Hb. Qed.

Lemma startswith_app w t : startswith w (w ++ t) = true.
Proof. apply startswith_spec. by exists t. Qed.

(** X2.  The e-mail address, the telephone number and the LinkedIn and GitHub
    links are empty or occur in the text; an address holds "@"; a link
    starts with its site and holds no white space. *)
Theorem contact_fields_come_from_text (text : pystr) :
  exists info email phone linkedin github,
    extract_personal_info text = Some info /\
    info !! "email" = Some email /\ info !! "phone" = Some phone /\
    info !! "linkedin" = Some linkedin /\ info !! "github" = Some github /\
    empty_or_in text email /\ (email <> [] -> ch "@" ∈ email) /\
    empty_or_in text phone /\
    empty_or_in text linkedin /\
    (linkedin <> [] ->
     startswith (py "linkedin.com/in/") linkedin = true /\
     forallb (fun c => negb (is_space c)) linkedin = true) /\
    empty_or_in text github /\
    (github <> [] ->
     startswith (py "github.com/") github = true /\
     forallb (fun c => negb (is_space c)) github = true).
Proof.
  destruct (extract_personal_info_keys text) as (info & Hinfo & _).
  assert (Hf : forall k, k ∈ ["email"; "phone"; "linkedin"; "github"]%string ->
    exists info1,
      (forall k', k' ∈ ["email"; "phone"; "linkedin"; "github"]%string ->
                  info1 !! k' = Some []) /\
      info !! k =
      set_group0 "github" github_re text
        (set_group0 "linkedin" linkedin_re text
           (phone_loop phone_patterns text
              (set_group0 "email" email_re text info1))) !! k)
    by (intros k; by apply contact_field).
  assert (He : exists email, info !! "email" = Some email /\
            empty_or_in text email /\ (email <> [] -> ch "@" ∈ email)).
  { destruct (Hf "email") as (i1 & H0 & ->);
      [apply list_elem_of_In; simpl; tauto|].
    rewrite !set_group0_other, phone_loop_other, set_group0_same by done.
    destruct (re_search email_re text) as [mt|] eqn:E.
    - eexists; split; [done|]. split.
      + right. by apply re_search_substring in E.
      + intros _. by apply email_has_at in E.
    - rewrite H0 by (apply list_elem_of_In; simpl; tauto).
      eexists; split; [done|]. split; [by left|done]. }
  assert (Hp : exists phone, info !! "phone" = Some phone /\
            empty_or_in text phone).
  { destruct (Hf "phone") as (i1 & H0 & ->);
      [apply list_elem_of_In; simpl; tauto|].
    rewrite !set_group0_other by done.
    destruct (phone_loop_same phone_patterns text
                (set_group0 "email" email_re text i1))
      as [->|(r & mt & _ & Hs & ->)].
    - rewrite set_group0_other, H0
        by (done || (apply list_elem_of_In; simpl; tauto)).
      eexists; split; [done|]. by left.
    - eexists; split; [done|]. right. by apply re_search_substring in Hs. }
  assert (Hl : exists linkedin, info !! "linkedin" = Some linkedin /\
            empty_or_in text linkedin /\
            (linkedin <> [] ->
             startswith (py "linkedin.com/in/") linkedin = true /\
             forallb (fun c => negb (is_space c)) linkedin = true)).
  { destruct (Hf "linkedin") as (i1 & H0 & ->);
      [apply list_elem_of_In; simpl; tauto|].
    rewrite set_group0_other, set_group0_same by done.
    destruct (re_search linkedin_re text) as [mt|] eqn:E.
    - eexists; split; [done|]. split.
      + right. by apply re_search_substring in E.
      + intros _. apply prefixed_token_match in E as (t & -> & Ht).
        split; [apply startswith_app|]. by apply forallb_app_true.
    - rewrite phone_loop_other, set_group0_other, H0
        by (done || (apply list_elem_of_In; simpl; tauto)).
      eexists; split; [done|]. split; [by left|done]. }
  assert (Hg : exists github, info !! "github" = Some github /\
            empty_or_in text github /\
            (github <> [] ->
             startswith (py "github.com/") github = true /\
             forallb (fun c => negb (is_space c)) github = true)).
  { destruct (Hf "github") as (i1 & H0 & ->);
      [apply list_elem_of_In; simpl; tauto|].
    rewrite set_group0_same.
    destruct (re_search github_re text) as [mt|] eqn:E.
    - eexists; split; [done|]. split.
      + right. by apply re_search_substring in E.
      + intros _. apply prefixed_token_match in E as (t & -> & Ht).
        split; [apply startswith_app|]. by apply forallb_app_true.
    - rewrite set_group0_other, phone_loop_other, set_group0_other, H0
        by (done || (apply list_elem_of_In; simpl; tauto)).
      eexists; split; [done|]. split; [by left|done]. }
  destruct He as (email & He1 & He2 & He3), Hp as (phone & Hp1 & Hp2),
    Hl as (linkedin & Hl1 & Hl2 & Hl3), Hg as (github & Hg1 & Hg2 & Hg3).
  exists info, email, phone, linkedin, github. repeat split; try done.
  - by apply Hl3.
  - by apply Hl3.
  - by apply Hg3.
  - by apply Hg3.
Qed.

(** ** The portfolio and the location *)

Lemma portfolio_group_is_match text mt :
  re_search portfolio_re text = Some mt -> group 1 mt = Some (m_text mt).
Proof.
  intros (b & s & i & H)%search_at_inv.
  unfold match_here, portfolio_re in H. rewrite m_grp in H.
  apply m_inv in H as (c1 & g1 & H). injection H as <-.
  unfold group. simpl. done.
Qed.

(** ** The first link of the text *)

Lemma take_drop_while p s : take_while p s ++ drop_while p s = s.
Proof.
  induction s as [|c s IH]; [done|]. simpl. destruct (p c); [|done].
  simpl. by rewrite IH.
Qed.

(** A repetition whose continuation accepts takes the longest run. *)
Lemma m_star_longest {A} p (k : cursor -> option A) : forall s b a,
  k (Cursor (prev_of b (take_while p s)) (drop_while p s)) = Some a ->
  m_star p k b s = Some a.
Proof.
  induction s as [|x s IH]; intros b a; cbn [m_star take_while drop_while].
  - done.
  - destruct (p x); [|done]. rewrite prev_of_cons. intros H.
    by rewrite (IH _ _ H).
Qed.

Lemma m_plus_run {A} p (f : cursor -> caps -> A) b r g :
  m (Plus p) (fun c' g' => Some (f c' g')) (Cursor b r) g =
  if nonempty (take_while p r)
  then Some (f (Cursor (prev_of b (take_while p r)) (drop_while p r)) g)
  else None.
Proof.
  unfold Plus. cbn [m ahead before]. destruct r as [|x r]; [done|].
  cbn [take_while drop_while]. destruct (p x); [|done]. cbn [nonempty].
  apply m_star_longest. by rewrite prev_of_cons.
Qed.

Lemma startswith_app_false a b s :
  startswith a s = false -> startswith (a ++ b) s = false.
Proof.
  intros H. destruct (startswith (a ++ b) s) eqn:E; [|done].
  apply startswith_spec in E as [r ->]. rewrite <- H. symmetry.
  apply startswith_spec. exists (b ++ r). by rewrite app_assoc.
Qed.

Lemma startswith_app_same a w r :
  startswith (a ++ w) (a ++ r) = startswith w r.
Proof. induction a as [|x a IH]; [done|]. simpl. by rewrite N.eqb_refl. Qed.

Lemma link_with_app a ws r :
  link_with (map (app a) ws) (a ++ r) =
  app a <$> link_with ws r.
Proof.
  induction ws as [|w ws IH]; [done|]. cbn [map link_with].
  rewrite startswith_app_same, length_app, <- drop_drop, drop_app_length.
  destruct (startswith w r && nonempty (take_while url_cls (drop (length w) r)));
    [by rewrite <- app_assoc|done].
Qed.

Lemma link_with_more l l' s :
  link_with (l ++ l') s =
  match link_with l s with
  | Some u => Some u
  | None => link_with l' s
  end.
Proof.
  induction l as [|w l IH]; [done|]. cbn [app link_with].
  by destruct (startswith w s && _).
Qed.

(** What the pattern of line 118 matches at a place is the link that
    starts there. *)
Lemma match_here_link i b s :
  m_text <$> match_here portfolio_re i (Cursor b s) = link_here s.
Proof.
  unfold match_here, portfolio_re. rewrite m_grp, m_seq, m_grp.
  set (f := fun c' g' =>
    RMatch i (consumed (Cursor b s) c')
      ((1, consumed (Cursor b s) c') :: g') c').
  change (fun (c' : cursor) (g' : caps) =>
            Some (RMatch i (consumed (Cursor b s) c')
                    ((1, consumed (Cursor b s) c') :: g') c'))
    with (fun c' g' => Some (f c' g')).
  set (K := fun (c' : cursor) (g' : caps) =>
    m (Plus url_cls) (fun c'' g'' => Some (f c'' g'')) c'
      ((2, consumed (Cursor b s) c') :: g')).
  assert (HK : forall pre r b' g',
    s = pre ++ r ->
    m_text <$> K (Cursor b' r) g' =
    if nonempty (take_while url_cls r)
    then Some (pre ++ take_while url_cls r) else None).
  { intros pre r b' g' ->. unfold K. rewrite m_plus_run.
    destruct (nonempty (take_while url_cls r)); [|done].
    cbn [fmap option_fmap option_map f m_text]. f_equal.
    rewrite <- (take_drop_while url_cls r) at 1.
    rewrite app_assoc. apply consumed_app. }
  clearbody K. clear f.
  assert (HL : forall w pre r b' g',
    s = pre ++ r ->
    m_text <$> m (lits w) K (Cursor b' r) g' =
    app pre <$> link_with [w] r).
  { intros w pre r b' g' Hs. rewrite m_lits. cbn [link_with].
    destruct (startswith w r) eqn:E; [|done].
    apply startswith_spec in E as [r' ->]. rewrite drop_app_length.
    rewrite (HK (pre ++ w) r') by (by rewrite <- app_assoc).
    cbn [andb]. destruct (nonempty (take_while url_cls r')); [|done].
    cbn. by rewrite app_assoc. }
  assert (HR : forall pre r b' g',
    s = pre ++ r ->
    m_text <$> m (Seq (lits (py "://")) Eps) K (Cursor b' r) g' =
    app pre <$> link_with [py "://"] r).
  { intros pre r b' g' Hs. rewrite <- (HL _ _ _ b' g' Hs).
    rewrite m_seq, !m_lits. by destruct (startswith (py "://") r). }
  assert (HA1 :
    m_text <$> m (seqs [lits (py "http"); Opt (lit (ch "s")); lits (py "://")])
                 K (Cursor b s) [] =
    link_with [py "https://"; py "http://"] s).
  { unfold seqs. cbn [foldr].
    set (R := Seq (lits (py "://")) Eps) in *.
    rewrite m_seq, m_lits.
    destruct (startswith (py "http") s) eqn:E1.
    2:{ cbn [link_with].
        change (py "https://") with (py "http" ++ py "s://").
        change (py "http://") with (py "http" ++ py "://").
        by rewrite !startswith_app_false. }
    apply startswith_spec in E1 as [r Hs].
    replace (drop (length (py "http")) s) with r
      by (by rewrite Hs, drop_app_length).
    replace (link_with [py "https://"; py "http://"] s)
      with (app (py "http") <$> link_with [py "s://"; py "://"] r)
      by (by rewrite Hs, <- link_with_app).
    rewrite m_seq. unfold Opt, lit at 1. cbn [m ahead].
    destruct r as [|x r'].
    - rewrite (HR (py "http") []) by done. done.
    - destruct (N.eqb_spec (ch "s") x) as [<-|Hne].
      + pose proof (HR (py "http" ++ [ch "s"]) r' (Some (ch "s")) []
                      ltac:(by rewrite Hs, <- app_assoc)) as H1.
        pose proof (HR (py "http") (ch "s" :: r')
                      (last (from_option (fun x => [x]) [] b ++ py "http"))
                      [] Hs) as H2.
        destruct (m R K (Cursor (Some (ch "s")) r') []) as [mt|].
        * cbn [fmap option_fmap option_map] in H1 |- *.
          cbn [link_with] in H1 |- *.
          change (startswith (py "s://") (ch "s" :: r'))
            with (startswith (py "://") r').
          change (drop (length (py "s://")) (ch "s" :: r'))
            with (drop (length (py "://")) r').
          destruct (startswith (py "://") r' &&
                    nonempty (take_while url_cls
                                (drop (length (py "://")) r'))); [|done].
          rewrite H1. cbn [fmap option_fmap option_map]. by f_equal.
        * rewrite H2. cbn [link_with] in H1 |- *.
          change (startswith (py "s://") (ch "s" :: r'))
            with (startswith (py "://") r').
          change (drop (length (py "s://")) (ch "s" :: r'))
            with (drop (length (py "://")) r').
          by destruct (startswith (py "://") r' &&
                       nonempty (take_while url_cls
                                   (drop (length (py "://")) r'))).
      + rewrite (HR (py "http") (x :: r')) by done.
        cbn [link_with].
        assert (Hx : startswith (py "s://") (x :: r') = false).
        { cbn [py map list_ascii_of_string startswith].
          destruct (N.eqb_spec (N_of_ascii "s") x); [done|done]. }
        by rewrite Hx. }
  set (A1 := seqs [lits (py "http"); Opt (lit (ch "s")); lits (py "://")])
    in *.
  cbn [m]. unfold link_here.
  change [py "https://"; py "http://"; py "www."]
    with ([py "https://"; py "http://"] ++ [py "www."]).
  rewrite link_with_more, <- HA1.
  destruct (m A1 K (Cursor b s) []) as [mt|]; [done|].
  cbn [fmap option_fmap option_map].
  rewrite (HL (py "www.") [] s b []) by done.
  by destruct (link_with [py "www."] s).
Qed.

Lemma search_at_link s : forall b i,
  m_text <$> search_at portfolio_re b s i = first_link s.
Proof.
  induction s as [|x s IH]; intros b i; cbn [search_at first_link];
    rewrite <- (match_here_link i b).
  - by destruct (match_here portfolio_re i (Cursor b [])).
  - destruct (match_here portfolio_re i (Cursor b (x :: s))); [done|].
    apply IH.
Qed.

Lemma re_search_link text :
  m_text <$> re_search portfolio_re text = first_link text.
Proof. apply search_at_link. Qed.

(** X3.  The portfolio is empty or a piece of the text, and holds neither
    "@" nor "linkedin" nor "github"; for plain text it is the first link of
    the text (the first place where "https://", "http://" or "www." stands
    before a character of a link, with all the characters of a link that
    follow), without the white space around it, or empty when that link
    holds one of the three, or when there is no link. *)
Theorem portfolio_is_no_other_link (text : pystr) :
  exists info portfolio,
    extract_personal_info text = Some info /\
    info !! "portfolio" = Some portfolio /\
    contains (py "@") portfolio = false /\
    contains (py "linkedin") portfolio = false /\
    contains (py "github") portfolio = false /\
    empty_or_in text portfolio /\
    (plain text -> portfolio = stated_portfolio text).
Proof.
  destruct (extract_personal_info_keys text) as (info & Hinfo & _).
  exists info.
  destruct (extract_personal_info_steps _ _ Hinfo)
    as (info1 & info3 & loc & H1 & H3 & Hl & ->).
  assert (Hp : exists p, info3 !! "portfolio" = Some p /\
    contains (py "@") p = false /\ contains (py "linkedin") p = false /\
    contains (py "github") p = false /\ empty_or_in text p /\
    p = stated_portfolio text).
  { unfold portfolio_step in H3. unfold stated_portfolio.
    rewrite <- re_search_link.
    set (info2 := set_group0 "github" _ _ _) in *.
    assert (H2 : info2 !! "portfolio" = Some []).
    { unfold info2.
      rewrite !set_group0_other, phone_loop_other, set_group0_other by done.
      rewrite (name_loop_other _ _ _ _ H1); [done|].
      apply (bool_decide_unpack _). by vm_compute. }
    destruct (re_search portfolio_re text) as [mt|] eqn:E.
    - rewrite (portfolio_group_is_match _ _ E) in H3.
      cbn [mbind option_bind] in H3.
      cbn [fmap option_fmap option_map]. cbv zeta.
      destruct (contains (py "@") (strip (m_text mt))) eqn:C1;
        [injection H3 as <-; exists []; by repeat split; try left|].
      destruct (contains (py "linkedin") (strip (m_text mt))) eqn:C2;
        [injection H3 as <-; exists []; by repeat split; try left|].
      destruct (contains (py "github") (strip (m_text mt))) eqn:C3;
        [injection H3 as <-; exists []; by repeat split; try left|].
      cbn [negb andb orb] in H3 |- *. injection H3 as <-.
      exists (strip (m_text mt)). rewrite lookup_insert_eq.
      repeat split; try done.
      right. eapply substring_trans; [apply strip_substring|].
      by apply re_search_substring in E.
    - injection H3 as <-. exists []. by repeat split; try left. }
  destruct Hp as (p & Hp & C1 & C2 & C3 & Hsub & Heq). exists p.
  split; [done|]. split; [|by repeat split].
  destruct (negb (nonempty loc));
    by rewrite ?comma_loop_other, address_loop_other.
Qed.

Lemma portfolio_is_no_other_link_witness :
  let text := text_of_lines
    [py "Jane Doe"; py "jane@example.org, www.jane.org/cv";
     py "https://github.com/jane"] in
  plain text /\
  stated_portfolio text = py "www.jane.org/cv" /\
  exists info,
    extract_personal_info text = Some info /\
    info !! "portfolio" = Some (py "www.jane.org/cv").
Proof.
  intros text.
  assert (Hplain : plain text) by by vm_compute.
  assert (Hst : stated_portfolio text = py "www.jane.org/cv")
    by by vm_compute.
  split; [done|]. split; [done|].
  destruct (portfolio_is_no_other_link text)
    as (info & p & Hinfo & Hp & _ & _ & _ & _ & Heq).
  exists info. split; [exact Hinfo|]. rewrite Hp, (Heq Hplain). by f_equal.
Defined.

Lemma address_loop_same lines info :
  info !! "location" = Some [] -> info !! "address" = Some [] ->
  exists loc,
    address_loop lines info !! "location" = Some loc /\
    address_loop lines info !! "address" = Some loc /\
    (loc = [] \/ exists line, line ∈ lines /\ loc = strip line /\
                              5 < len loc).
Proof.
  intros Hl Ha. induction lines as [|l ls IH]; cbn [address_loop].
  - exists []. repeat split; try done. by left.
  - cbv zeta.
    destruct (any_in address_tokens (lower (strip l)) &&
              Nat.ltb 5 (len (strip l))) eqn:E.
    + exists (strip l). unfold set_location.
      rewrite lookup_insert_ne, !lookup_insert_eq by done.
      repeat split; try done. right. exists l.
      apply andb_true_iff in E as [_ E%Nat.ltb_lt]. split; [by left|done].
    + destruct IH as (loc & H1 & H2 & [->|(line & Hin & -> & Hlen)]).
      * exists []. repeat split; try done. by left.
      * exists (strip line). repeat split; try done. right. exists line.
        split; [by right|done].
Qed.

Lemma comma_loop_same lines info :
  info !! "location" = Some [] -> info !! "address" = Some [] ->
  exists loc,
    comma_loop lines info !! "location" = Some loc /\
    comma_loop lines info !! "address" = Some loc /\
    (loc = [] \/ exists line, line ∈ lines /\ loc = strip line /\
                              8 < len loc /\ contains (py ",") line = true).
Proof.
  intros Hl Ha. induction lines as [|l ls IH]; cbn [comma_loop].
  - exists []. repeat split; try done. by left.
  - match goal with |- context [if ?b then _ else _] =>
      destruct b eqn:E end.
    + exists (strip l). unfold set_location.
      rewrite lookup_insert_ne, !lookup_insert_eq by done.
      repeat split; try done. right. exists l.
      apply andb_true_iff in E as [[E1 E2%Nat.ltb_lt]%andb_true_iff _].
      split; [by left|done].
    + destruct IH as (loc & H1 & H2 & [->|(line & Hin & -> & Hlen)]).
      * exists []. repeat split; try done. by left.
      * exists (strip line). repeat split; try done. right. exists line.
        split; [by right|done].
Qed.

(** X4.  The location and the address are always the same value: empty, or one
    of the first twelve lines trimmed, more than five characters long. *)
Theorem location_and_address_agree (text : pystr) :
  exists info loc,
    extract_personal_info text = Some info /\
    info !! "location" = Some loc /\ info !! "address" = Some loc /\
    (loc = [] \/
     exists line, line ∈ take 12 (split_on nl text) /\ loc = strip line /\
                  5 < len loc /\ substring loc text).
Proof.
  destruct (extract_personal_info_keys text) as (info & Hinfo & _).
  exists info.
  destruct (extract_personal_info_steps _ _ Hinfo)
    as (info1 & info3 & loc0 & H1 & H3 & Hl & ->).
  assert (H30 : info3 !! "location" = Some [] /\ info3 !! "address" = Some []).
  { split; rewrite (portfolio_step_other _ _ _ _ H3) by done;
      rewrite !set_group0_other, phone_loop_other, set_group0_other by done;
      (rewrite (name_loop_other _ _ _ _ H1);
       [done|apply (bool_decide_unpack _); by vm_compute]). }
  destruct H30 as [L3 A3].
  assert (Hsub : forall n line, line ∈ take n (split_on nl text) ->
                                substring (strip line) text).
  { intros n line Hin. eapply substring_trans; [apply strip_substring|].
    eapply split_on_substring. eapply subseteq_take, Hin. }
  destruct (address_loop_same (take 12 (split_on nl text)) info3 L3 A3)
    as (loc & Hl1 & Ha1 & Hloc).
  rewrite Hl1 in Hl. injection Hl as <-.
  destruct loc as [|c loc]; cbn [nonempty negb].
  - destruct (comma_loop_same (take 8 (split_on nl text))
                (address_loop (take 12 (split_on nl text)) info3) Hl1 Ha1)
      as (loc & Hl2 & Ha2 & [->|(line & Hin & -> & Hlen & _)]).
    + exists []. repeat split; try done. by left.
    + exists (strip line). repeat split; try done. right. exists line.
      repeat split; [|lia|by eapply Hsub].
      apply elem_of_take in Hin as (i & Hi & Hlt).
      apply elem_of_take. exists i. split; [done|lia].
  - exists (c :: loc). repeat split; try done. right.
    destruct Hloc as [|(line & Hin & Heq & Hlen)]; [done|].
    exists line. repeat split; try done. rewrite Heq. by eapply Hsub.
Qed.

(** ** Lines of the text *)

Lemma any_in_mono ks a b :
  substring a b -> any_in ks a = true -> any_in ks b = true.
Proof.
  intros Hab. unfold any_in. rewrite !existsb_exists.
  intros (k & Hk & Hc). exists k. split; [done|].
  apply contains_spec. apply contains_spec in Hc.
  by eapply substring_trans.
Qed.

Lemma line_in_text text line :
  line ∈ split_on nl text -> substring (strip line) text.
Proof.
  intros Hin. eapply substring_trans; [apply strip_substring|].
  by eapply split_on_substring.
Qed.

Lemma raw_line_in_text text line :
  line ∈ split_on nl text -> substring line text.
Proof. apply split_on_substring. Qed.

Lemma no_word_no_line ks text line :
  any_in ks (lower text) = false -> line ∈ split_on nl text ->
  any_in ks (lower (strip line)) = false.
Proof.
  intros Hno Hin. destruct (any_in ks (lower (strip line))) eqn:E; [|done].
  rewrite <- Hno. symmetry. eapply any_in_mono; [|done].
  by apply substring_lower, line_in_text.
Qed.

(** ** Trimmed strings *)

Lemma lstrip_head s c r : lstrip s = c :: r -> is_space c = false.
Proof.
  induction s as [|x s IH]; simpl; [done|].
  destruct (is_space x) eqn:E; [done|]. by intros [= <- _].
Qed.

Lemma strip_trimmed s : strip s <> [] -> trimmed (strip s).
Proof.
  unfold strip, rstrip. set (t := lstrip s).
  destruct (lstrip_suffix (rev t)) as [p Hp].
  destruct (lstrip (rev t)) as [|d u] eqn:Eu; [done|]. intros _.
  assert (Ht : t = rev (d :: u) ++ rev p).
  { by rewrite <- rev_app_distr, <- Hp, rev_involutive. }
  pose proof (lstrip_head _ _ _ Eu) as Hd.
  destruct (rev (d :: u)) as [|c w] eqn:Ew.
  { apply (f_equal length) in Ew. rewrite length_rev in Ew. done. }
  exists c, d. repeat split.
  - rewrite <- Ew. simpl. by rewrite last_snoc.
  - apply (lstrip_head s c (w ++ rev p)). by fold t; rewrite Ht.
  - done.
Qed.

Lemma strip_trimmed_sp s : trimmed s -> strip (s ++ py " ") = s.
Proof.
  intros (c & d & Hc & Hd & Sc & Sd).
  apply last_Some in Hd as [s0 ->].
  unfold strip.
  assert (Hl : lstrip ((s0 ++ [d]) ++ py " ") = (s0 ++ [d]) ++ py " ").
  { destruct s0 as [|x s0]; simpl in *.
    - injection Hc as ->. by rewrite Sc.
    - injection Hc as ->. by rewrite Sc. }
  rewrite Hl. unfold rstrip. rewrite rev_app_distr. simpl.
  rewrite rev_app_distr. simpl. rewrite Sd. simpl.
  by rewrite rev_involutive.
Qed.

Lemma join_with_cons sep l l' ls :
  join_with sep (l :: l' :: ls) = l ++ sep ++ join_with sep (l' :: ls).
Proof. done. Qed.

Lemma join_trimmed ls :
  ls <> [] -> Forall trimmed ls -> trimmed (join_with (py " ") ls).
Proof.
  induction ls as [|l ls IH]; [done|]. intros _ Hall.
  apply Forall_cons in Hall as [Hl Hall].
  destruct ls as [|l' ls]; [done|]. rewrite join_with_cons.
  destruct IH as (c' & d' & _ & Hd' & _ & Sd'); [done|done|].
  destruct Hl as (c & d & Hc & _ & Sc & _).
  exists c, d'. repeat split; try done.
  - destruct l; [done|]. done.
  - apply last_Some in Hd' as [w ->]. rewrite !app_assoc.
    by rewrite last_snoc.
Qed.

(** ** The summary is the gathered lines *)

Lemma summary_loop_gathers text lines : forall in_summary summary,
  lines ⊆ split_on nl text ->
  exists ls,
    summary_loop lines in_summary summary =
      summary ++ concat (map (fun l => l ++ py " ") ls) /\
    Forall (summary_line text) ls /\
    (in_summary = false ->
     (forall line, line ∈ lines ->
                   any_in summary_headers (lower (strip line)) = false) ->
     ls = []).
Proof.
  induction lines as [|line rest IH]; intros b s Hsub; cbn [summary_loop].
  { exists []. by rewrite app_nil_r. }
  assert (Hrest : rest ⊆ split_on nl text).
  { intros x Hx. apply Hsub. by right. }
  assert (Hline : line ∈ split_on nl text) by (apply Hsub; by left).
  assert (Hstop : exists ls : list pystr,
    s = s ++ concat (map (fun l => l ++ py " ") ls) /\
    Forall (summary_line text) ls /\ ls = []).
  { exists []. by rewrite app_nil_r. }
  destruct (any_in summary_headers (lower (strip line))) eqn:Eh.
  { destruct (IH true s Hrest) as (ls & -> & Hall & _).
    exists ls. repeat split; try done. intros _ Hno.
    rewrite Hno in Eh; [done|by left]. }
  destruct b.
  - destruct (nonempty (strip line) && Nat.ltb 10 (len (strip line))) eqn:E.
    + destruct (any_in summary_stops (lower (strip line))) eqn:Es.
      { destruct Hstop as (ls & H1 & H2 & _). exists ls. by repeat split. }
      destruct (IH true (s ++ strip line ++ py " ") Hrest)
        as (ls & -> & Hall & _).
      exists (strip line :: ls). split; [|split; [|done]].
      * simpl. by rewrite <- !app_assoc.
      * constructor; [|done].
        apply andb_true_iff in E as [E1 E2%Nat.ltb_lt].
        repeat split; try done.
        -- apply strip_trimmed. by destruct (strip line).
        -- by exists line.
    + destruct (nonempty s).
      { destruct Hstop as (ls & H1 & H2 & _). exists ls. by repeat split. }
      destruct (IH true s Hrest) as (ls & -> & Hall & _).
      exists ls. by repeat split.
  - destruct (IH false s Hrest) as (ls & -> & Hall & Hnil).
    exists ls. repeat split; try done. intros _ Hno. apply Hnil; [done|].
    intros l Hl. apply Hno. by right.
Qed.

Lemma gathered_join ls :
  ls <> [] ->
  concat (map (fun l => l ++ py " ") ls) = join_with (py " ") ls ++ py " ".
Proof.
  induction ls as [|l ls IH]; [done|]. intros _.
  destruct ls as [|l' ls]; [simpl; by rewrite app_nil_r|].
  rewrite join_with_cons. cbn [map concat]. cbn [map concat] in IH.
  rewrite IH by done. by rewrite <- !app_assoc.
Qed.

(** X5.  The summary is the lines gathered, joined by single spaces: each is a
    trimmed line of the text, more than ten characters long, that holds no
    header word and no word that ends the section. *)
Theorem summary_joins_long_lines (text : pystr) :
  exists ls,
    extract_summary text = join_with (py " ") ls /\
    Forall (summary_line text) ls.
Proof.
  unfold extract_summary.
  destruct (summary_loop_gathers text (split_on nl text) false [])
    as (ls & -> & Hall & _); [done|].
  exists ls. split; [|done]. cbn [app].
  destruct ls as [|l ls]; [done|].
  rewrite gathered_join by done. apply strip_trimmed_sp, join_trimmed; [done|].
  eapply Forall_impl; [done|]. by intros x (_ & H & _).
Qed.

(** X6.  A text that holds none of the four header words, in either case, has no
    summary. *)
Theorem no_summary_without_header (text : pystr)
    (no_header : any_in summary_headers (lower text) = false) :
  extract_summary text = [].
Proof.
  unfold extract_summary.
  destruct (summary_loop_gathers text (split_on nl text) false [])
    as (ls & -> & _ & Hnil); [done|].
  rewrite Hnil; [done|done|]. intros line Hin. by eapply no_word_no_line.
Qed.

Lemma no_summary_without_header_witness :
  let text := text_of_lines
    [py "Jane Doe"; py "Builds reliable data pipelines"; py "Experience"] in
  any_in summary_headers (lower text) = false /\ extract_summary text = [].
Proof.
  split; [by vm_compute|]. apply no_summary_without_header. by vm_compute.
Defined.

(** ** White space around a word *)

Lemma space_is_lower x : is_space x = true -> lower_char x = x.
Proof.
  intros H. unfold lower_char. destruct (is_upper x) eqn:E; [|done].
  unfold is_upper, is_space, in_range in *.
  apply andb_true_iff in E as [E1%N.leb_le E2%N.leb_le].
  repeat (apply orb_true_iff in H as [H|H]);
    try (apply andb_true_iff in H as [H1%N.leb_le H2%N.leb_le]);
    try apply N.eqb_eq in H; lia.
Qed.

Lemma lstrip_spaces s :
  exists p, s = p ++ lstrip s /\ Forall (fun c => is_space c = true) p.
Proof.
  induction s as [|x s (p & IH & Hp)]; simpl; [by exists []|].
  destruct (is_space x) eqn:E; [|by exists []].
  exists (x :: p). split; [simpl; by f_equal|]. by constructor.
Qed.

Lemma strip_spaces s :
  exists p q, s = p ++ strip s ++ q /\
              Forall (fun c => is_space c = true) p /\
              Forall (fun c => is_space c = true) q.
Proof.
  unfold strip, rstrip. destruct (lstrip_spaces s) as (p & Hp & Sp).
  destruct (lstrip_spaces (rev (lstrip s))) as (q & Hq & Sq).
  exists p, (rev q). split; [|split; [done|]].
  - rewrite <- rev_app_distr, <- Hq, rev_involutive. done.
  - by apply Forall_rev.
Qed.

Lemma contains_nil_false kw : kw <> [] -> contains kw [] = false.
Proof. by destruct kw. Qed.

Lemma contains_lower_spaces kw q :
  kw <> [] -> Forall (fun c => is_space c = false) kw ->
  Forall (fun c => is_space c = true) q ->
  contains kw (lower q) = false.
Proof.
  intros Hne Hkw. induction 1 as [|x q Hx Hq IH]; [by destruct kw|].
  change (lower (x :: q)) with ([] ++ lower_char x :: lower q).
  rewrite contains_sep; [|rewrite space_is_lower by done|done].
  - by rewrite IH, contains_nil_false.
  - intros Hin. rewrite Forall_forall in Hkw. apply Hkw in Hin. congruence.
Qed.

Lemma contains_lower_pad kw p a q :
  kw <> [] -> Forall (fun c => is_space c = false) kw ->
  Forall (fun c => is_space c = true) p ->
  Forall (fun c => is_space c = true) q ->
  contains kw (lower (p ++ a ++ q)) = contains kw (lower a).
Proof.
  intros Hne Hkw Hp Hq.
  assert (Hsp : forall x, is_space x = true -> lower_char x ∉ kw).
  { intros x Hx Hin. rewrite space_is_lower in Hin by done.
    rewrite Forall_forall in Hkw. apply Hkw in Hin. congruence. }
  assert (Hr : contains kw (lower (a ++ q)) = contains kw (lower a)).
  { destruct Hq as [|x q Hx Hq]; [by rewrite app_nil_r|].
    unfold lower. rewrite map_app. cbn [map].
    rewrite contains_sep by auto.
    fold (lower q). rewrite (contains_lower_spaces kw q) by done.
    by rewrite orb_false_r. }
  induction Hp as [|x p Hx Hp IH]; [done|].
  change (lower ((x :: p) ++ a ++ q))
    with ([] ++ lower_char x :: lower (p ++ a ++ q)).
  rewrite contains_sep by auto. by rewrite contains_nil_false, IH.
Qed.

Lemma contains_strip kw s :
  kw <> [] -> Forall (fun c => is_space c = false) kw ->
  contains kw (lower (strip s)) = contains kw (lower s).
Proof.
  intros Hne Hkw. destruct (strip_spaces s) as (p & q & Hs & Hp & Hq).
  rewrite Hs at 2. by rewrite contains_lower_pad.
Qed.

Lemma any_in_strip ks s :
  Forall (fun kw => kw <> [] /\ Forall (fun c => is_space c = false) kw) ks ->
  any_in ks (lower (strip s)) = any_in ks (lower s).
Proof.
  unfold any_in. induction 1 as [|kw ks [H1 H2] _ IH]; [done|].
  cbn [existsb]. by rewrite IH, contains_strip.
Qed.

Lemma any_in_subset ks ks' s :
  ks ⊆ ks' -> any_in ks s = true -> any_in ks' s = true.
Proof.
  intros Hsub. unfold any_in. rewrite !existsb_exists.
  intros (k & Hk & Hc). exists k. split; [|done].
  apply list_elem_of_In, Hsub, list_elem_of_In, Hk.
Qed.

Lemma any_in_nonempty ks s :
  Forall (fun kw => kw <> []) ks -> any_in ks s = true -> nonempty s = true.
Proof.
  intros Hks. unfold any_in. rewrite existsb_exists.
  intros (k & Hk%list_elem_of_In & Hc).
  rewrite Forall_forall in Hks. specialize (Hks k Hk).
  destruct s; [|done]. by rewrite contains_nil_false in Hc.
Qed.

Ltac plain_words :=
  repeat (constructor; [split; [done|by repeat constructor]|]);
  try constructor.

(** ** Splitting a line at a separator *)

Lemma match_here_sep i b s :
  match_here sep_re i (Cursor b s) =
  match s with
  | x :: s' =>
      if sep_cls x then Some (RMatch i [x] [] (Cursor (Some x) s')) else None
  | [] => None
  end.
Proof.
  unfold match_here, sep_re. cbn [m ahead]. destruct s as [|x s]; [done|].
  destruct (sep_cls x); [|done]. unfold consumed. cbn [ahead length].
  replace (S (length s) - length s) with 1 by lia. done.
Qed.

Lemma scan_sep_step s : forall b gap,
  scan sep_re b s 0 gap =
  match cut_at_sep s with
  | None => ([], rev gap ++ s)
  | Some (pre, c, post) =>
      let '(ms, tl) := scan sep_re (Some c) post 0 [] in
      ((rev gap ++ pre, RMatch 0 [c] [] (Cursor (Some c) post)) :: ms, tl)
  end.
Proof.
  induction s as [|x s IH]; intros b gap; cbn [scan cut_at_sep];
    rewrite match_here_sep.
  - by rewrite app_nil_r.
  - destruct (sep_cls x) eqn:E.
    + cbn [m_text length]. by rewrite app_nil_r.
    + rewrite IH. destruct (cut_at_sep s) as [[[pre c] post]|].
      * cbn [rev]. by rewrite <- app_assoc.
      * cbn [rev]. by rewrite <- app_assoc.
Qed.

Lemma re_split_sep line pre c post :
  cut_at_sep line = Some (pre, c, post) ->
  exists rest, re_split sep_re line = pre :: up_to_next_sep post :: rest.
Proof.
  intros H. unfold re_split, finditer. rewrite scan_sep_step, H.
  rewrite scan_sep_step. unfold up_to_next_sep.
  destruct (cut_at_sep post) as [[[mid c2] post2]|].
  - destruct (scan sep_re (Some c2) post2 0 []) as [ms tl]. simpl. eauto.
  - simpl. eauto.
Qed.

Lemma re_split_no_sep line :
  cut_at_sep line = None -> re_split sep_re line = [line].
Proof.
  intros H. unfold re_split, finditer. by rewrite scan_sep_step, H.
Qed.

Lemma cut_at_sep_app s : forall pre c post,
  cut_at_sep s = Some (pre, c, post) ->
  s = pre ++ c :: post /\ sep_cls c = true /\
  forallb (fun x => negb (sep_cls x)) pre = true.
Proof.
  induction s as [|x s IH]; intros pre c post; cbn [cut_at_sep]; [done|].
  destruct (sep_cls x) eqn:E.
  - by intros [= <- <- <-].
  - destruct (cut_at_sep s) as [[[pre' c'] post']|]; [|done].
    intros [= <- <- <-]. destruct (IH _ _ _ eq_refl) as (-> & H1 & H2).
    repeat split; [done|]. simpl. by rewrite E.
Qed.

(** X7.  An opening line without the whole word "at" is split at every
    separator (one of "|", "-", the bullet, ",", the en dash and the em
    dash): the text before the first is the company, and the text between
    the first and the second, or all the text after the first when there is
    no second, is the title.  A line with no separator either opens no
    entry. *)
Theorem company_and_title_split_at_separator (line : pystr)
    (no_at : cut_at_word None line = None) :
  (forall pre c post,
     cut_at_sep line = Some (pre, c, post) ->
     line = pre ++ c :: post /\ sep_cls c = true /\
     exists job,
       open_job line ∅ = Some job /\
       job !! "company_name" = Some (VStr (strip pre)) /\
       job !! "job_title" = Some (VStr (strip (up_to_next_sep post)))) /\
  (cut_at_sep line = None -> open_job line ∅ = Some ∅).
Proof.
  assert (Hfound : found (re_search at_re line) = false).
  { destruct (found (re_search at_re line)) eqn:E; [|done].
    apply search_at_cut in E as [x E]. congruence. }
  split.
  - intros pre c post Hcut.
    destruct (cut_at_sep_app _ _ _ _ Hcut) as (H1 & H2 & _).
    split; [done|]. split; [done|].
    destruct (re_split_sep _ _ _ _ Hcut) as [rest Hsplit].
    assert (Hs : split_title line ∅ =
                 Some (new_job (strip pre) (strip (up_to_next_sep post)))).
    { unfold split_title. by rewrite Hfound, Hsplit. }
    unfold open_job. rewrite Hs. cbn [mbind option_bind].
    destruct (set_dates_ok line
                (new_job (strip pre) (strip (up_to_next_sep post))))
      as (job & Hjob & _); [right; apply new_job_ok|].
    exists job. split; [done|].
    rewrite !(set_dates_keeps _ _ _ _ Hjob)
      by (apply list_elem_of_In; simpl; tauto).
    done.
  - intros Hnone. unfold open_job, split_title.
    rewrite Hfound, (re_split_no_sep _ Hnone). cbn [length Nat.leb].
    cbn [mbind option_bind]. unfold set_dates.
    destruct (re_search date_re line); [|done].
    by change (dict_truthy (∅ : gmap string pyval)) with false.
Qed.

Lemma company_and_title_split_at_separator_witness :
  let line := py "Acme Corp | Engineer | 2019 - 2021" in
  cut_at_word None line = None /\
  cut_at_sep line
    = Some (py "Acme Corp ", ch "|", py " Engineer | 2019 - 2021") /\
  exists job,
    open_job line ∅ = Some job /\
    job !! "company_name" = Some (VStr (py "Acme Corp")) /\
    job !! "job_title" = Some (VStr (py "Engineer")).
Proof.
  intros line.
  assert (H0 : cut_at_word None line = None) by by vm_compute.
  assert (H : cut_at_sep line
    = Some (py "Acme Corp ", ch "|", py " Engineer | 2019 - 2021"))
    by by vm_compute.
  split; [done|]. split; [done|].
  exact (proj2 (proj2
    (proj1 (company_and_title_split_at_separator line H0) _ _ _ H))).
Defined.

(** ** The loop over the lines of the work section *)

Lemma match_here_bullet_inside i x s :
  match_here bullet_re i (Cursor (Some x) s) = None.
Proof. done. Qed.

Lemma scan_bullet_inside s : forall x skip gap,
  skip = 0 \/ gap = [] ->
  scan bullet_re (Some x) s skip gap = ([], rev gap ++ drop skip s).
Proof.
  induction s as [|y s IH]; intros x skip gap Hg; cbn [scan].
  - destruct skip;
      [by rewrite match_here_bullet_inside; cbn [drop]; rewrite app_nil_r|].
    by destruct Hg as [ | -> ].
  - destruct skip.
    + rewrite match_here_bullet_inside, IH by auto.
      cbn [rev drop]. by rewrite <- app_assoc.
    + destruct Hg as [ | -> ]; [done|]. rewrite IH by auto. done.
Qed.

Lemma re_sub_bullet s : exists n, re_sub bullet_re [] s = drop n s.
Proof.
  unfold re_sub, finditer. destruct s as [|x s]; cbn [scan].
  - exists 0. by destruct (match_here bullet_re 0 (Cursor None [])).
  - destruct (match_here bullet_re 0 (Cursor None (x :: s))) as [mt|].
    + destruct (length (m_text mt)) as [|k].
      * rewrite scan_bullet_inside by auto. by exists 0.
      * rewrite scan_bullet_inside by auto. by exists (S k).
    + rewrite scan_bullet_inside by auto. by exists 0.
Qed.

Lemma drop_substring n (s : pystr) : substring (drop n s) s.
Proof. exists (take n s), []. by rewrite app_nil_r, take_drop. Qed.

Lemma set_dates_other line cur cur' k :
  set_dates line cur = Some cur' ->
  k <> "start_date"%string -> k <> "end_date"%string ->
  k <> "duration"%string ->
  cur' !! k = cur !! k.
Proof.
  unfold set_dates. intros H N1 N2 N3.
  destruct (re_search date_re line) as [mt|]; [|by injection H as <-].
  destruct (dict_truthy cur); [|by injection H as <-].
  set (dates := re_findall1 years_re (m_text mt)) in H.
  destruct (Nat.leb 1 (length dates)).
  - destruct (dates !! 0) as [d0|]; [|done]. cbn [mbind option_bind] in H.
    destruct (Nat.leb 2 (length dates)).
    + destruct (dates !! 1) as [d1|]; [|done]. cbn [mbind option_bind] in H.
      injection H as <-. by rewrite !lookup_insert_ne.
    + cbn [mbind option_bind] in H. injection H as <-.
      by rewrite !lookup_insert_ne.
  - cbn [mbind option_bind] in H. destruct (Nat.leb 2 (length dates)).
    + destruct (dates !! 1) as [d1|]; [|done]. cbn [mbind option_bind] in H.
      injection H as <-. by rewrite !lookup_insert_ne.
    + cbn [mbind option_bind] in H. injection H as <-.
      by rewrite !lookup_insert_ne.
Qed.

Lemma set_dates_duration line cur cur' dur :
  set_dates line cur = Some cur' ->
  cur !! "duration" = Some (VStr dur) ->
  exists dur', cur' !! "duration" = Some (VStr dur') /\
               (dur' = dur \/ substring dur' line).
Proof.
  unfold set_dates. intros H Hd.
  destruct (re_search date_re line) as [mt|] eqn:E;
    [|injection H as <-; eauto].
  destruct (dict_truthy cur); [|injection H as <-; eauto].
  apply re_search_substring in E.
  set (dates := re_findall1 years_re (m_text mt)) in H.
  exists (m_text mt). split; [|by right].
  destruct (Nat.leb 1 (length dates)).
  - destruct (dates !! 0) as [d0|]; [|done]. cbn [mbind option_bind] in H.
    destruct (Nat.leb 2 (length dates)).
    + destruct (dates !! 1) as [d1|]; [|done]. cbn [mbind option_bind] in H.
      injection H as <-. by rewrite lookup_insert_eq.
    + cbn [mbind option_bind] in H. injection H as <-.
      by rewrite lookup_insert_eq.
  - cbn [mbind option_bind] in H. destruct (Nat.leb 2 (length dates)).
    + destruct (dates !! 1) as [d1|]; [|done]. cbn [mbind option_bind] in H.
      injection H as <-. by rewrite lookup_insert_eq.
    + cbn [mbind option_bind] in H. injection H as <-.
      by rewrite lookup_insert_eq.
Qed.

Lemma split_title_fresh line cur' :
  split_title line ∅ = Some cur' ->
  cur' = ∅ \/ exists c t, cur' = new_job c t.
Proof.
  unfold split_title.
  destruct (found (re_search at_re line)).
  - destruct (Nat.leb 2 (length (re_split at_re line))); [|intros [= <-]; auto].
    destruct (re_split at_re line !! 0) as [p0|]; [|done].
    destruct (re_split at_re line !! 1) as [p1|]; [|done].
    cbn [mbind option_bind]. intros [= <-]. eauto.
  - destruct (Nat.leb 2 (length (re_split sep_re line))); [|intros [= <-]; auto].
    destruct (re_split sep_re line !! 0) as [p0|]; [|done].
    destruct (re_split sep_re line !! 1) as [p1|]; [|done].
    cbn [mbind option_bind]. intros [= <-]. eauto.
Qed.

Lemma set_dates_empty line cur' :
  set_dates line ∅ = Some cur' -> cur' = ∅.
Proof.
  unfold set_dates. destruct (re_search date_re line); [|by intros [= <-]].
  change (dict_truthy (∅ : gmap string pyval)) with false. by intros [= <-].
Qed.

Lemma open_job_from text line cur' :
  substring line text ->
  open_job line ∅ = Some cur' -> cur' = ∅ \/ job_from text cur'.
Proof.
  intros Hsub. unfold open_job.
  destruct (split_title line ∅) as [cur1|] eqn:E1; [|done].
  cbn [mbind option_bind]. intros E2.
  destruct (split_title_fresh _ _ E1) as [->|(c & t & ->)].
  { left. by eapply set_dates_empty. }
  right. split.
  - exists []. split; [|constructor].
    by rewrite (set_dates_other _ _ _ _ E2).
  - destruct (set_dates_duration _ _ _ [] E2 eq_refl) as (dur & Hd & Hdur).
    exists dur. split; [done|]. destruct Hdur as [->|Hdur]; [by left|].
    right. by eapply substring_trans.
Qed.

Lemma add_responsibility_from text line cur cur' :
  substring line text -> job_from text cur ->
  add_responsibility line cur = Some cur' -> job_from text cur'.
Proof.
  intros Hsub [(l & Hl & Hall) (dur & Hd & Hdur)]. unfold add_responsibility.
  match goal with |- context [if ?b then _ else _] => destruct b end;
    [|intros [= <-]; split; eauto].
  destruct (Nat.ltb 10 (len (re_sub bullet_re [] line))) eqn:E;
    [|intros [= <-]; split; eauto].
  rewrite Hl. cbn [mbind option_bind as_list]. intros [= <-]. split.
  - eexists. rewrite lookup_insert_eq. split; [done|].
    apply Forall_app. split; [done|]. constructor; [|constructor].
    apply Nat.ltb_lt in E. split; [done|].
    destruct (re_sub_bullet line) as [n ->].
    eapply substring_trans; [apply drop_substring|done].
  - exists dur. by rewrite lookup_insert_ne.
Qed.

Lemma work_loop_from text lines : forall experience cur in_section,
  lines ⊆ split_on nl text ->
  Forall (job_from text) experience -> cur = ∅ \/ job_from text cur ->
  forall experience' cur',
    work_loop lines experience cur in_section = Some (experience', cur') ->
    Forall (job_from text) experience' /\ (cur' = ∅ \/ job_from text cur').
Proof.
  induction lines as [|line rest IH]; intros experience cur ins Hsub He Hc
    ex' cur'; cbn [work_loop]; [by intros [= <- <-]|].
  assert (Hrest : rest ⊆ split_on nl text).
  { intros x Hx. apply Hsub. by right. }
  assert (Hline : substring (strip line) text).
  { apply line_in_text, Hsub. by left. }
  destruct (negb (nonempty (strip line))); [by apply IH|].
  destruct (any_in experience_headers (lower (strip line))); [by apply IH|].
  destruct ins; [|by apply IH].
  destruct (any_in experience_stops (lower (strip line)));
    [by intros [= <- <-]|].
  destruct (negb (dict_truthy cur) && Nat.ltb 5 (len (strip line))) eqn:E.
  { apply andb_true_iff in E as [E%negb_true_iff _].
    apply dict_truthy_false in E as ->.
    destruct (open_job (strip line) ∅) as [cur1|] eqn:E1; [|done].
    cbn [mbind option_bind]. apply IH; [done|done|].
    by eapply open_job_from. }
  destruct (dict_truthy cur) eqn:Ht; [|by apply IH].
  apply dict_truthy_true in Ht. destruct Hc as [->|Hc]; [done|].
  destruct (add_responsibility (strip line) cur) as [cur1|] eqn:E1; [|done].
  cbn [mbind option_bind].
  pose proof (add_responsibility_from _ _ _ _ Hline Hc E1) as Hc1.
  destruct rest as [|next rest']; [apply IH; auto|].
  destruct (any_in [py "education"; py "skills"] (lower next)).
  - apply IH; [done| |by left]. apply Forall_app. split; [done|].
    by constructor.
  - apply IH; auto.
Qed.

(** X8.  Every responsibility of a work entry has more than ten characters and
    stands in the text, and the duration of an entry is empty or stands in
    the text. *)
Theorem work_entries_come_from_text (text : pystr) :
  exists jobs,
    extract_work_experience text = Some jobs /\
    Forall (job_from text) jobs.
Proof.
  destruct (extract_work_experience_ok text) as (jobs & Hjobs & _).
  exists jobs. split; [done|]. revert Hjobs. unfold extract_work_experience.
  destruct (work_loop (split_on nl text) [] ∅ false) as [[ex cur]|] eqn:E;
    [|done].
  cbn [mbind option_bind].
  destruct (work_loop_from text _ _ _ _ (reflexivity _) (Forall_nil_2 _)
              (or_introl eq_refl) _ _ E) as [He Hc].
  destruct (dict_truthy cur) eqn:Ht; intros [= <-]; [|done].
  apply dict_truthy_true in Ht. destruct Hc as [->|Hc]; [done|].
  apply Forall_app. split; [done|]. by constructor.
Qed.

Lemma work_loop_outside lines : forall experience cur,
  (forall line, line ∈ lines ->
                any_in experience_headers (lower (strip line)) = false) ->
  work_loop lines experience cur false = Some (experience, cur).
Proof.
  induction lines as [|line rest IH]; intros experience cur Hno;
    cbn [work_loop]; [done|].
  rewrite (Hno line) by by left.
  assert (Hrest : work_loop rest experience cur false = Some (experience, cur)).
  { apply IH. intros l Hl. apply Hno. by right. }
  by destruct (negb (nonempty (strip line))).
Qed.

(** X9.  A plain text that holds none of the header words of the work
    section, in either case, has no work entries. *)
Theorem no_work_without_header (text : pystr) (in_model : plain text)
    (no_header : any_in experience_headers (lower text) = false) :
  extract_work_experience text = Some [].
Proof.
  unfold extract_work_experience. rewrite work_loop_outside; [done|].
  intros line Hin. by eapply no_word_no_line.
Qed.

Lemma no_work_without_header_witness :
  let text := text_of_lines
    [py "Jane Doe"; py "Engineer at Acme 2019 - 2021"; py "Skills"] in
  plain text /\
  any_in experience_headers (lower text) = false /\
  extract_work_experience text = Some [].
Proof.
  split; [by vm_compute|]. split; [by vm_compute|].
  apply no_work_without_header; by vm_compute.
Defined.

(** After an entry is closed the line that follows ends the loop, unless it
    is a header too. *)
Lemma work_loop_closed next rest experience :
  any_in [py "education"; py "skills"] (lower next) = true ->
  any_in experience_headers (lower (strip next)) = false ->
  work_loop (next :: rest) experience ∅ true = Some (experience, ∅).
Proof.
  intros Hc Hh. cbn [work_loop]. rewrite Hh.
  assert (Hs : any_in [py "education"; py "skills"] (lower (strip next))
               = true).
  { rewrite any_in_strip; [done|]. plain_words. }
  assert (Hn : nonempty (strip next) = true).
  { pose proof (any_in_nonempty [py "education"; py "skills"] _
                  ltac:(by repeat constructor) Hs) as Hn.
    by destruct (strip next). }
  rewrite Hn.
  cbn [negb].
  rewrite (any_in_subset [py "education"; py "skills"] experience_stops);
    [done| |done].
  intros x Hx. unfold experience_stops.
  apply elem_of_cons in Hx as [->|Hx]; [by left|].
  apply list_elem_of_singleton in Hx as ->. right. by left.
Qed.

Lemma work_loop_one lines : forall cur in_section experience' cur',
  no_header_closes experience_headers [py "education"; py "skills"] lines ->
  work_loop lines [] cur in_section = Some (experience', cur') ->
  experience' = [] \/ (length experience' = 1 /\ cur' = ∅).
Proof.
  induction lines as [|line rest IH]; intros cur ins ex' cur' Hno;
    cbn [work_loop]; [intros [= <- <-]; by left|].
  assert (Hrest : no_header_closes experience_headers
                    [py "education"; py "skills"] rest).
  { intros l Hl. apply Hno. by right. }
  destruct (negb (nonempty (strip line))); [by apply IH|].
  destruct (any_in experience_headers (lower (strip line))); [by apply IH|].
  destruct ins; [|by apply IH].
  destruct (any_in experience_stops (lower (strip line)));
    [intros [= <- <-]; by left|].
  destruct (negb (dict_truthy cur) && Nat.ltb 5 (len (strip line))).
  { destruct (open_job (strip line) cur) as [cur1|]; [|done].
    cbn [mbind option_bind]. by apply IH. }
  destruct (dict_truthy cur); [|by apply IH].
  destruct (add_responsibility (strip line) cur) as [cur1|]; [|done].
  cbn [mbind option_bind].
  destruct rest as [|next rest']; [by apply IH|].
  destruct (any_in [py "education"; py "skills"] (lower next)) eqn:En;
    [|by apply IH].
  destruct (any_in experience_headers (lower (strip next))) eqn:Eh.
  { rewrite (Hrest next) in En; [done|by left|done]. }
  rewrite work_loop_closed by done. intros [= <- <-]. by right.
Qed.

(** X10.  For plain text: unless some line holds both a header word of the
    work section and one of "education" and "skills", at most one work
    entry is returned: an entry is closed only before a line with one of
    the two words, and that line ends the loop. *)
Theorem at_most_one_work_entry (text : pystr) (in_model : plain text)
    (apart : no_header_closes experience_headers
               [py "education"; py "skills"] (split_on nl text)) :
  exists jobs,
    extract_work_experience text = Some jobs /\ length jobs <= 1.
Proof.
  destruct (extract_work_experience_ok text) as (jobs & Hjobs & _).
  exists jobs. split; [done|]. revert Hjobs. unfold extract_work_experience.
  destruct (work_loop (split_on nl text) [] ∅ false) as [[ex cur]|] eqn:E;
    [|done].
  cbn [mbind option_bind].
  destruct (work_loop_one _ _ _ _ _ apart E) as [->|[Hl ->]].
  - destruct (dict_truthy cur); intros [= <-]; simpl; lia.
  - change (dict_truthy (∅ : gmap string pyval)) with false.
    intros [= <-]. lia.
Qed.

Lemma at_most_one_work_entry_witness :
  let text := text_of_lines
    [py "Experience"; py "Engineer at Acme 2015 - 2018";
     py "Built the billing system of the company";
     py "Manager at Initech 2018 - 2021";
     py "Led a team of twelve engineers"; py "Education"] in
  plain text /\
  no_header_closes experience_headers [py "education"; py "skills"]
    (split_on nl text) /\
  exists jobs, extract_work_experience text = Some jobs /\ length jobs <= 1.
Proof.
  intros text.
  assert (Hplain : plain text) by by vm_compute.
  assert (H : no_header_closes experience_headers
                [py "education"; py "skills"] (split_on nl text)).
  { unfold no_header_closes.
    apply (proj1 (Forall_forall (fun line =>
      any_in experience_headers (lower (strip line)) = true ->
      any_in [py "education"; py "skills"] (lower line) = false) _)).
    let l := eval vm_compute in (split_on nl text) in
    change (split_on nl text) with l.
    repeat constructor; by vm_compute. }
  split; [done|]. split; [done|].
  exact (at_most_one_work_entry text Hplain H).
Defined.

(** ** The education entries *)

Lemma year_re_text i c mt :
  match_here year_re i c = Some mt -> full_year (m_text mt).
Proof.
  destruct c as [b s]. unfold match_here, year_re. rewrite m_seq, m_grp.
  set (k0 := fun c' g => Some (RMatch i (consumed (Cursor b s) c') g c')).
  assert (Hyear : forall w,
            m (lits w)
              (fun c' g' => m (Rep 2 is_digit) k0 c'
                              ((1, consumed (Cursor b s) c') :: g'))
              (Cursor b s) [] = Some mt ->
            exists d1 d2, m_text mt = w ++ [d1; d2] /\
                          is_digit d1 = true /\ is_digit d2 = true).
  { intros w H. apply m_lits_inv in H as (rest & b' & -> & H).
    cbn [Rep m ahead] in H.
    destruct rest as [|d1 rest]; [done|].
    destruct (is_digit d1) eqn:E1; [|done].
    destruct rest as [|d2 rest]; [done|].
    destruct (is_digit d2) eqn:E2; [|done].
    unfold k0 in H. injection H as <-. exists d1, d2. cbn [m_text].
    split; [|done].
    change (w ++ d1 :: d2 :: rest) with (w ++ [d1; d2] ++ rest).
    rewrite app_assoc. apply consumed_app. }
  intros [H|H]%m_alt_inv; apply Hyear in H as (d1 & d2 & H & H1 & H2).
  - exists (py "19"), d1, d2. repeat split; try done. by left.
  - exists (py "20"), d1, d2. repeat split; try done. right. by left.
Qed.

Lemma year_search_text s mt :
  re_search year_re s = Some mt -> full_year (m_text mt).
Proof. intros (b & s' & i & H)%search_at_inv. by eapply year_re_text. Qed.

Lemma gpa_group_shape s mt g :
  re_search gpa_re s = Some mt -> group 1 mt = Some g -> gpa_shape g.
Proof.
  intros (b & s' & i & H)%search_at_inv.
  unfold match_here, gpa_re, seqs in H. cbn [foldr] in H.
  do 4 (rewrite m_seq in H; apply m_inv in H as (? & ? & H)).
  rewrite m_seq, m_grp in H.
  match type of H with m _ _ ?c _ = _ => destruct c as [b0 s0] end.
  cbn [foldr m ahead Opt lit] in H.
  destruct s0 as [|d s0]; [done|]. destruct (is_digit d) eqn:Ed; [|done].
  destruct s0 as [|p s0]; [done|].
  destruct (N.eqb_spec (ch ".") p) as [<-|]; [|done].
  destruct s0 as [|f1 s0]; [done|]. destruct (is_digit f1) eqn:E1; [|done].
  assert (H3 : forall b1, consumed (Cursor b0 (d :: ch "." :: f1 :: s0))
                            (Cursor b1 s0) = [d; ch "."; f1]).
  { intros b1. apply (consumed_app b0 b1 [d; ch "."; f1] s0). }
  destruct s0 as [|f2 s0].
  - rewrite H3 in H. injection H as <-. unfold group. cbn.
    intros [= <-]. exists d, [f1]. simpl. rewrite E1. repeat split; try done.
    all: lia.
  - destruct (is_digit f2) eqn:E2.
    + assert (H4 : forall b1, consumed (Cursor b0 (d :: ch "." :: f1 :: f2 :: s0))
                            (Cursor b1 s0) = [d; ch "."; f1; f2]).
      { intros b1. apply (consumed_app b0 b1 [d; ch "."; f1; f2] s0). }
      rewrite H4 in H. injection H as <-. unfold group. cbn.
      intros [= <-]. exists d, [f1; f2]. simpl. rewrite E1, E2.
      repeat split; try done. all: lia.
    + rewrite H3 in H. injection H as <-. unfold group. cbn.
      intros [= <-]. exists d, [f1]. simpl. rewrite E1.
      repeat split; try done. all: lia.
Qed.

Lemma open_edu_from text line cur' :
  trimmed_line_of text line ->
  open_edu line ∅ = Some cur' -> cur' = ∅ \/ edu_from text cur'.
Proof.
  intros Hline. unfold open_edu.
  destruct (any_in degree_words (lower line)) eqn:Ed;
    [|intros [= <-]; by left].
  set (e1 := if any_in school_words (lower line)
             then <["school_name" := line]> new_edu
             else <["degree" := line]> new_edu).
  assert (H1 : edu_from text e1).
  { unfold e1. destruct (any_in school_words (lower line)) eqn:Es.
    - repeat split; try done.
      + exists []. split; [done|by left].
      + exists line. rewrite lookup_insert_eq. split; [done|]. by right.
      + exists []. split; [done|by left].
      + exists []. split; [done|by left].
    - repeat split; try done.
      + exists line. rewrite lookup_insert_eq. split; [done|]. by right.
      + exists []. split; [done|by left].
      + exists []. split; [done|by left].
      + exists []. split; [done|by left]. }
  clearbody e1.
  set (e2 := match re_search year_re line with
             | Some year_match =>
                 <["end_date" := m_text year_match ++ py "-01"]> e1
             | None => e1
             end).
  assert (H2 : edu_from text e2).
  { unfold e2. destruct (re_search year_re line) as [mt|] eqn:Ey; [|done].
    destruct H1 as (M & S & D & Sc & _ & G).
    split; [by rewrite lookup_insert_ne|].
    split; [by rewrite lookup_insert_ne|].
    split; [by rewrite lookup_insert_ne|].
    split; [by rewrite lookup_insert_ne|].
    split; [|by rewrite lookup_insert_ne].
    eexists. rewrite lookup_insert_eq. split; [done|]. right.
    eexists. split; [done|]. by eapply year_search_text. }
  clearbody e2.
  destruct (re_search gpa_re line) as [mt|] eqn:Eg;
    [|intros [= <-]; by right].
  destruct (group 1 mt) as [g|] eqn:E1; [|done].
  cbn [mbind option_bind]. intros [= <-]. right.
  destruct H2 as (M & S & D & Sc & Ed' & _).
  split; [by rewrite lookup_insert_ne|].
  split; [by rewrite lookup_insert_ne|].
  split; [by rewrite lookup_insert_ne|].
  split; [by rewrite lookup_insert_ne|].
  split; [by rewrite lookup_insert_ne|].
  exists g. rewrite lookup_insert_eq. split; [done|]. right.
  by eapply gpa_group_shape.
Qed.

Lemma edu_loop_from text lines : forall education cur in_section,
  lines ⊆ split_on nl text ->
  Forall (edu_from text) education -> cur = ∅ \/ edu_from text cur ->
  forall education' cur',
    edu_loop lines education cur in_section = Some (education', cur') ->
    Forall (edu_from text) education' /\ (cur' = ∅ \/ edu_from text cur').
Proof.
  induction lines as [|line rest IH]; intros education cur ins Hsub He Hc
    ex' cur'; cbn [edu_loop]; [by intros [= <- <-]|].
  assert (Hrest : rest ⊆ split_on nl text).
  { intros x Hx. apply Hsub. by right. }
  assert (Hline : trimmed_line_of text (strip line)).
  { exists line. split; [|done]. apply Hsub. by left. }
  destruct (negb (nonempty (strip line))); [by apply IH|].
  destruct (any_in education_headers (lower (strip line))); [by apply IH|].
  destruct ins; [|by apply IH].
  destruct (any_in education_stops (lower (strip line)));
    [by intros [= <- <-]|].
  destruct (negb (dict_truthy cur) && Nat.ltb 5 (len (strip line))) eqn:E.
  { apply andb_true_iff in E as [E%negb_true_iff _].
    apply dict_truthy_false in E as ->.
    destruct (open_edu (strip line) ∅) as [cur1|] eqn:E1; [|done].
    cbn [mbind option_bind]. apply IH; [done|done|].
    by eapply open_edu_from. }
  destruct (dict_truthy cur) eqn:Ht; [|by apply IH].
  apply dict_truthy_true in Ht. destruct Hc as [->|Hc]; [done|].
  destruct (cur !! "school_name") as [school|] eqn:Es; [|done].
  cbn [mbind option_bind].
  set (cur1 := if negb (nonempty school) &&
                  any_in school_words (lower (strip line))
               then <["school_name" := strip line]> cur else cur).
  assert (Hc1 : edu_from text cur1).
  { unfold cur1.
    destruct (negb (nonempty school) &&
              any_in school_words (lower (strip line))) eqn:E1; [|done].
    apply andb_true_iff in E1 as [_ E1].
    destruct Hc as (M & S & D & _ & Ed & G).
    split; [by rewrite lookup_insert_ne|].
    split; [by rewrite lookup_insert_ne|].
    split; [by rewrite lookup_insert_ne|].
    split; [|by rewrite !lookup_insert_ne].
    exists (strip line). rewrite lookup_insert_eq. split; [done|]. by right. }
  clearbody cur1.
  destruct rest as [|next rest']; [apply IH; auto|].
  match goal with |- context [if ?b then _ else _] => destruct b end.
  - apply IH; [done| |by left]. apply Forall_app. split; [done|].
    by constructor.
  - apply IH; auto.
Qed.

(** X11.  For plain text, every education entry has an empty major and an
    empty start date; its degree is empty or a line with a degree word and
    no school word, its school empty or a line with a school word; its end
    date is empty or a year of four digits and "-01"; its GPA is empty or a
    digit, a point and one or two digits. *)
Theorem education_entries_shape (text : pystr) (in_model : plain text) :
  exists edus,
    extract_education text = Some edus /\ Forall (edu_from text) edus.
Proof.
  destruct (extract_education_ok text) as (edus & Hedus & _).
  exists edus. split; [done|]. revert Hedus. unfold extract_education.
  destruct (edu_loop (split_on nl text) [] ∅ false) as [[ex cur]|] eqn:E;
    [|done].
  cbn [mbind option_bind].
  destruct (edu_loop_from text _ _ _ _ (reflexivity _) (Forall_nil_2 _)
              (or_introl eq_refl) _ _ E) as [He Hc].
  destruct (dict_truthy cur) eqn:Ht; intros [= <-]; [|done].
  apply dict_truthy_true in Ht. destruct Hc as [->|Hc]; [done|].
  apply Forall_app. split; [done|]. by constructor.
Qed.

Lemma education_entries_shape_witness :
  let text := text_of_lines
    [py "Education"; py "Bachelor of Science 2014, GPA: 3.75";
     py "Example University"; py "Skills"] in
  plain text /\
  exists edus,
    extract_education text = Some edus /\ length edus = 1 /\
    Forall (edu_from text) edus.
Proof.
  intros text.
  assert (Hplain : plain text) by by vm_compute.
  assert (Hlen : length <$> extract_education text = Some 1)
    by by vm_compute.
  split; [done|].
  destruct (education_entries_shape text Hplain) as (edus & He & Hall).
  exists edus. split; [exact He|]. split; [|exact Hall].
  rewrite He in Hlen. by injection Hlen.
Defined.

Lemma edu_loop_outside lines : forall education cur,
  (forall line, line ∈ lines ->
                any_in education_headers (lower (strip line)) = false) ->
  edu_loop lines education cur false = Some (education, cur).
Proof.
  induction lines as [|line rest IH]; intros education cur Hno;
    cbn [edu_loop]; [done|].
  rewrite (Hno line) by by left.
  assert (Hrest : edu_loop rest education cur false = Some (education, cur)).
  { apply IH. intros l Hl. apply Hno. by right. }
  by destruct (negb (nonempty (strip line))).
Qed.

(** X12.  A text that holds none of the header words of the education section,
    in either case, has no education entries. *)
Theorem no_education_without_header (text : pystr)
    (no_header : any_in education_headers (lower text) = false) :
  extract_education text = Some [].
Proof.
  unfold extract_education. rewrite edu_loop_outside; [done|].
  intros line Hin. by eapply no_word_no_line.
Qed.

Lemma no_education_without_header_witness :
  let text := text_of_lines
    [py "Jane Doe"; py "Bachelor of Science, Example University 2014";
     py "Skills"] in
  any_in education_headers (lower text) = false /\
  extract_education text = Some [].
Proof.
  split; [by vm_compute|]. apply no_education_without_header.
  by vm_compute.
Defined.

Lemma edu_loop_closed next rest education :
  any_in [py "experience"; py "skills"; py "projects"] (lower next) = true ->
  any_in education_headers (lower (strip next)) = false ->
  edu_loop (next :: rest) education ∅ true = Some (education, ∅).
Proof.
  intros Hc Hh. cbn [edu_loop]. rewrite Hh.
  assert (Hs : any_in [py "experience"; py "skills"; py "projects"]
                 (lower (strip next)) = true).
  { rewrite any_in_strip; [done|]. plain_words. }
  assert (Hn : nonempty (strip next) = true).
  { pose proof (any_in_nonempty
                  [py "experience"; py "skills"; py "projects"] _
                  ltac:(by repeat constructor) Hs) as Hn.
    by destruct (strip next). }
  rewrite Hn. cbn [negb].
  rewrite (any_in_subset [py "experience"; py "skills"; py "projects"]
             education_stops); [done| |done].
  intros x Hx. unfold education_stops.
  repeat (apply elem_of_cons in Hx as [->|Hx]);
    [by left|right; by left|right; right; by left|by apply elem_of_nil in Hx].
Qed.

Lemma edu_loop_one lines : forall cur in_section education' cur',
  no_header_closes education_headers
    [py "experience"; py "skills"; py "projects"] lines ->
  edu_loop lines [] cur in_section = Some (education', cur') ->
  education' = [] \/ (length education' = 1 /\ cur' = ∅).
Proof.
  induction lines as [|line rest IH]; intros cur ins ex' cur' Hno;
    cbn [edu_loop]; [intros [= <- <-]; by left|].
  assert (Hrest : no_header_closes education_headers
                    [py "experience"; py "skills"; py "projects"] rest).
  { intros l Hl. apply Hno. by right. }
  destruct (negb (nonempty (strip line))); [by apply IH|].
  destruct (any_in education_headers (lower (strip line))); [by apply IH|].
  destruct ins; [|by apply IH].
  destruct (any_in education_stops (lower (strip line)));
    [intros [= <- <-]; by left|].
  destruct (negb (dict_truthy cur) && Nat.ltb 5 (len (strip line))).
  { destruct (open_edu (strip line) cur) as [cur1|]; [|done].
    cbn [mbind option_bind]. by apply IH. }
  destruct (dict_truthy cur); [|by apply IH].
  destruct (cur !! "school_name") as [school|]; [|done].
  cbn [mbind option_bind].
  destruct rest as [|next rest']; [by apply IH|].
  destruct (any_in [py "experience"; py "skills"; py "projects"]
              (lower next)) eqn:En; [|by apply IH].
  destruct (any_in education_headers (lower (strip next))) eqn:Eh.
  { rewrite (Hrest next) in En; [done|by left|done]. }
  rewrite edu_loop_closed by done. intros [= <- <-]. by right.
Qed.

(** X13.  For plain text: unless some line holds both a header word of the
    education section and one of "experience", "skills" and "projects", at
    most one education entry is returned. *)
Theorem at_most_one_education_entry (text : pystr) (in_model : plain text)
    (apart : no_header_closes education_headers
               [py "experience"; py "skills"; py "projects"]
               (split_on nl text)) :
  exists edus,
    extract_education text = Some edus /\ length edus <= 1.
Proof.
  destruct (extract_education_ok text) as (edus & Hedus & _).
  exists edus. split; [done|]. revert Hedus. unfold extract_education.
  destruct (edu_loop (split_on nl text) [] ∅ false) as [[ex cur]|] eqn:E;
    [|done].
  cbn [mbind option_bind].
  destruct (edu_loop_one _ _ _ _ _ apart E) as [->|[Hl ->]].
  - destruct (dict_truthy cur); intros [= <-]; simpl; lia.
  - change (dict_truthy (∅ : gmap string pystr)) with false.
    intros [= <-]. lia.
Qed.

Lemma at_most_one_education_entry_witness :
  let text := text_of_lines
    [py "Education"; py "Master of Science in Physics 2016";
     py "Example University"; py "Bachelor of Science in Physics 2014";
     py "Skills"] in
  plain text /\
  no_header_closes education_headers
    [py "experience"; py "skills"; py "projects"] (split_on nl text) /\
  exists edus, extract_education text = Some edus /\ length edus <= 1.
Proof.
  intros text.
  assert (Hplain : plain text) by by vm_compute.
  assert (H : no_header_closes education_headers
                [py "experience"; py "skills"; py "projects"]
                (split_on nl text)).
  { unfold no_header_closes.
    apply (proj1 (Forall_forall (fun line =>
      any_in education_headers (lower (strip line)) = true ->
      any_in [py "experience"; py "skills"; py "projects"] (lower line)
        = false) _)).
    let l := eval vm_compute in (split_on nl text) in
    change (split_on nl text) with l.
    repeat constructor; by vm_compute. }
  split; [done|]. split; [done|].
  exact (at_most_one_education_entry text Hplain H).
Defined.

(** ** The project entries *)

Lemma new_project_from text line :
  trimmed_line_of text line -> 5 < len line < 100 ->
  project_from text (new_project line).
Proof.
  intros Hl Hlen. split; [by exists line|]. repeat split.
  exists [], []. repeat split; try done. by left.
Qed.

Lemma describe_project_from text line cur cur' :
  trimmed_line_of text line -> project_from text cur ->
  describe_project line cur = Some cur' -> project_from text cur'.
Proof.
  intros Hline (Ht & Hr & Hd & descr & l & Hde & Hl & Hdescr & Hall & Hnil).
  unfold describe_project.
  destruct (Nat.ltb 20 (len line)) eqn:E;
    [|intros [= <-]; repeat split; eauto 10].
  apply Nat.ltb_lt in E. rewrite Hde. cbn [mbind option_bind truthy].
  destruct descr as [|c descr]; cbn [nonempty negb].
  - intros [= <-]. split; [by rewrite lookup_insert_ne|].
    split; [by rewrite lookup_insert_ne|].
    split; [by rewrite lookup_insert_ne|].
    exists line, l. rewrite lookup_insert_eq, lookup_insert_ne by done.
    repeat split; try done; [by right|intros _; by apply Hnil].
  - rewrite Hl. cbn [mbind option_bind as_list]. intros [= <-].
    split; [by rewrite lookup_insert_ne|].
    split; [by rewrite lookup_insert_ne|].
    split; [by rewrite lookup_insert_ne|].
    eexists (c :: descr), _.
    rewrite lookup_insert_eq, lookup_insert_ne by done.
    repeat split; try done.
    apply Forall_app. split; [done|]. apply Forall_forall.
    by intros t [_ Hin]%list_elem_of_filter.
Qed.

Lemma project_loop_from text lines : forall projects cur in_section,
  lines ⊆ split_on nl text ->
  Forall (project_from text) projects -> cur = ∅ \/ project_from text cur ->
  forall projects' cur',
    project_loop lines projects cur in_section = Some (projects', cur') ->
    Forall (project_from text) projects' /\
    (cur' = ∅ \/ project_from text cur').
Proof.
  induction lines as [|line rest IH]; intros projects cur ins Hsub He Hc
    ex' cur'; cbn [project_loop]; [by intros [= <- <-]|].
  assert (Hrest : rest ⊆ split_on nl text).
  { intros x Hx. apply Hsub. by right. }
  assert (Hline : trimmed_line_of text (strip line)).
  { exists line. split; [|done]. apply Hsub. by left. }
  destruct (negb (nonempty (strip line))); [by apply IH|].
  destruct (any_in project_headers (lower (strip line))); [by apply IH|].
  destruct ins; [|by apply IH].
  destruct (any_in project_stops (lower (strip line)));
    [by intros [= <- <-]|].
  destruct (negb (dict_truthy cur) && Nat.ltb 5 (len (strip line)) &&
            Nat.ltb (len (strip line)) 100) eqn:E.
  { apply andb_true_iff in E as [[_ E1%Nat.ltb_lt]%andb_true_iff E2%Nat.ltb_lt].
    apply IH; [done|done|]. right. by apply new_project_from. }
  destruct (dict_truthy cur) eqn:Ht; [|by apply IH].
  apply dict_truthy_true in Ht. destruct Hc as [->|Hc]; [done|].
  destruct (describe_project (strip line) cur) as [cur1|] eqn:E1; [|done].
  cbn [mbind option_bind].
  pose proof (describe_project_from _ _ _ _ Hline Hc E1) as Hc1.
  destruct rest as [|next rest']; [apply IH; auto|].
  match goal with |- context [if ?b then _ else _] => destruct b end.
  - apply IH; [done| |by left]. apply Forall_app. split; [done|].
    by constructor.
  - apply IH; auto.
Qed.

(** X14.  Every project entry has a line of six to ninety-nine characters as its
    title, an empty role and an empty duration; its description is empty or
    a line of more than twenty characters; its technologies are among the
    seven words looked for, and there are none while the description is
    empty. *)
Theorem project_entries_shape (text : pystr) :
  exists ps,
    extract_projects text = Some ps /\ Forall (project_from text) ps.
Proof.
  destruct (extract_projects_ok text) as (ps & Hps & _).
  exists ps. split; [done|]. revert Hps. unfold extract_projects.
  destruct (project_loop (split_on nl text) [] ∅ false) as [[ex cur]|] eqn:E;
    [|done].
  cbn [mbind option_bind].
  destruct (project_loop_from text _ _ _ _ (reflexivity _) (Forall_nil_2 _)
              (or_introl eq_refl) _ _ E) as [He Hc].
  destruct (dict_truthy cur) eqn:Ht; intros [= <-]; [|done].
  apply dict_truthy_true in Ht. destruct Hc as [->|Hc]; [done|].
  apply Forall_app. split; [done|]. by constructor.
Qed.

Lemma project_loop_outside lines : forall projects cur,
  (forall line, line ∈ lines ->
                any_in project_headers (lower (strip line)) = false) ->
  project_loop lines projects cur false = Some (projects, cur).
Proof.
  induction lines as [|line rest IH]; intros projects cur Hno;
    cbn [project_loop]; [done|].
  rewrite (Hno line) by by left.
  assert (Hrest : project_loop rest projects cur false = Some (projects, cur)).
  { apply IH. intros l Hl. apply Hno. by right. }
  by destruct (negb (nonempty (strip line))).
Qed.

(** X15.  A text that holds neither "projects" nor "portfolio", in either case,
    has no project entries. *)
Theorem no_projects_without_header (text : pystr)
    (no_header : any_in project_headers (lower text) = false) :
  extract_projects text = Some [].
Proof.
  unfold extract_projects. rewrite project_loop_outside; [done|].
  intros line Hin. by eapply no_word_no_line.
Qed.

Lemma no_projects_without_header_witness :
  let text := text_of_lines
    [py "Jane Doe"; py "Inventory tracker"; py "Skills"] in
  any_in project_headers (lower text) = false /\
  extract_projects text = Some [].
Proof.
  split; [by vm_compute|]. apply no_projects_without_header.
  by vm_compute.
Defined.

(** ** The additional lists *)

Lemma append_to_items (P : pystr -> Prop) key x info info' :
  (forall k l, info !! k = Some l -> Forall P l) -> P x ->
  append_to key x info = Some info' ->
  forall k l, info' !! k = Some l -> Forall P l.
Proof.
  intros Hall Hx. unfold append_to.
  destruct (info !! key) as [l0|] eqn:E; [|done].
  cbn [mbind option_bind]. intros [= <-] k l.
  destruct (decide (k = key)) as [->|Hne].
  - rewrite lookup_insert_eq. intros [= <-]. apply Forall_app.
    split; [by eapply Hall|]. by constructor.
  - rewrite lookup_insert_ne by done. apply Hall.
Qed.

Lemma additional_loop_items text lines : forall section_ info info',
  lines ⊆ split_on nl text ->
  (forall k l, info !! k = Some l -> Forall (additional_item text) l) ->
  additional_loop lines section_ info = Some info' ->
  forall k l, info' !! k = Some l -> Forall (additional_item text) l.
Proof.
  induction lines as [|line rest IH]; intros sec info info' Hsub Hall;
    cbn [additional_loop]; [by intros [= <-]|].
  assert (Hrest : rest ⊆ split_on nl text).
  { intros x Hx. apply Hsub. by right. }
  assert (Hline : trimmed_line_of text (strip line)).
  { exists line. split; [|done]. apply Hsub. by left. }
  destruct (negb (nonempty (strip line))); [by apply IH|].
  cbv zeta.
  destruct (startswith (py "certificat") (lower (strip line)) ||
            startswith (py "certification") (lower (strip line))) eqn:E1;
    [by apply IH|].
  destruct (startswith (py "language") (lower (strip line)) ||
            str_eqb (lower (strip line)) (py "languages") ||
            startswith (py "languages:") (lower (strip line))) eqn:E2;
    [by apply IH|].
  destruct (startswith (py "award") (lower (strip line)) ||
            startswith (py "awards") (lower (strip line)) ||
            contains (py "honor") (lower (strip line))) eqn:E3;
    [by apply IH|].
  destruct (negb (String.eqb sec "") && Nat.ltb 2 (len (strip line))) eqn:E4;
    [|by apply IH].
  apply andb_true_iff in E4 as [_ E4%Nat.ltb_lt].
  assert (Hitem : additional_item text (strip line)).
  { split; [done|]. split; [done|]. unfold additional_header.
    apply orb_false_iff in E1 as [-> _].
    apply orb_false_iff in E2 as [[-> _]%orb_false_iff _].
    apply orb_false_iff in E3 as [[-> _]%orb_false_iff ->]. done. }
  match goal with |- context [mbind _ ?e] =>
    destruct e as [info1|] eqn:E5 end; [|done].
  cbn [mbind option_bind]. apply IH; [done|].
  revert E5.
  repeat (match goal with |- context [if ?b then _ else _] =>
            destruct b end; [by apply append_to_items|]).
  by intros [= <-].
Qed.

(** X16.  Every item of the three additional lists is a line of the text, more
    than two characters long, that is no header of the three sections. *)
Theorem additional_items_are_lines (text : pystr) :
  exists info,
    extract_additional_info text = Some info /\
    forall key l, info !! key = Some l -> Forall (additional_item text) l.
Proof.
  destruct (extract_additional_info_ok text) as (info & Hinfo & _).
  exists info. split; [done|].
  eapply (additional_loop_items text); [done| |exact Hinfo].
  intros k l. unfold additional_info_init.
  intros H. apply elem_of_list_to_map_2 in H.
  repeat (apply elem_of_cons in H as [[= -> ->]|H]); try constructor.
  by apply elem_of_nil in H.
Qed.

Lemma additional_loop_outside lines : forall info,
  (forall line, line ∈ lines ->
                additional_header (lower (strip line)) = false) ->
  additional_loop lines "" info = Some info.
Proof.
  induction lines as [|line rest IH]; intros info Hno;
    cbn [additional_loop]; [done|].
  assert (Hrest : additional_loop rest "" info = Some info).
  { apply IH. intros l Hl. apply Hno. by right. }
  destruct (negb (nonempty (strip line))); [done|]. cbv zeta.
  pose proof (Hno line ltac:(by left)) as H. unfold additional_header in H.
  apply orb_false_iff in H as [[[H1 H2]%orb_false_iff H3]%orb_false_iff H4].
  assert (Hs : forall w w' s, startswith w s = false ->
                 startswith (w ++ w') s = false).
  { intros w w' s Hw. destruct (startswith (w ++ w') s) eqn:E; [|done].
    apply startswith_spec in E as [r ->]. rewrite <- Hw. symmetry.
    apply startswith_spec. exists (w' ++ r). by rewrite app_assoc. }
  rewrite H1, H4.
  change (py "certification") with (py "certificat" ++ py "ion").
  change (py "languages:") with (py "language" ++ py "s:").
  change (py "awards") with (py "award" ++ py "s").
  rewrite !Hs, H2, H3 by done.
  assert (Heq : str_eqb (lower (strip line)) (py "languages") = false).
  { unfold str_eqb. apply bool_decide_eq_false. intros Heq.
    rewrite Heq in H2. done. }
  rewrite Heq. done.
Qed.

(** X17.  A text that holds none of "certificat", "language", "award" and
    "honor", in either case, has three empty additional lists. *)
Theorem no_additional_without_header (text : pystr)
    (no_header : any_in [py "certificat"; py "language"; py "award";
                         py "honor"] (lower text) = false) :
  extract_additional_info text = Some additional_info_init.
Proof.
  unfold extract_additional_info. apply additional_loop_outside.
  intros line Hin.
  pose proof (no_word_no_line _ _ _ no_header Hin) as H.
  unfold any_in in H. cbn [existsb] in H.
  repeat (apply orb_false_iff in H as [? H]).
  unfold additional_header.
  assert (Hs : forall w s, contains w s = false -> startswith w s = false).
  { intros w s Hw. destruct (startswith w s) eqn:E; [|done].
    rewrite <- Hw. symmetry. apply contains_spec.
    apply startswith_spec in E as [r ->]. by exists [], r. }
  rewrite !Hs by done. done.
Qed.

Lemma no_additional_without_header_witness :
  let text := text_of_lines
    [py "Jane Doe"; py "Skills"; py "Python and SQL"] in
  any_in [py "certificat"; py "language"; py "award"; py "honor"]
    (lower text) = false /\
  extract_additional_info text = Some additional_info_init.
Proof.
  split; [by vm_compute|]. apply no_additional_without_header.
  by vm_compute.
Defined.

(** ** The two metrics *)

Section MoreMetrics.
Local Open Scope Z_scope.

Lemma sum_Z_perm (l l' : list Z) : l ≡ₚ l' -> sum_Z l = sum_Z l'.
Proof.
  induction 1 as [|x l l' _ IH|x y l|l l' l'' _ IH1 _ IH2]; unfold sum_Z in *;
    simpl; lia.
Qed.

(** X18.  The two metrics do not depend on the order of the work entries. *)
Theorem metrics_ignore_order (now : datetime)
    (jobs jobs' : list (gmap string pyval)) (same : jobs ≡ₚ jobs') :
  calculate_total_experience now jobs = calculate_total_experience now jobs' /\
  forall text,
    calculate_experience_level now jobs text =
    calculate_experience_level now jobs' text.
Proof.
  split.
  - unfold calculate_total_experience. rewrite !months_loop_sum.
    f_equal. f_equal. apply sum_Z_perm. by rewrite same.
  - intros text. unfold calculate_experience_level.
    rewrite !level_loop_sum.
    by rewrite (sum_Z_perm _ _ (omap_Permutation (years_added now) _ _ same)).
Qed.

Lemma metrics_ignore_order_witness :
  let a := dated_job (py "2015-02") (py "2018-06") in
  let b := dated_job (py "2018-07") (py "Present") in
  [a; b] ≡ₚ [b; a] /\
  calculate_total_experience clock0 [a; b]
    = calculate_total_experience clock0 [b; a] /\
  forall text,
    calculate_experience_level clock0 [a; b] text =
    calculate_experience_level clock0 [b; a] text.
Proof.
  intros a b. split; [apply perm_swap|].
  apply (metrics_ignore_order clock0 [a; b] [b; a]). apply perm_swap.
Defined.

(** ** The metrics of the assembled profile *)

Lemma short_years_added now job :
  job_ok job ->
  match years_added now job with Some d => d = 0 | None => True end.
Proof.
  intros (_ & _ & (sd & Hs & Hsd) & (ed & He & Hed)).
  unfold years_added, get_truthy, job_years. rewrite Hs, He.
  unfold short_dates in *.
  repeat (apply elem_of_cons in Hsd as [->|Hsd]);
    try (by apply elem_of_nil in Hsd);
    (repeat (apply elem_of_cons in Hed as [->|Hed]));
    try (by apply elem_of_nil in Hed); by vm_compute.
Qed.

Lemma short_months_added now job :
  job_ok job ->
  match months_added now job with
  | Some d => d = 0 \/ d = 12 \/ d = -12
  | None => True
  end.
Proof.
  intros (_ & _ & (sd & Hs & Hsd) & (ed & He & Hed)).
  unfold months_added, get_truthy, job_months. rewrite Hs, He.
  unfold short_dates in *.
  repeat (apply elem_of_cons in Hsd as [->|Hsd]);
    try (by apply elem_of_nil in Hsd);
    (repeat (apply elem_of_cons in Hed as [->|Hed]));
    try (by apply elem_of_nil in Hed); vm_compute; tauto.
Qed.

Lemma short_years_sum now jobs :
  Forall job_ok jobs -> sum_Z (omap (years_added now) jobs) = 0.
Proof.
  induction 1 as [|job jobs Hj _ IH]; [done|].
  rewrite sum_Z_omap_cons. pose proof (short_years_added now job Hj) as H.
  destruct (years_added now job); lia.
Qed.

Lemma short_months_sum now jobs :
  Forall job_ok jobs ->
  exists k, sum_Z (omap (months_added now) jobs) = 12 * k /\
            - Z.of_nat (length jobs) <= k <= Z.of_nat (length jobs).
Proof.
  induction 1 as [|job jobs Hj _ (k & IH & Hk)]; [by exists 0|].
  rewrite sum_Z_omap_cons. pose proof (short_months_added now job Hj) as H.
  cbn [length]. destruct (months_added now job) as [d|].
  - destruct H as [ -> | [ -> | -> ] ].
    + exists k. split; lia.
    + exists (k + 1). split; lia.
    + exists (k - 1). split; lia.
  - exists k. split; lia.
Qed.

Lemma format_whole_years k :
  format_experience (12 * k) =
  if k =? 0 then py "0 months" else str_of_int k ++ py " years".
Proof.
  unfold format_experience.
  replace (12 * k / 12) with k by (rewrite Z.mul_comm; by rewrite Z.div_mul).
  replace ((12 * k) mod 12) with 0
    by (rewrite Z.mul_comm; by rewrite Z.mod_mul).
  by destruct (k =? 0).
Qed.

End MoreMetrics.

Lemma structured_data_metrics los now text :
  exists p jobs,
    structured_data los now text = Some p /\
    extract_work_experience text = Some jobs /\
    Forall job_ok jobs /\
    p_work_experience p = jobs /\
    p_experience_level p = calculate_experience_level now jobs text /\
    p_total_experience p = calculate_total_experience now jobs.
Proof.
  unfold structured_data.
  destruct (extract_personal_info_keys text) as (pi & -> & _).
  destruct (extract_work_experience_ok text) as (we & -> & Hwe).
  destruct (extract_education_ok text) as (ed & -> & _).
  destruct (extract_skills_keys los text) as (sk & -> & _).
  destruct (extract_projects_ok text) as (pr & -> & _).
  destruct (extract_additional_info_ok text) as (ai & -> & Hk).
  cbn [mbind option_bind].
  destruct (the_keys_lookup ai _ "certifications" Hk ltac:(in_keys))
    as [c ->].
  destruct (the_keys_lookup ai _ "languages" Hk ltac:(in_keys)) as [l ->].
  destruct (the_keys_lookup ai _ "awards" Hk ltac:(in_keys)) as [a ->].
  cbn [mbind option_bind]. eexists _, we. by repeat split.
Qed.

(** X19.  In the assembled profile the level follows from the length of the text
    alone: "Intermediate" for more than 3000 characters and "Fresher"
    otherwise, never "Experienced".  The dates that the work entries hold
    never give a year count other than zero. *)
Theorem profile_level_follows_length
    (list_of_set : list pystr -> list pystr) (now : datetime)
    (text : pystr) :
  exists p,
    structured_data list_of_set now text = Some p /\
    p_experience_level p =
      if Nat.ltb 3000 (len text) then py "Intermediate" else py "Fresher".
Proof.
  destruct (structured_data_metrics list_of_set now text)
    as (p & jobs & Hp & _ & Hjobs & _ & Hl & _).
  exists p. split; [done|]. rewrite Hl. unfold calculate_experience_level.
  rewrite level_loop_sum, short_years_sum by done. cbn [Z.add Z.eqb].
  destruct (Nat.ltb 3000 (len text)); [done|].
  by destruct (Nat.ltb 1500 (len text)).
Qed.

(** X20.  In the assembled profile the total experience is a whole number of
    years, between minus and plus the number of work entries: "0 months"
    for zero, and the number followed by " years" otherwise. *)
Theorem profile_total_is_whole_years
    (list_of_set : list pystr -> list pystr) (now : datetime)
    (text : pystr) :
  exists p k,
    structured_data list_of_set now text = Some p /\
    (- Z.of_nat (length (p_work_experience p)) <= k
     <= Z.of_nat (length (p_work_experience p)))%Z /\
    p_total_experience p =
      if (k =? 0)%Z then py "0 months" else str_of_int k ++ py " years".
Proof.
  destruct (structured_data_metrics list_of_set now text)
    as (p & jobs & Hp & _ & Hjobs & Hw & _ & Ht).
  destruct (short_months_sum now jobs Hjobs) as (k & Hk & Hb).
  exists p, k. split; [done|]. rewrite Hw. split; [done|].
  rewrite Ht. unfold calculate_total_experience.
  rewrite months_loop_sum, Hk, Z.add_0_l. apply format_whole_years.
Qed.

(** ** The answers of the endpoint *)

(** X21.  The endpoint answers with the profile exactly when the name of the
    upload ends with ".pdf", in either case, and the text has at least
    fifty characters once the white space around it is removed; otherwise
    it answers with status 400.  It never answers with status 500 because
    of the extraction, and the test for an empty text adds nothing to the
    test of the length. *)
Theorem analyze_resume_answers
    (list_of_set : list pystr -> list pystr) (now : datetime)
    (filename resume_text : pystr) :
  (endswith (py ".pdf") (lower filename) = true /\
   50 <= len (strip resume_text) ->
   exists message data,
     structured_data list_of_set now resume_text = Some data /\
     analyze_resume list_of_set now filename resume_text
       = Success message data) /\
  (endswith (py ".pdf") (lower filename) = false \/
   len (strip resume_text) < 50 ->
   exists detail,
     analyze_resume list_of_set now filename resume_text
       = HTTPException 400 detail).
Proof.
  unfold analyze_resume. split.
  - intros [-> Hlen]. cbn [negb].
    assert (Hne : nonempty resume_text = true).
    { destruct resume_text; [|done]. simpl in Hlen. lia. }
    rewrite Hne. cbn [negb orb].
    apply Nat.ltb_ge in Hlen. rewrite Hlen.
    destruct (structured_data_total list_of_set now resume_text) as [p ->].
    eauto.
  - intros H. destruct (endswith (py ".pdf") (lower filename)); cbn [negb];
      [|eauto].
    destruct H as [|Hlen%Nat.ltb_lt]; [done|]. rewrite Hlen, orb_true_r.
    eauto.
Qed.

(** ** What a pattern matches is one of its texts *)

Lemma m_lang {A} r : forall (k : cursor -> caps -> option A) c g a,
  m r k c g = Some a ->
  exists c' g' t,
    k c' g' = Some a /\ ahead c = t ++ ahead c' /\ lang r t.
Proof.
  induction r; intros k c g a; cbn [m lang].
  - intros H. by exists c, g, [].
  - destruct (ahead c) as [|x s] eqn:E; [done|].
    destruct (p x) eqn:Ep; [|done]. intros H.
    exists (Cursor (Some x) s), g, [x]. repeat split; try done. by exists x.
  - intros H. apply IHr1 in H as (c1 & g1 & t1 & H & E1 & L1).
    apply IHr2 in H as (c2 & g2 & t2 & H & E2 & L2).
    exists c2, g2, (t1 ++ t2). split; [done|]. split.
    + by rewrite E1, E2, app_assoc.
    + by exists t1, t2.
  - destruct (m r1 k c g) eqn:E.
    + intros [= ->]. apply IHr1 in E as (c' & g' & t & H & E' & L).
      exists c', g', t. repeat split; try done. by left.
    + intros H. apply IHr2 in H as (c' & g' & t & H & E' & L).
      exists c', g', t. repeat split; try done. by right.
  - intros H. apply m_star_taken in H as (t & rest & b' & E & Ht & H).
    by exists (Cursor b' rest), g, t.
  - intros H. apply IHr in H as (c' & g' & t & H & E & L).
    by exists c', ((n, consumed c c') :: g'), t.
  - destruct (before c); [done|]. intros H. by exists c, g, [].
  - destruct (at_eol c); [|done]. intros H. by exists c, g, [].
  - destruct (at_boundary c); [|done]. intros H. by exists c, g, [].
Qed.

Lemma re_search_lang r s mt :
  re_search r s = Some mt -> lang r (m_text mt).
Proof.
  intros (b & s' & i & H)%search_at_inv. unfold match_here in H.
  apply m_lang in H as (c' & g' & t & H & E & L). injection H as <-.
  cbn [m_text]. unfold consumed. cbn [ahead] in *. rewrite E, length_app.
  replace (length t + length (ahead c') - length (ahead c'))
    with (length t) by lia.
  by rewrite take_app_length.
Qed.

Lemma lang_max_len r : forall t n,
  lang r t -> max_len r = Some n -> length t <= n.
Proof.
  induction r; intros t m; cbn [lang max_len].
  - intros -> [= <-]. done.
  - intros (x & -> & _) [= <-]. done.
  - intros (t1 & t2 & -> & L1 & L2).
    destruct (max_len r1) as [a|]; [|done].
    destruct (max_len r2) as [b|]; [|done]. intros [= <-].
    rewrite length_app. specialize (IHr1 _ _ L1 eq_refl).
    specialize (IHr2 _ _ L2 eq_refl). lia.
  - intros L. destruct (max_len r1) as [a|]; [|done].
    destruct (max_len r2) as [b|]; [|done]. intros [= <-].
    destruct L as [L|L].
    + specialize (IHr1 _ _ L eq_refl). lia.
    + specialize (IHr2 _ _ L eq_refl). lia.
  - done.
  - apply IHr.
  - intros -> [= <-]. done.
  - intros -> [= <-]. done.
  - intros -> [= <-]. done.
Qed.

Lemma digits_in_app a b : digits_in (a ++ b) = digits_in a + digits_in b.
Proof. unfold digits_in. by rewrite filter_app, length_app. Qed.

Lemma digits_ge_0 r : digits_ge 0 r.
Proof. intros t _. lia. Qed.

Lemma digits_ge_seq n1 n2 r1 r2 :
  digits_ge n1 r1 -> digits_ge n2 r2 -> digits_ge (n1 + n2) (Seq r1 r2).
Proof.
  intros H1 H2 t (t1 & t2 & -> & L1 & L2). rewrite digits_in_app.
  specialize (H1 _ L1). specialize (H2 _ L2). lia.
Qed.

Lemma digits_ge_rep n : digits_ge n (Rep n is_digit).
Proof.
  induction n as [|n IH]; [apply digits_ge_0|].
  intros t (t1 & t2 & -> & (x & -> & Hx) & L2). specialize (IH _ L2).
  unfold digits_in in *. cbn [app]. rewrite filter_cons, decide_True by done.
  simpl. lia.
Qed.

Lemma phone_patterns_digits r :
  r ∈ phone_patterns -> digits_ge 10 r /\ max_len r = Some 19 \/
                        digits_ge 10 r /\ max_len r = Some 12.
Proof.
  unfold phone_patterns.
  intros [->|[->|H]%elem_of_cons]%elem_of_cons;
    [left|right|by apply elem_of_nil in H]; (split; [|done]).
  - unfold seqs. cbn [foldr].
    change 10 with (0 + (0 + (3 + (0 + (0 + (3 + (0 + (4 + 0)))))))).
    repeat (apply digits_ge_seq;
            [first [apply digits_ge_rep|apply digits_ge_0]|]).
    apply digits_ge_0.
  - unfold seqs. cbn [foldr].
    change 10 with (0 + (3 + (0 + (3 + (0 + (4 + (0 + 0))))))).
    repeat (apply digits_ge_seq;
            [first [apply digits_ge_rep|apply digits_ge_0]|]).
    apply digits_ge_0.
Qed.

(** X22.  For plain text the telephone number is empty, or holds at least
    ten digits and at most nineteen characters. *)
Theorem phone_has_ten_digits (text : pystr) (in_model : plain text) :
  exists info phone,
    extract_personal_info text = Some info /\
    info !! "phone" = Some phone /\
    (phone = [] \/ (10 <= digits_in phone /\ len phone <= 19)).
Proof.
  destruct (extract_personal_info_keys text) as (info & Hinfo & _).
  exists info.
  destruct (contact_field text info "phone" Hinfo) as (i1 & H0 & ->);
    [apply list_elem_of_In; simpl; tauto|].
  rewrite !set_group0_other by done.
  destruct (phone_loop_same phone_patterns text
              (set_group0 "email" email_re text i1))
    as [->|(r & mt & Hr & Hs & ->)].
  - rewrite set_group0_other, H0
      by (done || (apply list_elem_of_In; simpl; tauto)).
    exists []. split; [done|]. split; [done|]. by left.
  - exists (m_text mt). split; [done|]. split; [done|]. right.
    apply re_search_lang in Hs.
    destruct (phone_patterns_digits r Hr) as [[Hd Hm]|[Hd Hm]];
      (split; [by apply Hd|]);
      pose proof (lang_max_len _ _ _ Hs Hm) as Hlen; unfold len; lia.
Qed.

Lemma phone_has_ten_digits_witness :
  let text := py "Call +1 (555) 123-4567 today" in
  plain text /\
  exists info phone,
    extract_personal_info text = Some info /\
    info !! "phone" = Some phone /\
    phone = py "+1 (555) 123-4567" /\
    (phone = [] \/ (10 <= digits_in phone /\ len phone <= 19)).
Proof.
  intros text.
  assert (Hplain : plain text) by by vm_compute.
  assert (Hc : (extract_personal_info text ≫= fun info => info !! "phone")
               = Some (py "+1 (555) 123-4567")) by by vm_compute.
  split; [done|].
  destruct (phone_has_ten_digits text Hplain) as (info & phone & Hi & Hp & H).
  exists info, phone. split; [exact Hi|]. split; [exact Hp|].
  split; [|exact H].
  rewrite Hi in Hc. cbn [mbind option_bind] in Hc. rewrite Hp in Hc.
  by injection Hc.
Defined.
